(** * dynamic-tables: the [todoitem] table controller over DocumentDB

    A shallow embedding of [src/todoitem/index.js] (the handlers
    [getOneItem], [getAllItems], [insertItem], [replaceItem], [deleteItem]
    and the mapper [convertItem]), of the document operations of
    [src/docdb-driver/document.js] they call, and of the filter rewriting
    script that prototypes the query translation, followed by the
    properties of the specification that concern them. The settings of
    the controller, its initialization, the translation of store errors
    and the database cache of [src/docdb-driver/index.js] are embedded as
    well, with the properties the code shows of them.

    JavaScript objects are finite maps from property names to values that
    live in a heap and are handled through references, so that a mutation
    made through one name of an object is seen through every other name.
    Handlers run in a state-and-exception monad over a [world]: the heap,
    the document collection, the clock, the response under construction
    and the trace of what was sent and what was asked of the store.

    The two libraries the code calls, [moment] and Node's [Buffer], are
    modelled on the values the store contract gives them: [_ts] an integer
    number of seconds, [_etag] a string of bytes. *)

From Stdlib Require Import ZArith NArith Lia String Ascii List DecimalString.
From stdpp Require Import gmap strings list fin_maps.

Open Scope string_scope.
Open Scope Z_scope.

(* ===================================================================== *)
(** * Definitions *)
(* ===================================================================== *)

(** ** Bounded checks, used to settle finite case analyses by evaluation *)

(** [all_from n z P]: [P] holds of the [n] integers from [z] on. *)
Fixpoint all_from (n : nat) (z : Z) (P : Z -> bool) : bool :=
  match n with
  | O => true
  | S k => P z && all_from k (z + 1) P
  end.

Definition all_below (n : Z) (P : Z -> bool) : bool :=
  all_from (Z.to_nat n) 0 P.

(** ** Base64, as [Buffer.prototype.toString('base64')] produces it *)

Module Base64.

Definition alphabet : list ascii :=
  list_ascii_of_string
    "ABCDEFGHIJKLMNOPQRSTUVWXYZabcdefghijklmnopqrstuvwxyz0123456789+/".

Definition pad_char : ascii := "="%char.

Definition sextet_to_char (n : Z) : ascii :=
  nth (Z.to_nat n) alphabet pad_char.

Fixpoint index_from (i : Z) (c : ascii) (l : list ascii) : option Z :=
  match l with
  | [] => None
  | x :: r => if Ascii.eqb c x then Some i else index_from (i + 1) c r
  end.

Definition char_to_sextet (c : ascii) : option Z := index_from 0 c alphabet.

Definition byte (c : ascii) : Z := Z.of_N (N_of_ascii c).
Definition char (b : Z) : ascii := ascii_of_N (Z.to_N b).

(** Three bytes give four sextets; a final group of one or two bytes is
    completed with zero bits and padded with [=]. *)
Fixpoint encode (s : string) : string :=
  match s with
  | EmptyString => EmptyString
  | String a EmptyString =>
      let a := byte a in
      String (sextet_to_char (a / 4))
        (String (sextet_to_char ((a mod 4) * 16))
           (String pad_char (String pad_char EmptyString)))
  | String a (String b EmptyString) =>
      let a := byte a in
      let b := byte b in
      String (sextet_to_char (a / 4))
        (String (sextet_to_char ((a mod 4) * 16 + b / 16))
           (String (sextet_to_char ((b mod 16) * 4))
              (String pad_char EmptyString)))
  | String a (String b (String c r)) =>
      let a := byte a in
      let b := byte b in
      let c := byte c in
      String (sextet_to_char (a / 4))
        (String (sextet_to_char ((a mod 4) * 16 + b / 16))
           (String (sextet_to_char ((b mod 16) * 4 + c / 64))
              (String (sextet_to_char (c mod 64)) (encode r))))
  end.

(** Modelled from the spec: [decodeVersion], the inverse of
    [encodeVersion] (section 4.1), which no source file defines. It reads
    the token four characters at a time and fails on anything that is
    not padded base64 text. *)
Fixpoint decode (t : string) : option string :=
  match t with
  | EmptyString => Some EmptyString
  | String c0 (String c1 (String c2 (String c3 r))) =>
      match char_to_sextet c0, char_to_sextet c1 with
      | Some s0, Some s1 =>
          let b0 := char (s0 * 4 + s1 / 16) in
          match char_to_sextet c2, char_to_sextet c3 with
          | Some s2, Some s3 =>
              match decode r with
              | Some rest =>
                  Some (String b0
                          (String (char ((s1 mod 16) * 16 + s2 / 4))
                             (String (char ((s2 mod 4) * 64 + s3)) rest)))
              | None => None
              end
          | Some s2, None =>
              if Ascii.eqb c3 pad_char && String.eqb r EmptyString
              then Some (String b0
                           (String (char ((s1 mod 16) * 16 + s2 / 4))
                              EmptyString))
              else None
          | None, _ =>
              if Ascii.eqb c2 pad_char && Ascii.eqb c3 pad_char
                 && String.eqb r EmptyString
              then Some (String b0 EmptyString)
              else None
          end
      | _, _ => None
      end
  | _ => None
  end.

End Base64.

(** ** Decimal digits *)

Definition digit_char (d : Z) : ascii := ascii_of_N (Z.to_N (d + 48)).

(** [zero_fill n z]: the last [n] decimal digits of [z], zero filled. *)
Fixpoint zero_fill (n : nat) (z : Z) : string :=
  match n with
  | O => EmptyString
  | S k => zero_fill k (z / 10) ++ String (digit_char (z mod 10)) EmptyString
  end.

(** A JavaScript integer number printed by a template literal. *)
Definition number_to_string (z : Z) : string :=
  NilZero.string_of_int (Z.to_int z).

(** ** Characters and numerals *)

(** The classes [\d] and [\s] of regular expressions; a character is a
    code unit below 256. *)
Definition is_digit (c : ascii) : bool :=
  let n := Z.of_N (N_of_ascii c) in (48 <=? n) && (n <=? 57).

Definition is_space (c : ascii) : bool :=
  let n := Z.of_N (N_of_ascii c) in
  ((9 <=? n) && (n <=? 13)) || (n =? 32) || (n =? 160).

(** The number that the digits of [s] write in base [b], after [acc]; a
    letter is the digit of its rank from ten on, and [numeral b s] tells
    whether [s] is made of digits of that base. *)
Definition figure (c : ascii) : Z :=
  let n := Z.of_N (N_of_ascii c) in
  if (48 <=? n) && (n <=? 57) then n - 48
  else if (97 <=? n) && (n <=? 122) then n - 87
  else if (65 <=? n) && (n <=? 90) then n - 55
  else 36.

Fixpoint number_of (b acc : Z) (s : string) : Z :=
  match s with
  | EmptyString => acc
  | String c r => number_of b (acc * b + figure c) r
  end.

Fixpoint numeral (b : Z) (s : string) : bool :=
  match s with
  | EmptyString => true
  | String c r => (figure c <? b) && numeral b r
  end.

(** The longest prefix whose characters satisfy [p], and what follows. *)
Fixpoint span (p : ascii -> bool) (s : string) : string * string :=
  match s with
  | String c r =>
      if p c then let '(a, b) := span p r in (String c a, b)
      else (EmptyString, s)
  | EmptyString => (EmptyString, EmptyString)
  end.


(** ** Numbers

    The numbers of JavaScript are the doubles. The handlers compute with
    integers that doubles hold exactly; a conversion of a string to a
    number, and a product of what it gives, round. [Finite n m e] is the
    double [m * 2 ^ e], negated when [n] is set. *)
Module Double.

Inductive t : Type :=
| NaN
| Infinite (negative : bool)
| Finite (negative : bool) (m e : Z).

(** The integer nearest to [p / q], the even one of two that are as
    near; [0 <= p] and [0 < q]. *)
Definition nearest (p q : Z) : Z :=
  let f := p / q in
  match 2 * (p mod q) ?= q with
  | Lt => f
  | Gt => f + 1
  | Eq => if Z.even f then f else f + 1
  end.

(** The integer part of the binary logarithm of [p / q]; [0 < p] and
    [0 < q]. *)
Definition exponent (p q : Z) : Z :=
  let k := Z.log2 p - Z.log2 q in
  if (if 0 <=? k then q * 2 ^ k <=? p else q <=? p * 2 ^ (- k))
  then k else k - 1.

(** The double nearest to [p / q]: 53 bits, an exponent from -1074
    on, and infinity from [2 ^ 1024] on. *)
Definition round (negative : bool) (p q : Z) : t :=
  if p =? 0 then Finite negative 0 0
  else
    let e := Z.max (exponent p q - 52) (- 1074) in
    let m := if 0 <=? e then nearest p (q * 2 ^ e)
             else nearest (p * 2 ^ (- e)) q in
    if (971 <? e) || ((e =? 971) && (m =? 2 ^ 53)) then Infinite negative
    else Finite negative m e.

(** [x * 1000]. *)
Definition thousand (x : t) : t :=
  match x with
  | Finite n m e =>
      if 0 <=? e then round n (m * 1000 * 2 ^ e) 1
      else round n (m * 1000) (2 ^ (- e))
  | _ => x
  end.

(** The integer part of a finite number, towards zero. *)
Definition integer (x : t) : option Z :=
  match x with
  | Finite n m e =>
      let a := if 0 <=? e then m * 2 ^ e else m / 2 ^ (- e) in
      Some (if n then - a else a)
  | _ => None
  end.

(** [+s], the number that a string converts to: a decimal literal, which
    may have a sign, a fraction and an exponent, or [Infinity], or an
    integer in base 16, 8 or 2, between white space; the empty string is
    zero, and anything else is not a number. *)
Fixpoint trimEnd (s : string) : string :=
  match s with
  | EmptyString => EmptyString
  | String c r =>
      let r := trimEnd r in
      if is_space c && String.eqb r "" then EmptyString else String c r
  end.

Definition trim (s : string) : string := trimEnd (snd (span is_space s)).

Definition signed (s : string) : bool * string :=
  match s with
  | String "+" r => (false, r)
  | String "-" r => (true, r)
  | _ => (false, s)
  end.

(** The exponent part of a literal, [None] when what follows the
    mantissa is no exponent part. *)
Definition exponentPart (s : string) : option Z :=
  match s with
  | EmptyString => Some 0
  | String c r =>
      if Ascii.eqb c "e" || Ascii.eqb c "E" then
        let '(n, d) := signed r in
        if negb (String.eqb d "") && numeral 10 d
        then Some (if n then - number_of 10 0 d else number_of 10 0 d)
        else None
      else None
  end.

Definition decimal (negative : bool) (s : string) : t :=
  let '(whole, r) := span is_digit s in
  let '(fraction, r) :=
    match r with
    | String "." r => span is_digit r
    | _ => (EmptyString, r)
    end in
  if String.eqb whole "" && String.eqb fraction "" then NaN
  else
    match exponentPart r with
    | Some x =>
        let n := number_of 10 0 (whole ++ fraction) in
        let scale := x - Z.of_nat (String.length fraction) in
        if 0 <=? scale then round negative (n * 10 ^ scale) 1
        else round negative n (10 ^ (- scale))
    | None => NaN
    end.

Definition based (b : Z) (s : string) : t :=
  if negb (String.eqb s "") && numeral b s
  then round false (number_of b 0 s) 1 else NaN.

Definition ofString (s : string) : t :=
  match trim s with
  | EmptyString => Finite false 0 0
  | String "0" (String "x" r) | String "0" (String "X" r) => based 16 r
  | String "0" (String "o" r) | String "0" (String "O" r) => based 8 r
  | String "0" (String "b" r) | String "0" (String "B" r) => based 2 r
  | t =>
      let '(n, u) := signed t in
      if String.eqb u "Infinity" then Infinite n else decimal n u
  end.

End Double.


(** ** Regular expressions

    The expressions [moment] reads a string with, and their matching as
    JavaScript does it: the alternatives are tried in order, an optional
    part and a repetition take what they can and give back what the rest
    of the expression needs. *)
Module Regex.

Inductive t : Type :=
| Eps
| One (p : ascii -> bool)
| Cat (a b : t)
| Alt (a b : t)
| Opt (a : t)
| Many (p : ascii -> bool)
| Group (n : nat) (a : t).

(** The text of the groups that took part in a match, the last first. *)
Definition groups : Type := list (nat * string).

(** What [s] has before its suffix [s']. *)
Definition before (s s' : string) : string :=
  substring 0 (String.length s - String.length s') s.

Section run.
Context {R : Type}.

Fixpoint many (p : ascii -> bool) (k : string -> groups -> option R)
    (s : string) (g : groups) : option R :=
  match s with
  | String c r =>
      if p c then
        match many p k r g with
        | Some x => Some x
        | None => k s g
        end
      else k s g
  | EmptyString => k s g
  end.

(** [run r k s g]: [r] matches a prefix of [s] after which [k] succeeds;
    the first way to do so is taken. *)
Fixpoint run (r : t) (k : string -> groups -> option R) (s : string)
    (g : groups) : option R :=
  match r with
  | Eps => k s g
  | One p =>
      match s with
      | String c r => if p c then k r g else None
      | EmptyString => None
      end
  | Cat a b => run a (run b k) s g
  | Alt a b =>
      match run a k s g with
      | Some x => Some x
      | None => run b k s g
      end
  | Opt a =>
      match run a k s g with
      | Some x => Some x
      | None => k s g
      end
  | Many p => many p k s g
  | Group n a => run a (fun s' g' => k s' ((n, before s s') :: g')) s g
  end.

End run.

(** A match at the start of [s]: its text, what follows, its groups. *)
Definition here (r : t) (s : string) : option (string * string * groups) :=
  run r (fun s' g => Some (before s s', s', g)) s [].

(** The first match in [s], as [exec] and [match] find it: its text and
    what follows it. *)
Fixpoint search (r : t) (s : string) : option (string * string) :=
  match here r s with
  | Some (m, s', _) => Some (m, s')
  | None =>
      match s with
      | String _ s' => search r s'
      | EmptyString => None
      end
  end.

Definition group (n : nat) (g : groups) : option string :=
  snd <$> find (fun x => Nat.eqb (fst x) n) g.

Definition chr (c : ascii) : t := One (Ascii.eqb c).
Definition digit : t := One is_digit.
Definition sign : t :=
  One (fun c => Ascii.eqb c "+" || Ascii.eqb c "-").

Fixpoint seq (l : list t) : t :=
  match l with
  | [] => Eps
  | [a] => a
  | a :: l => Cat a (seq l)
  end.

Fixpoint alt (a : t) (l : list t) : t :=
  match l with
  | [] => a
  | b :: l => Alt a (alt b l)
  end.

(** [a{n}] and [a{0,n}]. *)
Fixpoint times (n : nat) (a : t) : t :=
  match n with
  | O => Eps
  | S k => Cat a (times k a)
  end.

Fixpoint upto (n : nat) (a : t) : t :=
  match n with
  | O => Eps
  | S k => Opt (Cat a (upto k a))
  end.

End Regex.

(** ** The calls to [moment] the sources make

    A moment is an instant, a number of milliseconds since the epoch, in
    the range of an ECMAScript [Date]. The library is moment 2.17, of the
    time of the sources, in the locale [en]; the local zone is taken to
    be at a constant offset, [utcOffset], in minutes east of Greenwich.
    [toISOString] prints the years 1 to 9999 on four digits and the
    others signed, on six. *)

Module Moment.

Definition maxTime : Z := 8640000000000000.
Definition msPerDay : Z := 86400000.

Definition isLeap (y : Z) : bool :=
  (y mod 4 =? 0) && (negb (y mod 100 =? 0) || (y mod 400 =? 0)).

(** Days from the epoch to the first of January of year [y]. *)
Definition dayFromYear (y : Z) : Z :=
  365 * (y - 1970) + (y - 1969) / 4 - (y - 1901) / 100 + (y - 1601) / 400.


(** Days from the first of January to the first of month [m]. *)
Definition dayInYear (leap : bool) (m : Z) : Z :=
  let l := if leap then 1 else 0 in
  match m with
  | 1 => 0
  | 2 => 31
  | 3 => 59 + l
  | 4 => 90 + l
  | 5 => 120 + l
  | 6 => 151 + l
  | 7 => 181 + l
  | 8 => 212 + l
  | 9 => 243 + l
  | 10 => 273 + l
  | 11 => 304 + l
  | _ => 334 + l
  end.

Definition makeDay (y m d : Z) : Z :=
  dayFromYear y + dayInYear (isLeap y) m + d - 1.

Definition makeTime (h mi s ms : Z) : Z :=
  h * 3600000 + mi * 60000 + s * 1000 + ms.

(** Year, month and day of a day of the 400-year cycle that starts on the
    first of March of year 0. *)
Definition civilOfEraDay (doe : Z) : Z * Z * Z :=
  let yoe := (doe - doe / 1460 + doe / 36524 - doe / 146096) / 365 in
  let doy := doe - (365 * yoe + yoe / 4 - yoe / 100) in
  let mp := (5 * doy + 2) / 153 in
  let d := doy - (153 * mp + 2) / 5 + 1 in
  let m := if mp <? 10 then mp + 3 else mp - 9 in
  (if m <=? 2 then yoe + 1 else yoe, m, d).

Definition civilFromDays (z : Z) : Z * Z * Z :=
  let z := z + 719468 in
  let '(y, m, d) := civilOfEraDay (z mod 146097) in
  (y + (z / 146097) * 400, m, d).

Definition inRange (ms : Z) : bool := (- maxTime <=? ms) && (ms <=? maxTime).

Definition yearString (y : Z) : string :=
  if (0 <? y) && (y <=? 9999) then zero_fill 4 y
  else String (if 0 <=? y then "+"%char else "-"%char) (zero_fill 6 (Z.abs y)).

(** [m.toISOString()], [None] for an invalid date. *)
Definition toISOString (ms : Z) : option string :=
  if inRange ms then
    let t := ms mod msPerDay in
    let '(y, m, d) := civilFromDays (ms / msPerDay) in
    Some (yearString y ++ "-" ++ zero_fill 2 m ++ "-" ++ zero_fill 2 d
          ++ "T" ++ zero_fill 2 (t / 3600000)
          ++ ":" ++ zero_fill 2 ((t / 60000) mod 60)
          ++ ":" ++ zero_fill 2 ((t / 1000) mod 60)
          ++ "." ++ zero_fill 3 (t mod 1000) ++ "Z")
  else None.

(** *** Reading a string

    [moment(s)] on a string, as moment 2.17 reads it in the locale
    [en]: the date of ASP.NET, then ISO-8601 (the extended and the basic
    format; calendar, week and ordinal dates; a time with or without
    minutes, seconds and a fraction; [Z] or an offset), then whatever
    the constructor [Date] of the engine reads. *)

Import Regex.

(** [aspNetJsonRegex], [extendedIsoRegex], [basicIsoRegex] and
    [tzRegex]. *)
Definition aspNetJsonRegex : Regex.t :=
  seq [Opt (chr "/");
       One (fun c => Ascii.eqb c "D" || Ascii.eqb c "d");
       One (fun c => Ascii.eqb c "a" || Ascii.eqb c "A");
       One (fun c => Ascii.eqb c "t" || Ascii.eqb c "T");
       One (fun c => Ascii.eqb c "e" || Ascii.eqb c "E");
       chr "(";
       Group 1 (seq [Opt (chr "-"); digit; Many is_digit])].

Definition offsetRegex : Regex.t :=
  seq [sign; digit; digit; Opt (seq [Opt (chr ":"); digit; digit])].

Definition isoRegex (dash colon : Regex.t) : Regex.t :=
  seq [Many is_space;
       Group 1
         (seq [Alt (Cat sign (times 6 digit)) (times 4 digit);
               dash;
               alt (seq [digit; digit; dash; digit; digit])
                 [seq [chr "W"; digit; digit; dash; digit];
                  seq [chr "W"; digit; digit];
                  times 3 digit;
                  times 2 digit]]);
       Opt
         (seq [Group 2 (Alt (chr "T") (chr " "));
               Group 3
                 (seq [digit; digit;
                       Opt
                         (seq [colon; digit; digit;
                               Opt
                                 (seq [colon; digit; digit;
                                       Opt
                                         (seq [One (fun c =>
                                                      Ascii.eqb c "."
                                                      || Ascii.eqb c ",");
                                               digit; Many is_digit])])])]);
               Opt (Group 4 (Alt offsetRegex
                               (Cat (Many is_space) (chr "Z"))))])].

Definition extendedIsoRegex : Regex.t := isoRegex (chr "-") (chr ":").
Definition basicIsoRegex : Regex.t := isoRegex Eps Eps.
Definition tzRegex : Regex.t := Alt (chr "Z") offsetRegex.

(** The tokens of the formats that [configFromISO] composes, [Lit c]
    for a character that stands for itself. *)
Inductive token : Type :=
| YYYYYY | YYYY | MM | DD | DDD | GGGG | WW | E
| HH | mm | ss | SSSS | Zone | Lit (c : ascii).

(** [isoDates] and [isoTimes]: a format, the expression that selects it,
    and whether a time may follow. *)
Definition isoDates : list (list token * Regex.t * bool) :=
  [ ([YYYYYY; Lit "-"; MM; Lit "-"; DD],
     seq [sign; times 6 digit; chr "-"; digit; digit; chr "-"; digit; digit],
     true);
    ([YYYY; Lit "-"; MM; Lit "-"; DD],
     seq [times 4 digit; chr "-"; digit; digit; chr "-"; digit; digit], true);
    ([GGGG; Lit "-"; Lit "W"; WW; Lit "-"; E],
     seq [times 4 digit; chr "-"; chr "W"; digit; digit; chr "-"; digit],
     true);
    ([GGGG; Lit "-"; Lit "W"; WW],
     seq [times 4 digit; chr "-"; chr "W"; digit; digit], false);
    ([YYYY; Lit "-"; DDD], seq [times 4 digit; chr "-"; times 3 digit], true);
    ([YYYY; Lit "-"; MM], seq [times 4 digit; chr "-"; digit; digit], false);
    ([YYYYYY; MM; DD], seq [sign; times 10 digit], true);
    ([YYYY; MM; DD], times 8 digit, true);
    ([GGGG; Lit "W"; WW; E], seq [times 4 digit; chr "W"; times 3 digit],
     true);
    ([GGGG; Lit "W"; WW], seq [times 4 digit; chr "W"; times 2 digit], false);
    ([YYYY; DDD], times 7 digit, true) ].

Definition isoTimes : list (list token * Regex.t) :=
  [ ([HH; Lit ":"; mm; Lit ":"; ss; Lit "."; SSSS],
     seq [digit; digit; chr ":"; digit; digit; chr ":"; digit; digit;
          chr "."; digit; Many is_digit]);
    ([HH; Lit ":"; mm; Lit ":"; ss; Lit ","; SSSS],
     seq [digit; digit; chr ":"; digit; digit; chr ":"; digit; digit;
          chr ","; digit; Many is_digit]);
    ([HH; Lit ":"; mm; Lit ":"; ss],
     seq [digit; digit; chr ":"; digit; digit; chr ":"; digit; digit]);
    ([HH; Lit ":"; mm], seq [digit; digit; chr ":"; digit; digit]);
    ([HH; mm; ss; Lit "."; SSSS],
     seq [times 6 digit; chr "."; digit; Many is_digit]);
    ([HH; mm; ss; Lit ","; SSSS],
     seq [times 6 digit; chr ","; digit; Many is_digit]);
    ([HH; mm; ss], times 6 digit);
    ([HH; mm], times 4 digit);
    ([HH], times 2 digit) ].

(** The format [configFromISO] composes for a string, [None] when it
    makes none of it. *)
Definition isoFormat (s : string) : option (list token) :=
  g ← (match here extendedIsoRegex s with
       | Some (_, _, g) => Some g
       | None => (fun x => snd x) <$> here basicIsoRegex s
       end);
  date ← group 1 g;
  '(dateFormat, _, allowTime) ←
    find (fun d => bool_decide (is_Some (search (snd (fst d)) date)))
      isoDates;
  timeFormat ←
    match group 3 g with
    | Some time =>
        '(timeFormat, _) ←
          find (fun t => bool_decide (is_Some (search (snd t) time)))
            isoTimes;
        if allowTime : bool then
          sep ← group 2 g;
          match sep with
          | String c _ => Some (Lit c :: timeFormat)
          | EmptyString => None
          end
        else None
    | None => Some []
    end;
  tzFormat ←
    match group 4 g with
    | Some tz =>
        match search tzRegex tz with
        | Some _ => Some [Zone]
        | None => None
        end
    | None => Some []
    end;
  Some (dateFormat ++ timeFormat ++ tzFormat)%list.

(** The parts of a date that the tokens set: the array [_a], the weeks
    [_w], [_dayOfYear] and [_tzm]. *)
Inductive part : Type :=
| YEAR | MONTH | DATE | HOUR | MINUTE | SECOND | MILLISECOND
| WeekYear | Week | WeekDay | DayOfYear | Tzm.

#[global] Instance part_eq_dec : EqDecision part.
Proof. solve_decision. Defined.

Definition config : Type := part -> option Z.

Definition set (p : part) (v : Z) (c : config) : config :=
  fun q => if bool_decide (q = p) then Some v else c q.

(** [getParseRegexForToken], outside the strict mode. *)
Definition parseRegex (t : token) : Regex.t :=
  match t with
  | YYYYYY => seq [Opt sign; digit; upto 5 digit]
  | YYYY | GGGG => Cat digit (upto 3 digit)
  | DDD => Cat digit (upto 2 digit)
  | MM | DD | WW | E | HH | mm | ss => Cat digit (upto 1 digit)
  | SSSS => Cat digit (Many is_digit)
  | Zone =>
      Alt (One (fun c => Ascii.eqb c "Z" || Ascii.eqb c "z")) offsetRegex
  | Lit c => chr c
  end.

(** [toInt] on the text of a token: digits, after a sign for a year of
    six digits. *)
Definition toInt (s : string) : Z :=
  let '(negative, d) := Double.signed s in
  if negative then - number_of 10 0 d else number_of 10 0 d.

(** [toInt(('0.' + input) * 1000)]. *)
Definition parseMs (input : string) : Z :=
  default 0 (Double.integer (Double.thousand (Double.ofString ("0." ++ input)))).

(** [offsetFromString]: the minutes of [Z] or of an offset. *)
Definition offsetFromString (input : string) : Z :=
  match input with
  | String s (String h1 (String h0 r)) =>
      let r := match r with String ":" r => r | _ => r end in
      let minutes := number_of 10 0 (String h1 (String h0 EmptyString)) * 60
                     + number_of 10 0 r in
      if Ascii.eqb s "+" then minutes else - minutes
  | _ => 0
  end.

(** What a token does with the text it was read from. *)
Definition addTimeToArrayFromToken (t : token) (input : string) (c : config)
  : config :=
  match t with
  | YYYYYY => set YEAR (toInt input) c
  | YYYY =>
      set YEAR (if Nat.eqb (String.length input) 2
                then toInt input + (if 68 <? toInt input then 1900 else 2000)
                else toInt input) c
  | MM => set MONTH (toInt input - 1) c
  | DD => set DATE (toInt input) c
  | DDD => set DayOfYear (toInt input) c
  | GGGG => set WeekYear (toInt input) c
  | WW => set Week (toInt input) c
  | E => set WeekDay (toInt input) c
  | HH => set HOUR (toInt input) c
  | mm => set MINUTE (toInt input) c
  | ss => set SECOND (toInt input) c
  | SSSS => set MILLISECOND (parseMs input) c
  | Zone => set Tzm (offsetFromString input) c
  | Lit _ => c
  end.

(** The loop of [configFromStringAndFormat]: each token is looked for in
    what is left of the string, and what precedes it is skipped. *)
Fixpoint tokens (f : list token) (s : string) (c : config) : config :=
  match f with
  | [] => c
  | t :: f =>
      match search (parseRegex t) s with
      | Some (input, s) => tokens f s (addTimeToArrayFromToken t input c)
      | None => tokens f s c
      end
  end.

(** [Date.UTC] and the constructor [Date] on the parts of a date and a
    time, the month counted from zero, [offset] being 0 or the minutes
    of the local zone; then what [createUTCDate] and [createDate] do
    for the years 0 to 99, which these take for 1900 to 1999: they set
    the year again, in a date that was made in the other year. *)
Definition daysOf (y m d : Z) : Z := makeDay (y + m / 12) (m mod 12 + 1) d.

Definition timeClip (offset t : Z) : option Z :=
  let u := t - offset * 60000 in if inRange u then Some u else None.

Definition shortYear (y : Z) : bool := (0 <=? y) && (y <? 100).

Definition createDate (offset y m d h mi s ms : Z) : option Z :=
  let t := daysOf (if shortYear y then y + 1900 else y) m d * msPerDay
           + makeTime h mi s ms in
  if shortYear y then
    _ ← timeClip offset t;
    let '(_, month, date) := civilFromDays (t / msPerDay) in
    timeClip offset (makeDay y month date * msPerDay + t mod msPerDay)
  else timeClip offset t.

(** [daysInMonth(year, month)], which is not a number when the end of
    the month is no date; [daysInYear]; the day of the week. *)
Definition daysInMonthOf (y m : Z) : option Z :=
  t ← timeClip 0 (daysOf (if shortYear y then y + 1900 else y) (m + 1) 0
                  * msPerDay);
  Some (snd (civilFromDays (t / msPerDay))).

Definition daysInYear (y : Z) : Z := if isLeap y then 366 else 365.

Definition firstWeekOffset (y : Z) : Z :=
  3 - (7 + (4 + makeDay y 1 4) mod 7 - 1) mod 7.

Definition weeksInYear (y : Z) : Z :=
  (daysInYear y - firstWeekOffset y + firstWeekOffset (y + 1)) / 7.

(** [dayOfYearFromWeeks], for the weeks of ISO-8601. *)
Definition dayOfYearFromWeeks (y week weekday : Z) : Z * Z :=
  let dayOfYear := 1 + 7 * (week - 1) + (7 + weekday - 1) mod 7
                   + firstWeekOffset y in
  if dayOfYear <=? 0 then (y - 1, daysInYear (y - 1) + dayOfYear)
  else if daysInYear y <? dayOfYear then (y + 1, dayOfYear - daysInYear y)
  else (y, dayOfYear).

(** [configFromArray] and [checkOverflow], [None] for a date that is
    not valid. The year is always read, in a week date as the year of
    the week: the current date is called for only once a week or a day
    of the week is found out of range, and the date is then not valid
    whatever it is. *)
Definition configFromArray (utcOffset : Z) (c : config) : option Z :=
  let weeks : option (option Z * option Z) :=
    match c WeekYear, c DATE, c MONTH with
    | Some weekYear, None, None =>
        let week := default 1 (c Week) in
        let weekday := default 1 (c WeekDay) in
        if (week <? 1) || (weeksInYear weekYear <? week) then None
        else if (weekday <? 1) || (7 <? weekday) then None
        else
          let '(y, d) := dayOfYearFromWeeks weekYear week weekday in
          Some (Some y, Some d)
    | _, _, _ => Some (c YEAR, c DayOfYear)
    end in
  '(year, dayOfYear) ← weeks;
  y ← year;
  '(month, date, overflowDayOfYear) ←
    match dayOfYear with
    | Some d =>
        if d =? 0 then Some (c MONTH, c DATE, false)
        else
          t ← createDate 0 y 0 d 0 0 0 0;
          let '(_, month, date) := civilFromDays (t / msPerDay) in
          Some (Some (month - 1), Some date, daysInYear y <? d)
    | None => Some (c MONTH, c DATE, false)
    end;
  let month := default 0 month in
  let date := default 1 date in
  let hour := default 0 (c HOUR) in
  let minute := default 0 (c MINUTE) in
  let second := default 0 (c SECOND) in
  let millisecond := default 0 (c MILLISECOND) in
  t ← createDate (match c Tzm with Some _ => 0 | None => utcOffset end)
        y month date hour minute second millisecond;
  t ← timeClip (default 0 (c Tzm)) t;
  let overflow :=
    overflowDayOfYear
    || (month <? 0) || (11 <? month) || (date <? 1)
    || match daysInMonthOf y month with
       | Some n => n <? date
       | None => false
       end
    || (hour <? 0) || (24 <? hour)
    || ((hour =? 24)
        && negb ((minute =? 0) && (second =? 0) && (millisecond =? 0)))
    || (minute <? 0) || (59 <? minute)
    || (second <? 0) || (59 <? second)
    || (millisecond <? 0) || (999 <? millisecond) in
  if overflow then None else Some t.

(** [new Date(s)], to which moment hands a string it makes nothing of.
    ECMAScript says what the constructor reads in the format of its
    own, [YYYY-MM-DDTHH:mm:ss.sssZ] and what it allows to leave out (a
    date without a time is in universal time, a time without a zone in
    local time), and leaves every other string to the engine: such a
    string is taken as unreadable. A string in this format that has a
    day is a date for moment, and does not come here. *)
Definition dateTimeRegex : Regex.t :=
  seq [Group 1 (Alt (Cat sign (times 6 digit)) (times 4 digit));
       Opt (seq [chr "-"; Group 2 (times 2 digit)]);
       Opt (seq [chr "T"; Group 3 (times 2 digit);
                 chr ":"; Group 4 (times 2 digit);
                 Opt (seq [chr ":"; Group 5 (times 2 digit);
                           Opt (seq [chr "."; Group 6 (times 3 digit)])]);
                 Opt (Group 7 (Alt (chr "Z")
                                 (seq [sign; times 2 digit; chr ":";
                                       times 2 digit])))])].

Definition nativeDate (utcOffset : Z) (s : string) : option Z :=
  '(_, rest, g) ← here dateTimeRegex s;
  year ← group 1 g;
  let part (n : nat) (d : Z) := default d (toInt <$> group n g) in
  let month := part 2%nat 1 in
  let hour := part 3%nat 0 in
  let minute := part 4%nat 0 in
  let second := part 5%nat 0 in
  offset ←
    match group 3 g, group 7 g with
    | None, _ => Some 0
    | Some _, None => Some utcOffset
    | Some _, Some z =>
        if (toInt (substring 1 2 z) <? 24) && (toInt (substring 4 2 z) <? 60)
        then Some (offsetFromString z) else None
    end;
  if String.eqb rest "" && negb (String.eqb year "-000000")
     && (1 <=? month) && (month <=? 12)
     && ((hour <? 24)
         || ((hour =? 24) && (minute =? 0) && (second =? 0)
             && (part 6%nat 0 =? 0)))
     && (minute <? 60) && (second <? 60)
  then
    timeClip offset (makeDay (toInt year) month 1 * msPerDay
                     + makeTime hour minute second (part 6%nat 0))
  else None.

(** [moment(s)], [None] for an invalid date. *)
Definition parse (utcOffset : Z) (s : string) : option Z :=
  if String.eqb s "" then None
  else
    match here aspNetJsonRegex s with
    | Some (_, _, g) =>
        n ← group 1 g ≫= (fun n => Double.integer (Double.ofString n));
        timeClip 0 n
    | None =>
        match isoFormat s with
        | Some f => configFromArray utcOffset (tokens f s (fun _ => None))
        | None => nativeDate utcOffset s
        end
    end.


(** [m.unix()] and [moment.unix(s)]. *)
Definition unix (ms : Z) : Z := ms / 1000.
Definition ofUnix (s : Z) : Z := s * 1000.

End Moment.

(** ** The field codec (specification, section 4.1) *)

(** [moment(t).unix()], as the rewriting script computes it; an invalid
    date has no seconds, [NaN]. *)
Definition encodeTimestamp (utcOffset : Z) (t : string) : option Z :=
  Moment.unix <$> Moment.parse utcOffset t.

(** [moment.unix(ts).toISOString()], as [convertItem] computes it, on an
    integer; there is no text for an invalid date. *)
Definition decodeTimestamp (ts : Z) : option string :=
  Moment.toISOString (Moment.ofUnix ts).





(** [new Buffer(etag).toString('base64')], as [convertItem] and
    [replaceItem] compute it. *)
Definition encodeVersion (etag : string) : string := Base64.encode etag.


(** ** JavaScript values, objects and references

    Numbers are the integers. [VOther] stands for every value the
    development keeps opaque: a fractional number, an array, a nested
    object, and what a library yields outside the domain it is modelled on.
    Such a value is never equal to a string or a boolean, which is all the
    handlers compare values with. An object can have a property that
    hides a method of [Object.prototype]: of these methods the handlers
    call [hasOwnProperty] only, see [callHasOwnProperty]. *)

Inductive value : Type :=
| VUndefined
| VNull
| VBool (b : bool)
| VNum (n : Z)
| VStr (s : string)
| VOther.

#[global] Instance value_eq_dec : EqDecision value.
Proof. solve_decision. Defined.

Abbreviation obj := (gmap string value).
Abbreviation loc := positive.

(** [o.k], [o.hasOwnProperty(k)] and [a === b]. *)
Definition get (o : obj) (k : string) : value := default VUndefined (o !! k).
Definition hasOwnProperty (o : obj) (k : string) : bool :=
  bool_decide (is_Some (o !! k)).
Definition strict_equal (a b : value) : bool := bool_decide (a = b).

(** ** Completions, the world and the monad of handlers *)

Inductive exn : Type :=
| Error (message : string)
| TypeError (message : string)
| SyntaxError (message : string)
| StoreError (code : Z) (body : string).

(** [Unmodelled]: a library was applied outside the domain it is modelled
    on; the development says nothing of what follows. *)
Inductive completion (A : Type) : Type :=
| Normal (a : A)
| Throw (e : exn)
| Unmodelled.

Arguments Normal {A} a.
Arguments Throw {A} e.
Arguments Unmodelled {A}.

(** What [res.json] is given: an object, serialized as it is at the call,
    or the translation of a store error, which is kept symbolic. *)
Inductive body : Type :=
| Json (o : obj)
| ErrorJson (raw : string)
| QueryJson (filter select : value).

Inductive event : Type :=
| Sent (status : value) (b : body)
| CreateDocument (doc : obj)
| FetchDocument (id : value)
| ReplaceDocument (link : value) (doc : obj)
| FromOData (table : string) (filter select : value)
| UnhandledRejection (e : exn).

Record world : Type := World {
  heap : gmap positive (gmap string value);
  collection : list (gmap string value);
  clock : Z;
  writes : Z;
  status : value;
  trace : list event
}.

Definition M (A : Type) : Type := world -> completion A * world.

Definition ret {A} (a : A) : M A := fun w => (Normal a, w).

Definition bind {A B} (m : M A) (k : A -> M B) : M B :=
  fun w =>
    match m w with
    | (Normal a, w') => k a w'
    | (Throw e, w') => (Throw e, w')
    | (Unmodelled, w') => (Unmodelled, w')
    end.

Notation "x <- m ;; k" := (bind m (fun x => k))
  (at level 100, m at next level, right associativity).
Notation "m ;;; k" := (bind m (fun _ => k))
  (at level 100, right associativity).

Definition throw {A} (e : exn) : M A := fun w => (Throw e, w).
Definition unmodelled {A} : M A := fun w => (Unmodelled, w).

Definition lift {A} (c : completion A) : M A := fun w => (c, w).

(** [p.catch(h)]. *)
Definition catch {A} (m : M A) (h : exn -> M A) : M A :=
  fun w =>
    match m w with
    | (Throw e, w') => h e w'
    | r => r
    end.

Definition log (e : event) (w : world) : world :=
  World (heap w) (collection w) (clock w) (writes w) (status w)
    (trace w ++ [e])%list.

Definition emit (e : event) : M unit := fun w => (Normal tt, log e w).

(** A promise chain that nothing awaits: its rejection is reported by the
    runtime and reaches no handler. *)
Definition detached (m : M unit) : M unit :=
  catch m (fun e => emit (UnhandledRejection e)).

(** *** The heap *)

Definition set_heap (h : gmap positive (gmap string value)) (w : world) : world :=
  World h (collection w) (clock w) (writes w) (status w) (trace w).

Definition put (l : loc) (o : obj) (w : world) : world :=
  set_heap (<[l := o]> (heap w)) w.

Definition alloc (o : obj) : M loc :=
  fun w =>
    let l := fresh (dom (heap w)) in
    (Normal l, put l o w).

(** A reference held by running code always designates an object. *)
Definition deref (l : loc) : M obj :=
  fun w =>
    match heap w !! l with
    | Some o => (Normal o, w)
    | None => (Unmodelled, w)
    end.

Definition update (l : loc) (f : obj -> obj) : M unit :=
  fun w =>
    match heap w !! l with
    | Some o => (Normal tt, put l (f o) w)
    | None => (Unmodelled, w)
    end.

(** [l.k], [l.hasOwnProperty(k)], [l.k = v] and [delete l.k]. *)
Definition getProp (l : loc) (k : string) : M value :=
  o <- deref l ;; ret (get o k).
Definition hasOwn (l : loc) (k : string) : M bool :=
  o <- deref l ;; ret (hasOwnProperty o k).

(** [l.hasOwnProperty(k)] on the body of a request. The method is the
    one of [Object.prototype], [hasOwn], unless the object has a property
    of that name itself: in an object read from JSON such a property is
    no function, and the call fails. *)
Definition callHasOwnProperty (l : loc) (k : string) : M bool :=
  o <- deref l ;;
  if hasOwnProperty o "hasOwnProperty"
  then throw (TypeError "item.hasOwnProperty is not a function")
  else ret (hasOwnProperty o k).
Definition setProp (l : loc) (k : string) (v : value) : M unit :=
  update l (insert k v).
Definition deleteProp (l : loc) (k : string) : M unit :=
  update l (delete k).

(** *** The response *)

Definition set_status (v : value) (w : world) : world :=
  World (heap w) (collection w) (clock w) (writes w) v (trace w).

Definition res_status (v : value) : M unit :=
  fun w => (Normal tt, set_status v w).

Definition res_json (b : body) : M unit :=
  fun w => emit (Sent (status w) b) w.

(** ** The library calls on values *)

(** [new Date(v * 1000)], the date that [moment.unix(v)] holds: its
    time, when it has one. The product converts [v] to a number first:
    [undefined] is not a number, [null] and [false] are zero, [true] is
    one, and a string is the number it writes. The product of an integer
    is exact whenever it is in the range of a date. *)
Definition unixTime (v : value) : option Z :=
  match v with
  | VUndefined | VOther => None
  | VNull => Some 0
  | VBool b => Some (if b then 1000 else 0)
  | VNum n => Moment.timeClip 0 (Moment.ofUnix n)
  | VStr s =>
      Double.integer (Double.thousand (Double.ofString s))
      ≫= Moment.timeClip 0
  end.

(** [moment.unix(v).toISOString()]: the text of the date, and
    [Invalid date] for a date that has no time. What an opaque value
    gives is not determined. *)
Definition momentUnixToISOString (v : value) : value :=
  match v with
  | VOther => VOther
  | _ => VStr (default "Invalid date" (unixTime v ≫= Moment.toISOString))
  end.

(** [moment().toISOString()]. *)
Definition momentNowToISOString : M value :=
  fun w =>
    (Normal (match Moment.toISOString (clock w) with
             | Some s => VStr s
             | None => VOther
             end), w).

(** [new Buffer(v).toString('base64')]: a string is encoded; [undefined],
    [null] and the booleans are refused by the constructor; a number asks
    for a buffer of that size, whose content is not determined. *)
Definition bufferToBase64 (v : value) : completion value :=
  match v with
  | VStr s => Normal (VStr (encodeVersion s))
  | VUndefined | VNull | VBool _ =>
      Throw (TypeError "must start with number, buffer, array or string")
  | VNum _ | VOther => Unmodelled
  end.

(** ** The document collection ([src/docdb-driver/document.js])

    The handlers reach the store through the promisified operations of
    [document.js]; the driver index that is at hand exports
    [createDocument] only, and [fetchDocument] and [replaceDocument] are
    taken to be exported the same way. The collection is the list of its
    documents; every
    write stamps the document with the system properties: [_rid], [_self]
    and [_attachments], which identify it, a new [_etag] and the time of
    the write in [_ts]. What is fetched or returned is a new object. *)

Definition lookupBy (k : string) (v : value) (c : list obj) : option obj :=
  match v with
  | VStr _ => find (fun d => bool_decide (d !! k = Some v)) c
  | _ => None
  end.

Definition copyProp (k : string) (from to : obj) : obj :=
  match from !! k with
  | Some v => <[k := v]> to
  | None => delete k to
  end.

Definition stamp (w : world) (o : obj) : obj :=
  <["_ts" := VNum (Moment.unix (clock w))]>
    (<["_etag" := VStr ("etag-" ++ number_to_string (writes w))]> o).

Definition set_collection (c : list obj) (w : world) : world :=
  World (heap w) c (clock w) (writes w + 1) (status w) (trace w).

(** [fetchDocument]: the first result of
    [SELECT * FROM root r WHERE r.id=@id], or [undefined]. *)
Definition fetchDocument (id : value) : M (option loc) :=
  emit (FetchDocument id) ;;;
  fun w =>
    match lookupBy "id" id (collection w) with
    | Some d => (l <- alloc d ;; ret (Some l)) w
    | None => (Normal None, w)
    end.

Fixpoint replaceBy (k : string) (v : value) (new : obj) (c : list obj)
  : list obj :=
  match c with
  | [] => []
  | d :: r =>
      if bool_decide (d !! k = Some v) then new :: r
      else d :: replaceBy k v new r
  end%list.

(** [replaceDocument]: the document that [docLink] designates becomes
    [docObject], stamped. A link that is not a string designates nothing:
    the client fails when it splits it. *)
Definition replaceDocument (docLink : value) (docObject : loc) : M loc :=
  o <- deref docObject ;;
  emit (ReplaceDocument docLink o) ;;;
  fun w =>
    match docLink with
    | VStr _ =>
        match lookupBy "_self" docLink (collection w) with
        | Some old =>
            let new :=
              stamp w (copyProp "_rid" old
                         (copyProp "_self" old
                            (copyProp "_attachments" old o))) in
            alloc new
              (set_collection (replaceBy "_self" docLink new (collection w)) w)
        | None => (Throw (StoreError 404 "NotFound"), w)
        end
    | _ => (Throw (TypeError "Cannot read property 'split' of undefined"), w)
    end.

(** [createDocument]: a document without [id] is given one; an [id] that
    is taken is a conflict. *)
Definition createDocument (docObject : loc) : M loc :=
  o <- deref docObject ;;
  emit (CreateDocument o) ;;;
  fun w =>
    let n := number_to_string (writes w) in
    let store (o : obj) :=
      let new :=
        stamp w (<["_rid" := VStr ("rid-" ++ n)]>
                   (<["_self" := VStr ("dbs/AzureMobile/colls/todoitem/docs/" ++ n)]>
                      (<["_attachments" := VStr "attachments/"]> o))) in
      alloc new (set_collection (collection w ++ [new])%list w) in
    match o !! "id" with
    | None => store (<["id" := VStr ("id-" ++ n)]> o)
    | Some (VStr s) =>
        match lookupBy "id" (VStr s) (collection w) with
        | Some _ => (Throw (StoreError 409 "Conflict"), w)
        | None => store o
        end
    | Some _ => (Throw (StoreError 400 "BadRequest"), w)
    end.

(** ** The table controller ([src/todoitem/index.js]) *)

Record request : Type := Request {
  method : string;
  params_id : value;
  headers : gmap string value;
  header : option (gmap string value);
  query : gmap string value;
  reqBody : positive
}.

(** [req.header[k]]: [req.header] is not the header table. Where the
    framework defines it, it is a function, an object with properties of
    its own; where it does not, reading a property of it fails. *)
Definition headerProp (req : request) (k : string) : M value :=
  match header req with
  | Some f => ret (get f k)
  | None => throw (TypeError "Cannot read property 'if-match' of undefined")
  end.

Definition whenOwnDelete (item : loc) (k : string) : M unit :=
  b <- hasOwn item k ;;
  if b then deleteProp item k else ret tt.

Definition convertItem (item : loc) : M loc :=
  hasTs <- hasOwn item "_ts" ;;
  (if hasTs then
     ts <- getProp item "_ts" ;;
     setProp item "updatedAt" (momentUnixToISOString ts) ;;;
     deleteProp item "_ts"
   else throw (Error "Invalid item - no _ts field")) ;;;
  hasEtag <- hasOwn item "_etag" ;;
  (if hasEtag then
     etag <- getProp item "_etag" ;;
     version <- lift (bufferToBase64 etag) ;;
     setProp item "version" version ;;;
     deleteProp item "_etag"
   else throw (Error "Invalid item - no _etag field")) ;;;
  whenOwnDelete item "_rid" ;;;
  whenOwnDelete item "_self" ;;;
  whenOwnDelete item "_attachments" ;;;
  ret item.

(** What [convertItem] does to the object it is given, and how it
    completes. *)
Definition convertObj (doc : obj) : completion unit * obj :=
  match doc !! "_ts" with
  | None => (Throw (Error "Invalid item - no _ts field"), doc)
  | Some ts =>
      let dated :=
        delete "_ts" (<["updatedAt" := momentUnixToISOString ts]> doc) in
      match doc !! "_etag" with
      | None => (Throw (Error "Invalid item - no _etag field"), dated)
      | Some etag =>
          match bufferToBase64 etag with
          | Normal version =>
              (Normal tt,
               delete "_attachments"
                 (delete "_self"
                    (delete "_rid"
                       (delete "_etag" (<["version" := version]> dated)))))
          | Throw e => (Throw e, dated)
          | Unmodelled => (Unmodelled, dated)
          end
      end
  end.


(** The store-private properties. *)
Definition metadata : list string :=
  ["_ts"; "_etag"; "_rid"; "_self"; "_attachments"]%list.

(** [convertError] is the error translator; its result on a store error is
    kept symbolic. An error that was thrown has no [body], and
    [JSON.parse(undefined)] fails. *)
Definition convertError (error : exn) : M body :=
  match error with
  | StoreError _ raw => ret (ErrorJson raw)
  | _ => throw (SyntaxError "Unexpected token u in JSON at position 0")
  end.

Definition errorCode (error : exn) : value :=
  match error with
  | StoreError code _ => VNum code
  | _ => VUndefined
  end.

(** [(error) => res.status(error.code).json(convertError(error))]. *)
Definition onError (error : exn) : M unit :=
  res_status (errorCode error) ;;;
  b <- convertError error ;;
  res_json b.

(** [res.status(s).json(convertItem(document))]. *)
Definition respondItem (s : Z) (document : loc) : M unit :=
  res_status (VNum s) ;;;
  item <- convertItem document ;;
  o <- deref item ;;
  res_json (Json o).

Definition respondError (s : Z) (message : string) : M unit :=
  res_status (VNum s) ;;;
  res_json (Json {[ "error" := VStr message ]}).

Definition getOneItem (req : request) (id : value) : M unit :=
  detached
    (catch
       (document <- fetchDocument id ;;
        match document with
        | None => respondError 404 "Not Found"
        | Some document =>
            deleted <- getProp document "deleted" ;;
            if strict_equal deleted (VBool true)
            then respondError 404 "Not Found"
            else respondItem 200 document
        end)
       onError).

(** The filter and the select list go to [OData.fromOData] as the request
    has them; the compiled query and the other arguments are not
    modelled. *)
Definition getAllItems (req : request) : M unit :=
  let filter := get (query req) "$filter" in
  let select := get (query req) "$select" in
  emit (FromOData "todoitem" filter select) ;;;
  res_status (VNum 200) ;;;
  res_json (QueryJson filter select).

(** The test [item.hasOwnProperty('deleted')] is taken as the method of
    [Object.prototype], which is what it calls unless the body has a
    property named [hasOwnProperty]. *)
Definition insertItem (req : request) : M unit :=
  let item := reqBody req in
  now <- momentNowToISOString ;;
  setProp item "createdAt" now ;;;
  deleteProp item "updatedAt" ;;;
  deleteProp item "version" ;;;
  hasDeleted <- hasOwn item "deleted" ;;
  (if hasDeleted then ret tt else setProp item "deleted" (VBool false)) ;;;
  detached
    (catch
       (document <- createDocument item ;;
        respondItem 201 document)
       onError).

Definition replaceItem (req : request) (id : value) : M unit :=
  detached
    (catch
       (document <- fetchDocument id ;;
        match document with
        | None => respondError 404 "Not Found"
        | Some document =>
            let item := reqBody req in
            etag <- getProp document "_etag" ;;
            version <- lift (bufferToBase64 etag) ;;
            itemId <- getProp item "id" ;;
            if negb (strict_equal itemId id)
            then respondError 400 "Id does not match"
            else
              failed <-
                (if hasOwnProperty (headers req) "if-match" then
                   ifMatch <- headerProp req "if-match" ;;
                   ret (negb (strict_equal ifMatch version))
                 else ret false) ;;
              if failed : bool then respondItem 412 document
              else
                hasVersion <- callHasOwnProperty item "version" ;;
                stale <-
                  (if hasVersion : bool then
                     itemVersion <- getProp item "version" ;;
                     ret (negb (strict_equal itemVersion version))
                   else ret false) ;;
                if stale : bool then respondItem 409 document
                else
                  deleteProp item "updatedAt" ;;;
                  deleteProp item "version" ;;;
                  docLink <- getProp document "_self" ;;
                  detached
                    (updatedDocument <- replaceDocument docLink item ;;
                     respondItem 200 updatedDocument)
        end)
       onError).

Definition deleteItem (req : request) (id : value) : M unit :=
  detached
    (catch
       (document <- fetchDocument id ;;
        match document with
        | None => respondError 404 "Not Found"
        | Some document =>
            item <- convertItem document ;;
            deleteProp item "updatedAt" ;;;
            deleteProp item "version" ;;;
            setProp item "deleted" (VBool true) ;;;
            docLink <- getProp document "_self" ;;
            detached
              (updatedDocument <- replaceDocument docLink item ;;
               respondItem 200 updatedDocument)
        end)
       onError).

(** [if (id)]: a path parameter is a string or is missing. *)
Definition truthy (v : value) : bool :=
  match v with
  | VStr s => negb (String.eqb s "")
  | VBool b => b
  | VNum n => negb (n =? 0)
  | VOther => true
  | VUndefined | VNull => false
  end.

Definition tableRouter (req : request) : M unit :=
  let id := params_id req in
  if String.eqb (method req) "GET" then
    if truthy id then getOneItem req id else getAllItems req
  else if String.eqb (method req) "POST" then insertItem req
  else if String.eqb (method req) "PUT" then replaceItem req id
  else if String.eqb (method req) "DELETE" then deleteItem req id
  else
    res_status (VNum 405) ;;;
    res_json (Json (<["message" :=
                        VStr ("Method " ++ method req ++ " not supported")]>
                      {[ "error" := VStr "Operation not supported" ]})).

(** ** The filter rewriting script

    The script that prototypes the query translation replaces, as long as
    the regular expression [/updatedAt [a-z]+ '[^']+'/] matches the
    filter, the text of the leftmost match by [_ts], the operator and the
    epoch seconds of the literal. *)

Definition is_lower (c : ascii) : bool :=
  let n := Z.of_N (N_of_ascii c) in (97 <=? n) && (n <=? 122).

Definition not_quote (c : ascii) : bool := negb (Ascii.eqb c "'").

Fixpoint strip_prefix (p s : string) : option string :=
  match p with
  | EmptyString => Some s
  | String c p' =>
      match s with
      | String x r => if Ascii.eqb x c then strip_prefix p' r else None
      | EmptyString => None
      end
  end.

(** A match of the expression at the front of [s]: the operator and the
    literal. Both repetitions are followed by a character they exclude, so
    the longest run is the only one that can match. *)
Definition match_here (s : string) : option (string * string) :=
  s ← strip_prefix "updatedAt " s;
  let '(op, s) := span is_lower s in
  if String.eqb op "" then None else
  s ← strip_prefix " '" s;
  let '(lit, s) := span not_quote s in
  if String.eqb lit "" then None else
  _ ← strip_prefix "'" s;
  Some (op, lit).

Definition matched_text (op lit : string) : string :=
  "updatedAt " ++ op ++ " '" ++ lit ++ "'".

(** [re.exec(s)]: the leftmost match, as [results[0]], [results[1]] and
    [results[2]]. *)
Fixpoint exec (s : string) : option (string * string * string) :=
  match match_here s with
  | Some (op, lit) => Some (matched_text op lit, op, lit)
  | None =>
      match s with
      | String _ r => exec r
      | EmptyString => None
      end
  end.

(** [s.replace(pat, new)] for a string [pat]: the first occurrence. The
    replacement the script builds holds no [$]. *)
Fixpoint replace (pat new s : string) : string :=
  match strip_prefix pat s with
  | Some rest => new ++ rest
  | None =>
      match s with
      | String c r => String c (replace pat new r)
      | EmptyString => EmptyString
      end
  end.

(** [`${moment(lit).unix()}`]. *)
Definition newDate (utcOffset : Z) (lit : string) : string :=
  match encodeTimestamp utcOffset lit with
  | Some n => number_to_string n
  | None => "NaN"
  end.

Definition newString (utcOffset : Z) (op lit : string) : string :=
  "_ts " ++ op ++ " " ++ newDate utcOffset lit.

Fixpoint rewriteLoop (fuel : nat) (utcOffset : Z) (filter : string)
  : option string :=
  match exec filter with
  | None => Some filter
  | Some (whole, op, lit) =>
      match fuel with
      | O => None
      | S k =>
          rewriteLoop k utcOffset
            (replace whole (newString utcOffset op lit) filter)
      end
  end.

(** The script rewrites the filter when it is not empty; on the empty
    filter the loop does nothing. Every turn of the loop removes a capital
    [A] from the filter, so its length bounds the number of turns. *)
Definition rewriteFilter (utcOffset : Z) (filter : string) : option string :=
  rewriteLoop (String.length filter) utcOffset filter.

(** The occurrences of a character in a string. *)
Fixpoint count (c : ascii) (s : string) : nat :=
  match s with
  | String x r => (if Ascii.eqb x c then 1 else 0) + count c r
  | EmptyString => 0
  end%nat.

(** A filter made of clauses on [updatedAt]: each clause has an operator
    and a literal and comes after some text; a last text ends the
    filter. And what the rewriting is to make of it. *)
Fixpoint filterOf (clauses : list (string * string * string)) (last : string)
  : string :=
  match clauses with
  | [] => last
  | (before, op, lit) :: r =>
      before ++ matched_text op lit ++ filterOf r last
  end.

Fixpoint rewrittenOf (utcOffset : Z)
    (clauses : list (string * string * string)) (last : string) : string :=
  match clauses with
  | [] => last
  | (before, op, lit) :: r =>
      before ++ newString utcOffset op lit ++ rewrittenOf utcOffset r last
  end.

Fixpoint all (p : ascii -> bool) (s : string) : bool :=
  match s with
  | String c r => p c && all p r
  | EmptyString => true
  end.

(** A text without a capital [A] holds no [updatedAt]; a clause is well
    formed when its operator is made of small letters, its literal holds
    no quote, neither is empty, and the text before it is plain. *)
Definition plain (s : string) : Prop := count "A" s = 0%nat.

Definition clauseOk (clause : string * string * string) : Prop :=
  let '(before, op, lit) := clause in
  plain before
  /\ op <> "" /\ all is_lower op = true
  /\ lit <> "" /\ all not_quote lit = true.

(** *** The select list

    [select.replace(/updatedAt/g, '_ts')]: every occurrence of the
    pattern, from the left, none overlapping another. [skip] counts the
    characters of an occurrence that are still to pass. *)

Fixpoint replaceAll (pat new : string) (skip : nat) (s : string) : string :=
  match s with
  | EmptyString => EmptyString
  | String c r =>
      match skip with
      | S k => replaceAll pat new k r
      | O =>
          match strip_prefix pat s with
          | Some _ => new ++ replaceAll pat new (String.length pat - 1) r
          | None => String c (replaceAll pat new 0 r)
          end
      end
  end.

Definition rewriteSelect (select : string) : string :=
  replaceAll "updatedAt" "_ts" 0 select.

(** [occurs pat s]: the text [pat] is found in [s]. *)
Fixpoint occurs (pat s : string) : bool :=
  match strip_prefix pat s with
  | Some _ => true
  | None =>
      match s with
      | String _ r => occurs pat r
      | EmptyString => false
      end
  end.

(** What the script is to make of the fields of a select list. *)
Definition selected (field : string) : string :=
  if String.eqb field "updatedAt" then "_ts" else field.



(** ** What a computation may add to the trace

    [appends P Q m]: whatever the world, [m] leaves the trace it found
    and adds to it events that satisfy [P] only, and an exception it
    throws satisfies [Q]. *)

Definition appends {A} (P : event -> Prop) (Q : exn -> Prop) (m : M A)
  : Prop :=
  forall w,
    (exists evs, trace (snd (m w)) = (trace w ++ evs)%list /\ Forall P evs)
    /\ (forall e, fst (m w) = Throw e -> Q e).

(** The errors that JavaScript code throws, as opposed to those the store
    reports. *)
Definition thrown (e : exn) : Prop :=
  match e with
  | StoreError _ _ => False
  | _ => True
  end.

(** The response of the handlers to a request for a document that the
    collection does not hold, and the events that are not a 404. *)
Definition notFound : event :=
  Sent (VNum 404) (Json {[ "error" := VStr "Not Found" ]}).

Definition not404 (e : event) : Prop := forall b, e <> Sent (VNum 404) b.

(** ** Responses and store calls in a trace

    [responses evs] counts the responses among the events [evs].
    [answers m]: whatever the world, [m] sends at most one response, and
    once it has sent one it throws nothing. [reading m]: [m] leaves the
    document collection as it found it. *)

Definition isSent (e : event) : bool :=
  match e with
  | Sent _ _ => true
  | _ => false
  end.

Fixpoint responses (evs : list event) : nat :=
  match evs with
  | [] => 0
  | e :: r => (if isSent e then 1 else 0) + responses r
  end%nat%list.

Definition quiet (e : event) : Prop := isSent e = false.

Definition answers {A} (m : M A) : Prop :=
  forall w,
    exists evs,
      trace (snd (m w)) = (trace w ++ evs)%list
      /\ (responses evs = 0%nat
          \/ (responses evs = 1%nat /\ forall e, fst (m w) <> Throw e)).

Definition isWrite (e : event) : bool :=
  match e with
  | CreateDocument _ | ReplaceDocument _ _ => true
  | _ => false
  end.

Definition reading {A} (m : M A) : Prop :=
  forall w,
    collection (snd (m w)) = collection w
    /\ writes (snd (m w)) = writes w.

(** What is left in the trace of a request whose handler fails on an
    error of its own: the error has no [code] and no [body], translating
    it fails, and no response is sent. *)
Definition silence (id : value) : list event :=
  [FetchDocument id;
   UnhandledRejection
     (SyntaxError "Unexpected token u in JSON at position 0")]%list.

(** The object that [insertItem] makes of the request body before it
    hands it to the store, at the time [clock]. *)
Definition inserted (clock : Z) (body : obj) : obj :=
  let now :=
    match Moment.toISOString clock with
    | Some s => VStr s
    | None => VOther
    end in
  let dated :=
    delete "version" (delete "updatedAt" (<["createdAt" := now]> body)) in
  if hasOwnProperty body "deleted" then dated
  else <["deleted" := VBool false]> dated.

(** The properties of an item that are not simply those of the body it
    was inserted with. *)
Definition serverOwned : list string :=
  ("createdAt" :: "updatedAt" :: "version" :: "deleted" :: metadata)%list.

(** ** The settings of the controller

    The module reads its settings when it is loaded: from the file
    [settings.local.json] when there is one (it then holds an object),
    from the connection string of the environment variable [DocumentDb],
    and from the variables [DocumentDbHost] and [DocumentDbAccountKey].
    The environment maps names to strings. *)

(** [s.split(sep)] for a separator of one character. *)
Fixpoint splitOn (sep : ascii) (s : string) : list string :=
  match s with
  | EmptyString => [EmptyString]
  | String c r =>
      if Ascii.eqb c sep then EmptyString :: splitOn sep r
      else
        match splitOn sep r with
        | h :: t => String c h :: t
        | [] => [String c EmptyString]
        end
  end%list.

(** [a[i]] for an array of strings. *)
Definition elementAt (a : list string) (i : nat) : value :=
  match nth_error a i with
  | Some s => VStr s
  | None => VUndefined
  end.

(** The body of the loop over the parts of the connection string. *)
Definition connectionPart (defaultSettings : obj) (t : string) : obj :=
  let tt := splitOn "=" t in
  let defaultSettings :=
    if strict_equal (elementAt tt 0) (VStr "AccountEndpoint")
    then <["host" := elementAt tt 1]> defaultSettings
    else defaultSettings in
  if strict_equal (elementAt tt 0) (VStr "AccountKey")
  then <["accountKey" := elementAt tt 1]> defaultSettings
  else defaultSettings.

Definition defaultSettings (file : option obj) (env : gmap string string)
  : obj :=
  let defaults :=
    match file with
    | Some o => o
    | None => <["accountKey" := VNull]> {[ "host" := VNull ]}
    end in
  match env !! "DocumentDb" with
  | Some connection =>
      fold_left connectionPart (splitOn ";" connection) defaults
  | None => defaults
  end.

(** [process.env[k] || v]: the empty string is as good as no string. *)
Definition envOr (env : gmap string string) (k : string) (v : value)
  : value :=
  match env !! k with
  | Some s => if String.eqb s "" then v else VStr s
  | None => v
  end.

(** The settings object. *)
Module Settings.
Record t : Type := Make {
  host : value;
  accountKey : value;
  database : string;
  connectionPolicy : value;
  consistencyLevel : string;
  pricingTier : string;
  table : string
}.
End Settings.

Definition settings (file : option obj) (env : gmap string string)
  : Settings.t :=
  let defaults := defaultSettings file env in
  {| Settings.host := envOr env "DocumentDbHost" (get defaults "host");
     Settings.accountKey :=
       envOr env "DocumentDbAccountKey" (get defaults "accountKey");
     Settings.database := "AzureMobile";
     Settings.connectionPolicy := VUndefined;
     Settings.consistencyLevel := "Session";
     Settings.pricingTier := "S1";
     Settings.table := "todoitem" |}.

(** The characters that are not the one that ends a part of the
    connection string, and those that are not the one that ends a name. *)
Definition not_semicolon (c : ascii) : bool := negb (Ascii.eqb c ";").
Definition not_equals (c : ascii) : bool := negb (Ascii.eqb c "=").

(** ** The driver ([src/docdb-driver/index.js])

    [ensureDatabaseExists] keeps the databases it has resolved in
    [dbCache], an object of the module that nothing else can reach. The
    two operations of [database.js] it calls are not at hand: they are
    parameters, which act on the state of the server and resolve or
    reject; [findDatabaseById] resolves to a database, or to [null] or
    [undefined] when there is none. Calls are taken one after the other. *)

(** The properties every object inherits: [k in o] holds of them, and
    [o[k]] is then a value of [Object.prototype]. *)
Definition objectPrototype : list string :=
  ["constructor"; "hasOwnProperty"; "isPrototypeOf"; "propertyIsEnumerable";
   "toLocaleString"; "toString"; "valueOf"; "__proto__";
   "__defineGetter__"; "__defineSetter__"; "__lookupGetter__";
   "__lookupSetter__"]%list.

(** What [dbCache[database]] can be. *)
Inductive resolved (Database : Type) : Type :=
| Own (d : Database)
| Inherited (name : string).

Arguments Own {Database} d.
Arguments Inherited {Database} name.

Section driver.
Context {Client Database Server : Type}.
Variable findDatabaseById :
  Client -> string -> Server -> completion (option Database) * Server.
Variable createDatabase :
  Client -> string -> Server -> completion Database * Server.

Definition ensureDatabaseExists (client : Client) (database : string)
    (state : gmap string Database * Server)
  : completion (resolved Database) * (gmap string Database * Server) :=
  let '(dbCache, server) := state in
  match dbCache !! database with
  | Some d => (Normal (Own d), state)
  | None =>
      if bool_decide (database ∈ objectPrototype)
      then (Normal (Inherited database), state)
      else
        match findDatabaseById client database server with
        | (Normal None, server) =>
            match createDatabase client database server with
            | (Normal result, server) =>
                (Normal (Own result), (<[database := result]> dbCache, server))
            | (Throw e, server) => (Throw e, (dbCache, server))
            | (Unmodelled, server) => (Unmodelled, (dbCache, server))
            end
        | (Normal (Some dbRef), server) =>
            (Normal (Own dbRef), (<[database := dbRef]> dbCache, server))
        | (Throw e, server) => (Throw e, (dbCache, server))
        | (Unmodelled, server) => (Unmodelled, (dbCache, server))
        end
  end.

End driver.

(** A server to run the driver against: it holds the names of its
    databases, finds a database by its name and creates the ones it is
    asked for. *)
Definition serverFind (client : unit) (database : string) (server : list string)
  : completion (option string) * list string :=
  (Normal (if bool_decide (database ∈ server) then Some database else None),
   server).

Definition serverCreate (client : unit) (database : string)
    (server : list string) : completion string * list string :=
  (Normal database, (database :: server)%list).

(** ** Initialization ([initialize])

    Before it serves a request, the controller makes a client, resolves
    the database and looks for the collection of the table among those
    of the database, which it creates when it is not there. What it
    learns it keeps in [refs], and it reports its progress through
    [context.log]. The operations of [collection.js] are parameters, as
    those of [database.js] are; the lines it logs are kept apart from the
    text that frames them. *)

Inductive line (Collection : Type) : Type :=
| AlreadyInitialized
| CreatingClient (host accountKey : value)
| EnsuringDatabase (database : string)
| InitializedDatabase (database : string)
| FoundCollections (length : nat)
| CollectionIs (collection : option Collection)
| CreatingCollection (table : string)
| FoundCollection
| FinishedInitializing.

Arguments AlreadyInitialized {Collection}.
Arguments CreatingClient {Collection} host accountKey.
Arguments EnsuringDatabase {Collection} database.
Arguments InitializedDatabase {Collection} database.
Arguments FoundCollections {Collection} length.
Arguments CollectionIs {Collection} collection.
Arguments CreatingCollection {Collection} table.
Arguments FoundCollection {Collection}.
Arguments FinishedInitializing {Collection}.

Module Refs.
Record t (Client Database Collection : Type) : Type := Make {
  initialized : bool;
  client : option Client;
  database : option (resolved Database);
  table : option Collection
}.
Arguments Make {Client Database Collection}.
Arguments initialized {Client Database Collection}.
Arguments client {Client Database Collection}.
Arguments database {Client Database Collection}.
Arguments table {Client Database Collection}.
End Refs.

(** The state of the controller: [refs], the lines logged so far, the
    cache of the driver and the server. *)
Record controller (Client Database Collection Server : Type) : Type :=
  Controller {
    refs : Refs.t Client Database Collection;
    logged : list (line Collection);
    dbCache : gmap string Database;
    server : Server
  }.

Arguments Controller {Client Database Collection Server}.
Arguments refs {Client Database Collection Server}.
Arguments logged {Client Database Collection Server}.
Arguments dbCache {Client Database Collection Server}.
Arguments server {Client Database Collection Server}.

Section initialize.
Context {Client Database Collection Server : Type}.
Variable DocumentClient : value -> value -> value -> string -> Client.
Variable findDatabaseById :
  Client -> string -> Server -> completion (option Database) * Server.
Variable createDatabase :
  Client -> string -> Server -> completion Database * Server.
Variable listCollections :
  Client -> resolved Database -> Server
  -> completion (list Collection) * Server.
Variable createCollection :
  Client -> string -> resolved Database -> string -> Server
  -> completion Collection * Server.
Variable id : Collection -> value.

Let state : Type := controller Client Database Collection Server.

(** [context.log(l)]. *)
Definition say (l : line Collection) (st : state) : state :=
  Controller (refs st) (logged st ++ [l])%list (dbCache st) (server st).

Definition set_refs (r : Refs.t Client Database Collection) (st : state)
  : state :=
  Controller r (logged st) (dbCache st) (server st).

Definition set_server (cache : gmap string Database) (s : Server)
    (st : state) : state :=
  Controller (refs st) (logged st) cache s.

Definition initialize (settings : Settings.t) (st : state)
  : completion unit * state :=
  let st := if Refs.initialized (refs st) then say AlreadyInitialized st
            else st in
  let st := say (CreatingClient (Settings.host settings)
                   (Settings.accountKey settings)) st in
  let client :=
    DocumentClient (Settings.host settings) (Settings.accountKey settings)
      (Settings.connectionPolicy settings)
      (Settings.consistencyLevel settings) in
  let st :=
    set_refs (Refs.Make (Refs.initialized (refs st)) (Some client)
                (Refs.database (refs st)) (Refs.table (refs st))) st in
  let st := say (EnsuringDatabase (Settings.database settings)) st in
  match ensureDatabaseExists findDatabaseById createDatabase client
          (Settings.database settings) (dbCache st, server st) with
  | (Normal dbRef, (cache, s)) =>
      let st := set_server cache s st in
      let st := say (InitializedDatabase (Settings.database settings)) st in
      let st :=
        set_refs (Refs.Make (Refs.initialized (refs st))
                    (Refs.client (refs st)) (Some dbRef)
                    (Refs.table (refs st))) st in
      match listCollections client dbRef (server st) with
      | (Normal collections, s) =>
          let st := set_server (dbCache st) s st in
          let st := say (FoundCollections (length collections)) st in
          let collection :=
            find (fun c => strict_equal (id c)
                             (VStr (Settings.table settings)))
              collections in
          let st := say (CollectionIs collection) st in
          let found (collectionRef : Collection) (st : state) :=
            let st := say FoundCollection st in
            (Normal tt,
             set_refs (Refs.Make (Refs.initialized (refs st))
                         (Refs.client (refs st)) (Refs.database (refs st))
                         (Some collectionRef)) st) in
          match collection with
          | Some collection => found collection st
          | None =>
              let st := say (CreatingCollection (Settings.table settings))
                          st in
              match createCollection client (Settings.pricingTier settings)
                      dbRef (Settings.table settings) (server st) with
              | (Normal collectionRef, s) =>
                  found collectionRef (set_server (dbCache st) s st)
              | (Throw e, s) => (Throw e, set_server (dbCache st) s st)
              | (Unmodelled, s) =>
                  (Unmodelled, set_server (dbCache st) s st)
              end
          end
      | (Throw e, s) => (Throw e, set_server (dbCache st) s st)
      | (Unmodelled, s) => (Unmodelled, set_server (dbCache st) s st)
      end
  | (Throw e, (cache, s)) => (Throw e, set_server cache s st)
  | (Unmodelled, (cache, s)) => (Unmodelled, set_server cache s st)
  end.

End initialize.

(** For the server of the driver above: there is one client, a
    collection is its name, the database has the collections of one
    table of another application, and a collection that is asked for is
    created. *)
Definition serverClient (host accountKey connectionPolicy : value)
    (consistencyLevel : string) : unit := tt.

Definition serverList (client : unit) (database : resolved string)
    (server : list string) : completion (list string) * list string :=
  (Normal ["orders"]%list, server).

Definition serverCreateCollection (client : unit) (pricingTier : string)
    (database : resolved string) (table : string) (server : list string)
  : completion string * list string :=
  (Normal table, server).

(** A database that lists the collection of the table twice, among
    others: a collection is its name and its place in the list. *)
Definition serverListTwice (client : unit) (database : resolved string)
    (server : list string)
  : completion (list (string * Z)) * list string :=
  (Normal [("orders", 0); ("todoitem", 1); ("todoitem", 2)]%list, server).

(** The controller before its first request. *)
Definition cold : controller unit string string (list string) :=
  Controller (Refs.Make false None None None) [] ∅ [].

(** ** The translation of store errors ([convertError])

    The handlers above keep the translation of a store error symbolic.
    This is the translation itself. The body of a store error is a JSON
    text; its [message], in the format of the store, has two lines: the
    word [Message:] and a JSON text that holds the [Errors], then pairs
    [name: value] that a comma separates. [JSON.parse] is a parameter; it
    yields an object, whose properties [convertError] reads and sets, or
    another value. A character is a code unit below 256. *)

Inductive json : Type :=
| JObject (o : obj)
| JValue (v : value).

(** [c.toLowerCase()]. *)
Definition lower (c : ascii) : ascii :=
  let n := Z.of_N (N_of_ascii c) in
  if ((65 <=? n) && (n <=? 90))
     || ((192 <=? n) && (n <=? 222) && negb (n =? 215))
  then ascii_of_N (Z.to_N (n + 32))
  else c.

Fixpoint toLowerCase (s : string) : string :=
  match s with
  | String c r => String (lower c) (toLowerCase r)
  | EmptyString => EmptyString
  end.

Fixpoint dropSpaces (s : string) : string :=
  match s with
  | String c r => if is_space c then dropSpaces r else s
  | EmptyString => EmptyString
  end.

(** [m.replace(/^Message:\s+/, '')]. *)
Definition stripMessage (m : string) : string :=
  match strip_prefix "Message:" m with
  | Some (String c r) => if is_space c then dropSpaces r else m
  | _ => m
  end.

(** [s.replace(/\s/, '')]: the first space goes. *)
Fixpoint removeSpace (s : string) : string :=
  match s with
  | String c r => if is_space c then r else String c (removeSpace r)
  | EmptyString => EmptyString
  end.

(** [c :: l], on the first string of a list that is never empty. *)
Definition onFirst (c : ascii) (l : list string) : list string :=
  match l with
  | h :: t => String c h :: t
  | [] => [String c EmptyString]
  end%list.

(** [s.split(/\r\n/)]. *)
Fixpoint splitLines (s : string) : list string :=
  match s with
  | EmptyString => [EmptyString]
  | String c r =>
      if Ascii.eqb c "013" then
        match r with
        | String c' r' =>
            if Ascii.eqb c' "010" then EmptyString :: splitLines r'
            else onFirst c (splitLines r)
        | EmptyString => onFirst c (splitLines r)
        end
      else onFirst c (splitLines r)
  end%list.

(** [s.split(/,\s*/)] and [s.split(/:\s*/)]: [skipping] says that a
    separator was just read, whose spaces are still to pass. *)
Fixpoint splitSpaced (sep : ascii) (skipping : bool) (s : string)
  : list string :=
  match s with
  | EmptyString => [EmptyString]
  | String c r =>
      if skipping && is_space c then splitSpaced sep true r
      else if Ascii.eqb c sep then EmptyString :: splitSpaced sep true r
      else onFirst c (splitSpaced sep false r)
  end%list.

(** The body of the loop over the pairs of the second line. Assigning a
    string to [__proto__] does nothing, unless the object has a property
    of its own of that name. *)
Definition additional (body : obj) (t : string) : obj :=
  let tt := splitSpaced ":" false t in
  let name := toLowerCase (removeSpace (hd EmptyString tt)) in
  if String.eqb name "__proto__" && negb (hasOwnProperty body "__proto__")
  then body
  else <[name := elementAt tt 1]> body.

(** [j.Errors]. *)
Definition errorsOf (j : json) : completion value :=
  match j with
  | JObject o => Normal (get o "Errors")
  | JValue VNull => Throw (TypeError "Cannot read property 'Errors' of null")
  | JValue VUndefined =>
      Throw (TypeError "Cannot read property 'Errors' of undefined")
  | JValue _ => Normal VUndefined
  end.

Module Errors.
Section convertError.
Variable JSON_parse : string -> completion json.

Definition translate (body : obj) (message : string) : completion json :=
  let msg := splitLines (stripMessage message) in
  match JSON_parse (hd EmptyString msg) with
  | Normal j =>
      match errorsOf j with
      | Normal errors =>
          let body := <["errors" := errors]> body in
          match nth_error msg 1 with
          | Some line =>
              let addl := splitSpaced "," false line in
              Normal (JObject
                        (delete "message" (fold_left additional addl body)))
          | None =>
              Throw (TypeError "Cannot read property 'split' of undefined")
          end
      | Throw e => Throw e
      | Unmodelled => Unmodelled
      end
  | Throw e => Throw e
  | Unmodelled => Unmodelled
  end.

Definition convertError (error : exn) : completion json :=
  match error with
  | StoreError _ raw =>
      match JSON_parse raw with
      | Normal (JObject body) =>
          if hasOwnProperty body "message" then
            match get body "message" with
            | VStr message => translate body message
            | VUndefined =>
                Throw (TypeError "Cannot read property 'replace' of undefined")
            | VNull =>
                Throw (TypeError "Cannot read property 'replace' of null")
            | _ => Throw (TypeError "body.message.replace is not a function")
            end
          else Normal (JObject body)
      | Normal (JValue VNull) =>
          Throw (TypeError "Cannot read property 'hasOwnProperty' of null")
      | Normal (JValue VUndefined) =>
          Throw (TypeError
                   "Cannot read property 'hasOwnProperty' of undefined")
      | Normal (JValue v) => Normal (JValue v)
      | Throw e => Throw e
      | Unmodelled => Unmodelled
      end
  | _ => Throw (SyntaxError "Unexpected token u in JSON at position 0")
  end.

End convertError.
End Errors.

(** The second line of a message: pairs [name: value] that [, ]
    separates. And what the translation is to make of a pair. *)
Definition pairText (pair : string * string) : string :=
  fst pair ++ ": " ++ snd pair.

Definition not_colon (c : ascii) : bool := negb (Ascii.eqb c ":").

Definition translated (body : obj) (pair : string * string) : obj :=
  <[toLowerCase (removeSpace (fst pair))
    := VStr (fst (span not_colon (snd pair)))]> body.

Definition CRLF : string := String "013" (String "010" EmptyString).

Definition spaced (s : string) : bool :=
  match s with
  | String c _ => is_space c
  | EmptyString => false
  end.

(** A pair the translation reads as it is written: neither part holds a
    comma or a carriage return or begins with a space, and the name
    holds no colon and is not that of the prototype. *)
Definition pairOk (pair : string * string) : Prop :=
  let '(name, v) := pair in
  count "," name = 0%nat /\ count "013" name = 0%nat
  /\ count ":" name = 0%nat /\ spaced name = false
  /\ count "," v = 0%nat /\ count "013" v = 0%nat /\ spaced v = false
  /\ toLowerCase (removeSpace name) <> "__proto__".

(** The body of a conflict, as the store words it, and a parser for the
    texts of the examples: the body of the conflict, the body of an error
    whose message has one line, and a text that holds [Errors]. *)
Definition sampleBody : obj :=
  <["message" :=
      VStr ("Message: {}" ++ CRLF
            ++ "ActivityId: 4c2c, Request URI: /apps/todo/, RequestStats: , SDK: Microsoft.Azure.Documents.Common/1.11.0.0")]>
    {[ "code" := VStr "Conflict" ]}.

Definition sampleParse (s : string) : completion json :=
  if String.eqb s "conflict" then Normal (JObject sampleBody)
  else if String.eqb s "short"
       then Normal (JObject {[ "message" := VStr "Message: {}" ]})
       else Normal (JObject {[ "Errors" := VOther ]}).

(** ** A collection of one document, and a world to run requests in *)

Definition stored : obj :=
  list_to_map
    [("id", VStr "1"); ("title", VStr "milk"); ("complete", VBool false);
     ("deleted", VBool false);
     ("createdAt", VStr "2017-02-03T10:20:30.456Z");
     ("_rid", VStr "rid-0");
     ("_self", VStr "dbs/AzureMobile/colls/todoitem/docs/0");
     ("_etag", VStr "abc"); ("_ts", VNum 1500000000);
     ("_attachments", VStr "attachments/")]%list.

(** The same document, once it is marked as deleted. *)
Definition removed : obj := <["deleted" := VBool true]> stored.

(** The filter of the test script. *)
Definition since : string := "updatedAt ge '2017-02-03T00:00:00.000'".

(** A request for the list of the items changed since then. *)
Definition listing : request :=
  Request "GET" VUndefined ∅ None {[ "$filter" := VStr since ]} 1%positive.

(** A replacement for it, as a client that read no version sends it. *)
Definition edit : obj :=
  list_to_map [("id", VStr "1"); ("title", VStr "bread")]%list.

(** The same replacement from a client that read an older version, sent
    to the address of another item; and from a client that sends a
    creation date of its own. *)
Definition misdirected : obj :=
  list_to_map [("id", VStr "2"); ("title", VStr "bread");
               ("version", VStr "c3RhbGU=")]%list.

(** A replacement that carries an older version; and one that has a
    property named as the method the handlers call on it. *)
Definition outdated : obj :=
  list_to_map [("id", VStr "1"); ("title", VStr "bread");
               ("version", VStr "c3RhbGU=")]%list.

Definition shadowing : obj :=
  list_to_map [("id", VStr "1"); ("title", VStr "bread");
               ("hasOwnProperty", VBool true)]%list.

Definition backdated : obj :=
  list_to_map [("id", VStr "1"); ("title", VStr "bread");
               ("createdAt", VStr "1999-01-01T00:00:00.000Z")]%list.

(** A PUT on the item [1] that carries the current version in an
    [if-match] header, in a framework where [req.header] is a function. *)
Definition conditional : request :=
  Request "PUT" (VStr "1") {[ "if-match" := VStr "YWJj" ]} (Some ∅) ∅
    1%positive.

(** A PUT on the item [1] that carries an older version in that header. *)
Definition preconditioned : request :=
  Request "PUT" (VStr "1") {[ "if-match" := VStr "c3RhbGU=" ]} (Some ∅) ∅
    1%positive.


(** Requests on the item [1]; the body is the object at the reference 1,
    there is no header, and [req.header] is not defined. *)
Definition requestOn (method : string) : request :=
  Request method (VStr "1") ∅ None ∅ 1%positive.

(** The world in which a request whose body is [o] arrives: the body is
    the only object of the heap. *)
Definition arrival (o : obj) (c : list obj) : world :=
  World {[ 1%positive := o ]} c 1600000000123 1 VUndefined [].

(* ===================================================================== *)
(** * Properties *)
(* ===================================================================== *)

(** ** Tools *)

Lemma all_from_spec (n : nat) (z0 : Z) (P : Z -> bool) :
  all_from n z0 P = true ->
  forall z, z0 <= z < z0 + Z.of_nat n -> P z = true.
Proof.
  revert z0. induction n as [|k IH]; intros z0 Hall z Hz; [lia|].
  cbn [all_from] in Hall. apply andb_true_iff in Hall as [Hk Hrest].
  destruct (Z.eq_dec z z0) as [->|Hne]; [exact Hk|].
  apply (IH (z0 + 1)); [exact Hrest|lia].
Qed.

Lemma all_below_spec (n : Z) (P : Z -> bool) :
  all_below n P = true -> forall z, 0 <= z < n -> P z = true.
Proof.
  intros Hall z Hz. apply (all_from_spec _ _ _ Hall).
  rewrite Z2Nat.id; lia.
Qed.

Lemma string_ind3 (P : string -> Prop) :
  P EmptyString ->
  (forall a, P (String a EmptyString)) ->
  (forall a b, P (String a (String b EmptyString))) ->
  (forall a b c r, P r -> P (String a (String b (String c r)))) ->
  forall s, P s.
Proof.
  intros H0 H1 H2 H3 s.
  enough (P s /\ (forall a, P (String a s))
          /\ (forall a b, P (String a (String b s)))) by tauto.
  induction s as [|x s (IHs & IHs1 & IHs2)]; [auto|].
  split; [apply IHs1|]. split; [intros a; apply IHs2|].
  intros a b. apply H3, IHs.
Qed.

Lemma append_cons (x : ascii) (a b : string) :
  String x a ++ b = String x (a ++ b).
Proof. reflexivity. Qed.

Lemma append_nil_l (a : string) : "" ++ a = a.
Proof. reflexivity. Qed.

Lemma append_assoc (a b c : string) : (a ++ b) ++ c = a ++ (b ++ c).
Proof.
  induction a as [|x a IH]; [reflexivity|].
  rewrite !append_cons. now f_equal.
Qed.

Lemma append_nil_r (a : string) : a ++ "" = a.
Proof.
  induction a as [|x a IH]; [reflexivity|].
  rewrite append_cons. now f_equal.
Qed.

(** ** Base64 *)

Module Base64Facts.
Import Base64.

Lemma byte_range c : 0 <= byte c < 256.
Proof. unfold byte. pose proof (N_ascii_bounded c). lia. Qed.

Lemma char_byte c : char (byte c) = c.
Proof. unfold char, byte. rewrite N2Z.id. apply ascii_N_embedding. Qed.

Lemma sextet_roundtrip n :
  0 <= n < 64 -> char_to_sextet (sextet_to_char n) = Some n.
Proof.
  intros Hn.
  pose proof (all_below_spec 64
    (fun n => bool_decide (char_to_sextet (sextet_to_char n) = Some n))
    eq_refl n Hn) as H.
  now apply bool_decide_eq_true in H.
Qed.

Lemma sextet_not_pad n :
  0 <= n < 64 -> Ascii.eqb (sextet_to_char n) pad_char = false.
Proof.
  intros Hn.
  pose proof (all_below_spec 64
    (fun n => negb (Ascii.eqb (sextet_to_char n) pad_char))
    eq_refl n Hn) as H.
  now apply negb_true_iff in H.
Qed.

Lemma pad_not_sextet : char_to_sextet pad_char = None.
Proof. reflexivity. Qed.

Ltac div_lia := Z.to_euclidean_division_equations; lia.

Lemma decode_encode s : decode (encode s) = Some s.
Proof.
  induction s as [|a|a b|a b c r IH] using string_ind3.
  - reflexivity.
  - pose proof (byte_range a) as Ha.
    cbn [encode decode].
    rewrite !sextet_roundtrip by div_lia.
    rewrite pad_not_sextet, Ascii.eqb_refl. cbn [andb String.eqb].
    replace (byte a / 4 * 4 + byte a mod 4 * 16 / 16) with (byte a)
      by div_lia.
    now rewrite char_byte.
  - pose proof (byte_range a) as Ha. pose proof (byte_range b) as Hb.
    cbn [encode decode].
    rewrite !sextet_roundtrip by div_lia.
    rewrite pad_not_sextet, Ascii.eqb_refl. cbn [andb String.eqb].
    replace (byte a / 4 * 4 + (byte a mod 4 * 16 + byte b / 16) / 16)
      with (byte a) by div_lia.
    replace ((byte a mod 4 * 16 + byte b / 16) mod 16 * 16
             + byte b mod 16 * 4 / 4) with (byte b) by div_lia.
    now rewrite !char_byte.
  - pose proof (byte_range a) as Ha. pose proof (byte_range b) as Hb.
    pose proof (byte_range c) as Hc.
    cbn [encode]. cbn [decode]. fold (encode r).
    rewrite !sextet_roundtrip by div_lia.
    rewrite IH.
    replace (byte a / 4 * 4 + (byte a mod 4 * 16 + byte b / 16) / 16)
      with (byte a) by div_lia.
    replace ((byte a mod 4 * 16 + byte b / 16) mod 16 * 16
             + (byte b mod 16 * 4 + byte c / 64) / 4)
      with (byte b) by div_lia.
    replace ((byte b mod 16 * 4 + byte c / 64) mod 4 * 64 + byte c mod 64)
      with (byte c) by div_lia.
    now rewrite !char_byte.
Qed.

End Base64Facts.

(** ** The calendar of [moment] *)

Module MomentFacts.
Import Moment.

Ltac div_lia := Z.to_euclidean_division_equations; lia.











End MomentFacts.




(** What [moment] reads of ISO-8601, with the local zone one hour east
    of Greenwich: a date alone and a time without a zone are local; a
    time may stop at the hour or at the minute and have a fraction, after
    a point or a comma; the basic format, a week date, an ordinal date
    and the end of a day at 24:00 are read; a second 60, a day that the
    month has not and an instant outside the range of [Date] are not. *)
Example parse_evaluated :
  Moment.parse 60 "2017-02-03" = Some 1486076400000
  /\ Moment.parse 60 "2017-02-03T10:20:30.456" = Some 1486113630456
  /\ Moment.parse 60 "2017-02-03T10:20:30Z" = Some 1486117230000
  /\ Moment.parse 60 "2017-02-03T10:20:30.5-08:00" = Some 1486146030500
  /\ Moment.parse 60 "2017-02-03T10:20:30,25+0530" = Some 1486097430250
  /\ Moment.parse 60 "2017-02-03T10:20+01" = Some 1486113600000
  /\ Moment.parse 60 "2017-02-03 10" = Some 1486112400000
  /\ Moment.parse 60 "20170203T102030Z" = Some 1486117230000
  /\ Moment.parse 60 "2017-W05-5T10:20:30Z" = Some 1486117230000
  /\ Moment.parse 60 "2017-034T10:20:30Z" = Some 1486117230000
  /\ Moment.parse 60 "2017-02-03T24:00:00Z" = Some 1486166400000
  /\ Moment.parse 60 "+002017-02-03T10:20:30.000Z" = Some 1486117230000
  /\ Moment.parse 60 "2017-02-29T10:20:30Z" = None
  /\ Moment.parse 60 "2017-02-03T10:20:60Z" = None
  /\ Moment.parse 60 "+275760-09-13T00:00:00.001Z" = None.
Proof. repeat split; vm_compute; reflexivity. Qed.

(** The same instance, evaluated: a local time one hour east of Greenwich
    comes back as the text of the same second in universal time. *)
Example codec_evaluated :
  encodeTimestamp 60 "2017-02-03T10:20:30.456" = Some 1486113630
  /\ decodeTimestamp 1486113630 = Some "2017-02-03T09:20:30.000Z"
  /\ encodeVersion "abc" = "YWJj".
Proof. repeat split; vm_compute; reflexivity. Qed.

(** ** The monad and the heap *)

Lemma bind_run {A B} (m : M A) (k : A -> M B) w a w' :
  m w = (Normal a, w') -> bind m k w = k a w'.
Proof. unfold bind. now intros ->. Qed.

Lemma bind_throw {A B} (m : M A) (k : A -> M B) w e w' :
  m w = (Throw e, w') -> bind m k w = (Throw e, w').
Proof. unfold bind. now intros ->. Qed.

Lemma bind_unmodelled {A B} (m : M A) (k : A -> M B) w w' :
  m w = (Unmodelled, w') -> bind m k w = (Unmodelled, w').
Proof. unfold bind. now intros ->. Qed.

Lemma bind_assoc_run {A B C} (m : M A) (k : A -> M B) (k' : B -> M C) w :
  bind (bind m k) k' w = bind m (fun x => bind (k x) k') w.
Proof. unfold bind. destruct (m w) as [[a|e|] w']; reflexivity. Qed.

Lemma throw_run {A B} (e : exn) (k : A -> M B) w :
  bind (throw e) k w = (Throw e, w).
Proof. reflexivity. Qed.

Lemma ret_run {A B} (a : A) (k : A -> M B) w : bind (ret a) k w = k a w.
Proof. reflexivity. Qed.

Lemma lift_run {A B} (c : completion A) (k : A -> M B) w :
  bind (lift c) k w =
  match c with
  | Normal a => k a w
  | Throw e => (Throw e, w)
  | Unmodelled => (Unmodelled, w)
  end.
Proof. unfold bind, lift. now destruct c. Qed.

Lemma heap_put l o w : heap (put l o w) !! l = Some o.
Proof. apply lookup_insert_eq. Qed.

Lemma heap_put_ne l l' o w : l <> l' -> heap (put l o w) !! l' = heap w !! l'.
Proof. intros. now apply lookup_insert_ne. Qed.

Lemma put_put l o o' w : put l o' (put l o w) = put l o' w.
Proof. unfold put, set_heap. cbn. now rewrite insert_insert_eq. Qed.

Lemma put_id l o w : heap w !! l = Some o -> put l o w = w.
Proof.
  intros H. destruct w as [h c k n s t]. unfold put, set_heap.
  cbn in *. f_equal. now apply insert_id.
Qed.

Lemma hasOwnProperty_Some (o : obj) k v :
  o !! k = Some v -> hasOwnProperty o k = true.
Proof. intros H. unfold hasOwnProperty. apply bool_decide_eq_true_2. eauto. Qed.

Lemma hasOwnProperty_None (o : obj) k :
  o !! k = None -> hasOwnProperty o k = false.
Proof.
  intros H. unfold hasOwnProperty. apply bool_decide_eq_false_2.
  rewrite H. now intros [? ?].
Qed.

Lemma get_Some (o : obj) k v : o !! k = Some v -> get o k = v.
Proof. unfold get. now intros ->. Qed.

Lemma get_None (o : obj) k : o !! k = None -> get o k = VUndefined.
Proof. unfold get. now intros ->. Qed.

(** The operations on the object that a reference designates. *)
Section at_object.
Variables (l : loc) (o : obj) (w : world).
Hypothesis Hl : heap w !! l = Some o.

Lemma deref_run : deref l w = (Normal o, w).
Proof using Hl. unfold deref. now rewrite Hl. Qed.

Lemma getProp_run k : getProp l k w = (Normal (get o k), w).
Proof using Hl.
  unfold getProp. now rewrite (bind_run _ _ _ _ _ deref_run).
Qed.

Lemma hasOwn_run k : hasOwn l k w = (Normal (hasOwnProperty o k), w).
Proof using Hl.
  unfold hasOwn. now rewrite (bind_run _ _ _ _ _ deref_run).
Qed.

Lemma callHasOwnProperty_run k :
  o !! "hasOwnProperty" = None ->
  callHasOwnProperty l k w = (Normal (hasOwnProperty o k), w).
Proof using Hl.
  intros Hplain. unfold callHasOwnProperty.
  rewrite (bind_run _ _ _ _ _ deref_run).
  now rewrite (hasOwnProperty_None _ _ Hplain).
Qed.

Lemma callHasOwnProperty_hidden k v :
  o !! "hasOwnProperty" = Some v ->
  callHasOwnProperty l k w
  = (Throw (TypeError "item.hasOwnProperty is not a function"), w).
Proof using Hl.
  intros Hown. unfold callHasOwnProperty.
  rewrite (bind_run _ _ _ _ _ deref_run).
  now rewrite (hasOwnProperty_Some _ _ _ Hown).
Qed.

Lemma setProp_run k v :
  setProp l k v w = (Normal tt, put l (<[k := v]> o) w).
Proof using Hl. unfold setProp, update. now rewrite Hl. Qed.

Lemma deleteProp_run k :
  deleteProp l k w = (Normal tt, put l (delete k o) w).
Proof using Hl. unfold deleteProp, update. now rewrite Hl. Qed.

Lemma whenOwnDelete_run k :
  whenOwnDelete l k w = (Normal tt, put l (delete k o) w).
Proof using Hl.
  unfold whenOwnDelete. rewrite (bind_run _ _ _ _ _ (hasOwn_run k)).
  unfold hasOwnProperty. case_bool_decide as Hk.
  - apply deleteProp_run.
  - rewrite delete_id, put_id; [reflexivity|assumption|].
    destruct (o !! k); [exfalso; eauto|reflexivity].
Qed.
End at_object.

Ltac at_object :=
  first [ eassumption | apply heap_put ].

(** Running a handler forward, one operation at a time. *)
Ltac exec :=
  repeat first
    [ rewrite put_put
    | rewrite bind_assoc_run
    | rewrite throw_run
    | rewrite ret_run
    | rewrite lift_run
    | erewrite bind_run
        by first [ eapply hasOwn_run; at_object
                 | eapply callHasOwnProperty_run; [at_object|eassumption]
                 | eapply getProp_run; at_object
                 | eapply setProp_run; at_object
                 | eapply deleteProp_run; at_object
                 | eapply whenOwnDelete_run; at_object
                 | eapply deref_run; at_object ] ].

(** ** [convertItem] *)

(** [convertItem] works in place: it returns the reference it was given,
    and what it did to the object is [convertObj]. *)
Lemma convertItem_run l w doc :
  heap w !! l = Some doc ->
  convertItem l w =
  (match fst (convertObj doc) with
   | Normal _ => Normal l
   | Throw e => Throw e
   | Unmodelled => Unmodelled
   end, put l (snd (convertObj doc)) w).
Proof.
  intros H. unfold convertItem, convertObj.
  exec.
  destruct (doc !! "_ts") as [ts|] eqn:Ets.
  - rewrite (hasOwnProperty_Some _ _ _ Ets). exec.
    rewrite (get_Some _ _ _ Ets).
    assert (Hetag : delete "_ts" (<["updatedAt" := momentUnixToISOString ts]> doc)
                      !! "_etag" = doc !! "_etag")
      by (rewrite lookup_delete_ne, lookup_insert_ne by discriminate;
          reflexivity).
    destruct (doc !! "_etag") as [etag|] eqn:Eetag.
    + rewrite (hasOwnProperty_Some _ _ _ Hetag). exec.
      rewrite (get_Some _ _ _ Hetag).
      destruct (bufferToBase64 etag) as [version|e|]; [|reflexivity..].
      exec. reflexivity.
    + rewrite (hasOwnProperty_None _ _ Hetag). exec. reflexivity.
  - rewrite (hasOwnProperty_None _ _ Ets). exec.
    cbn [fst snd]. now rewrite (put_id _ _ _ H).
Qed.

Lemma convertObj_frame (doc : obj) k :
  k ∉ ("updatedAt" :: "version" :: metadata) ->
  snd (convertObj doc) !! k = doc !! k.
Proof.
  intros Hk.
  assert (k <> "updatedAt" /\ k <> "version" /\ k <> "_ts" /\ k <> "_etag"
          /\ k <> "_rid" /\ k <> "_self" /\ k <> "_attachments")
    as (? & ? & ? & ? & ? & ? & ?).
  { unfold metadata in Hk. rewrite !not_elem_of_cons in Hk. tauto. }
  unfold convertObj.
  destruct (doc !! "_ts") as [ts|]; [|reflexivity].
  destruct (doc !! "_etag") as [etag|];
    [destruct (bufferToBase64 etag)|]; cbn [snd];
    repeat first [ rewrite lookup_delete_ne by congruence
                 | rewrite lookup_insert_ne by congruence ];
    reflexivity.
Qed.





(** ** The store operations *)

Lemma fresh_heap (w : world) (l : loc) (o : obj) :
  heap w !! l = Some o -> fresh (dom (heap w)) <> l.
Proof.
  intros H Heq. apply (is_fresh (dom (heap w))).
  rewrite Heq. apply elem_of_dom. eauto.
Qed.

Lemma fetchDocument_found id w d :
  lookupBy "id" id (collection w) = Some d ->
  fetchDocument id w =
  (Normal (Some (fresh (dom (heap w)))),
   put (fresh (dom (heap w))) d (log (FetchDocument id) w)).
Proof.
  intros H. unfold fetchDocument, bind, emit.
  cbn [collection log]. now rewrite H.
Qed.

Lemma fetchDocument_absent id w :
  lookupBy "id" id (collection w) = None ->
  fetchDocument id w = (Normal None, log (FetchDocument id) w).
Proof.
  intros H. unfold fetchDocument, bind, emit.
  cbn [collection log]. now rewrite H.
Qed.

(** A link that is not a string: the call is made, and fails. *)
Lemma replaceDocument_no_link docLink item o w :
  heap w !! item = Some o ->
  (forall s, docLink <> VStr s) ->
  replaceDocument docLink item w =
  (Throw (TypeError "Cannot read property 'split' of undefined"),
   log (ReplaceDocument docLink o) w).
Proof.
  intros H Hlink. unfold replaceDocument.
  rewrite (bind_run _ _ _ _ _ (deref_run _ _ _ H)).
  unfold bind, emit.
  destruct docLink; try reflexivity. now destruct (Hlink s).
Qed.

Lemma respondError_run s message w :
  respondError s message w =
  (Normal tt,
   log (Sent (VNum s) (Json {[ "error" := VStr message ]}))
     (set_status (VNum s) w)).
Proof. reflexivity. Qed.

Lemma respondItem_run s l doc item w :
  heap w !! l = Some doc ->
  convertObj doc = (Normal tt, item) ->
  respondItem s l w =
  (Normal tt,
   log (Sent (VNum s) (Json item)) (put l item (set_status (VNum s) w))).
Proof.
  intros H Hconv. unfold respondItem, res_status.
  erewrite bind_run by reflexivity.
  erewrite bind_run
    by (rewrite (convertItem_run _ _ doc) by exact H;
        rewrite Hconv; reflexivity).
  cbn [snd]. erewrite bind_run by (apply deref_run, heap_put).
  reflexivity.
Qed.

Lemma detached_normal (m : M unit) w w' :
  m w = (Normal tt, w') -> detached m w = (Normal tt, w').
Proof. unfold detached, catch. now intros ->. Qed.

Lemma detached_throw (m : M unit) w e w' :
  m w = (Throw e, w') ->
  detached m w = (Normal tt, log (UnhandledRejection e) w').
Proof. unfold detached, catch. now intros ->. Qed.

Lemma catch_normal {A} (m : M A) h w a w' :
  m w = (Normal a, w') -> catch m h w = (Normal a, w').
Proof. unfold catch. now intros ->. Qed.

Lemma catch_throw {A} (m : M A) h w e w' :
  m w = (Throw e, w') -> catch m h w = h e w'.
Proof. unfold catch. now intros ->. Qed.

(** The object that [deleteItem] hands to the store. *)
Lemma convertObj_store (doc : obj) ts etag :
  doc !! "_ts" = Some ts ->
  doc !! "_etag" = Some (VStr etag) ->
  convertObj doc =
  (Normal tt,
   delete "_attachments"
     (delete "_self"
        (delete "_rid"
           (delete "_etag"
              (<["version" := VStr (encodeVersion etag)]>
                 (delete "_ts"
                    (<["updatedAt" := momentUnixToISOString ts]> doc))))))).
Proof. intros Hts Hetag. unfold convertObj. now rewrite Hts, Hetag. Qed.

Lemma deleteItem_run req id w doc ts etag :
  lookupBy "id" id (collection w) = Some doc ->
  doc !! "_ts" = Some ts ->
  doc !! "_etag" = Some (VStr etag) ->
  let l := fresh (dom (heap w)) in
  let item :=
    <["deleted" := VBool true]>
      (delete "version" (delete "updatedAt" (snd (convertObj doc)))) in
  deleteItem req id w =
  (Normal tt,
   log (UnhandledRejection
          (TypeError "Cannot read property 'split' of undefined"))
     (log (ReplaceDocument VUndefined item)
        (put l item (log (FetchDocument id) w)))).
Proof.
  intros Hdoc Hts Hetag l item. unfold deleteItem.
  apply detached_normal. apply catch_normal.
  rewrite (bind_run _ _ _ _ _ (fetchDocument_found _ _ _ Hdoc)).
  fold l.
  erewrite bind_run
    by (rewrite (convertItem_run _ _ doc) by apply heap_put;
        rewrite (convertObj_store _ _ _ Hts Hetag); reflexivity).
  subst item. rewrite (convertObj_store _ _ _ Hts Hetag). cbn [snd].
  exec.
  rewrite get_None
    by (rewrite lookup_insert_ne, !lookup_delete_ne by discriminate;
        apply lookup_delete_eq).
  apply detached_throw. eapply bind_throw.
  apply replaceDocument_no_link; [apply heap_put|discriminate].
Qed.

(** C10. [convertItem] returns the reference it was given, and the object
    that reference designates is the one it changed: the store-private
    properties are deleted from the caller's object. In [deleteItem] the
    document link is therefore read after [_self] is gone: the replace call
    of the delete path is made with [undefined] for a link. *)
Theorem convertItem_in_place (w : world) (req : request) (id : value)
    (doc : obj) (ts : value) (etag : string) :
  lookupBy "id" id (collection w) = Some doc ->
  doc !! "_ts" = Some ts ->
  doc !! "_etag" = Some (VStr etag) ->
  (forall w0 l,
      heap w0 !! l = Some doc ->
      exists item,
        convertItem l w0 = (Normal l, put l item w0)
        /\ forall k, k ∈ metadata -> item !! k = None)
  /\ exists item e,
       trace (snd (deleteItem req id w))
       = (trace w ++ [FetchDocument id; ReplaceDocument VUndefined item;
                      UnhandledRejection e])%list
       /\ item !! "_self" = None.
Proof.
  intros Hdoc Hts Hetag. split.
  - intros w0 l Hl. rewrite (convertItem_run _ _ _ Hl).
    rewrite (convertObj_store _ _ _ Hts Hetag). cbn [fst snd].
    eexists. split; [reflexivity|].
    intros k Hk. unfold metadata in Hk. rewrite !elem_of_cons in Hk.
    rewrite elem_of_nil in Hk.
    destruct Hk as [->|[->|[->|[->|[->|[]]]]]];
      repeat first [ apply lookup_delete_eq
                   | rewrite lookup_delete_ne by discriminate
                   | rewrite lookup_insert_ne by discriminate ].
  - rewrite (deleteItem_run req _ _ _ _ _ Hdoc Hts Hetag). cbn [snd].
    do 2 eexists. split.
    + cbn [trace log put set_heap]. rewrite <- !app_assoc. reflexivity.
    + rewrite (convertObj_store _ _ _ Hts Hetag). cbn [snd].
      rewrite lookup_insert_ne, !lookup_delete_ne by discriminate.
      apply lookup_delete_eq.
Qed.

Lemma convertItem_in_place_witness :
  exists item e,
    trace (snd (deleteItem (Request "DELETE" (VStr "1") ∅ None ∅ 1%positive)
                  (VStr "1") (arrival ∅ [stored])))
    = [FetchDocument (VStr "1"); ReplaceDocument VUndefined item;
       UnhandledRejection e]%list
    /\ item !! "_self" = None.
Proof.
  apply (convertItem_in_place (arrival ∅ [stored])
           (Request "DELETE" (VStr "1") ∅ None ∅ 1%positive) (VStr "1")
           stored (VNum 1500000000) "abc");
    reflexivity.
Defined.

(** ** The trace discipline *)

Section appends.
Context {A B : Type}.
Variables (P : event -> Prop) (Q : exn -> Prop).

Lemma appends_silent (m : M A) :
  (forall w, trace (snd (m w)) = trace w) ->
  (forall w e, fst (m w) = Throw e -> Q e) ->
  appends P Q m.
Proof.
  intros Htrace Hthrow w. split; [|apply Hthrow].
  exists []%list. rewrite Htrace, app_nil_r. auto.
Qed.

Lemma appends_ret (a : A) : appends P Q (ret a).
Proof. apply appends_silent; [reflexivity|discriminate]. Qed.

Lemma appends_throw (e : exn) : Q e -> appends P Q (@throw A e).
Proof.
  intros He. apply appends_silent; [reflexivity|].
  now intros w e' [= <-].
Qed.

Lemma appends_unmodelled : appends P Q (@unmodelled A).
Proof. apply appends_silent; [reflexivity|discriminate]. Qed.

Lemma appends_lift (c : completion A) :
  (forall e, c = Throw e -> Q e) -> appends P Q (lift c).
Proof. intros Hc. apply appends_silent; [reflexivity|]. intros w. apply Hc. Qed.

Lemma appends_bind (m : M A) (k : A -> M B) :
  appends P Q m -> (forall a, appends P Q (k a)) -> appends P Q (bind m k).
Proof.
  intros Hm Hk w. unfold bind.
  destruct (Hm w) as [(evs & Htr & Hevs) Hthrow].
  destruct (m w) as [[a|e|] w1] eqn:Em; cbn [fst snd] in *.
  - destruct (Hk a w1) as [(evs' & Htr' & Hevs') Hthrow'].
    split; [|exact Hthrow'].
    exists (evs ++ evs')%list. rewrite Htr', Htr, app_assoc.
    split; [reflexivity|]. now apply Forall_app.
  - split; [eauto|]. intros e' [= <-]. now apply Hthrow.
  - split; [eauto|]. discriminate.
Qed.

Lemma appends_emit (e : event) : P e -> appends P Q (emit e).
Proof.
  intros He w. split; [|discriminate].
  exists [e]%list. split; [reflexivity|]. now constructor.
Qed.

End appends.

Lemma appends_catch {A} (P : event -> Prop) (Q Q' : exn -> Prop)
    (m : M A) (h : exn -> M A) :
  appends P Q m -> (forall e, Q e -> appends P Q' (h e)) ->
  appends P Q' (catch m h).
Proof.
  intros Hm Hh w. unfold catch.
  destruct (Hm w) as [(evs & Htr & Hevs) Hthrow].
  destruct (m w) as [[a|e|] w1] eqn:Em; cbn [fst snd] in *.
  - split; [eauto|]. discriminate.
  - destruct (Hh e (Hthrow e eq_refl) w1) as [(evs' & Htr' & Hevs') Hthrow'].
    split; [|exact Hthrow'].
    exists (evs ++ evs')%list. rewrite Htr', Htr, app_assoc.
    split; [reflexivity|]. now apply Forall_app.
  - split; [eauto|]. discriminate.
Qed.

(** A detached chain throws nothing. *)
Lemma appends_detached (P : event -> Prop) (Q Q' : exn -> Prop) (m : M unit) :
  appends P Q m -> (forall e, P (UnhandledRejection e)) ->
  appends P Q' (detached m).
Proof.
  intros Hm HP. unfold detached.
  apply (appends_catch P Q Q' m); [exact Hm|].
  intros e _ w. split; [|discriminate].
  exists [UnhandledRejection e]%list. split; [reflexivity|].
  constructor; [apply HP|constructor].
Qed.

Lemma appends_weaken {A} (P : event -> Prop) (Q Q' : exn -> Prop) (m : M A) :
  appends P Q m -> (forall e, Q e -> Q' e) -> appends P Q' m.
Proof.
  intros Hm HQ w. destruct (Hm w) as [Hev Hthrow].
  split; [exact Hev|]. intros e He. apply HQ, Hthrow, He.
Qed.

Section appends_heap.
Variables (P : event -> Prop) (Q : exn -> Prop).

Lemma appends_deref l : appends P Q (deref l).
Proof.
  apply appends_silent; intros w; unfold deref;
    destruct (heap w !! l); try reflexivity; discriminate.
Qed.

Lemma appends_update l f : appends P Q (update l f).
Proof.
  apply appends_silent; intros w; unfold update;
    destruct (heap w !! l); try reflexivity; discriminate.
Qed.

Lemma appends_alloc o : appends P Q (alloc o).
Proof. apply appends_silent; [reflexivity|discriminate]. Qed.

Lemma appends_getProp l k : appends P Q (getProp l k).
Proof.
  apply appends_bind; [apply appends_deref|intros; apply appends_ret].
Qed.

Lemma appends_hasOwn l k : appends P Q (hasOwn l k).
Proof.
  apply appends_bind; [apply appends_deref|intros; apply appends_ret].
Qed.

Lemma appends_setProp l k v : appends P Q (setProp l k v).
Proof. apply appends_update. Qed.

Lemma appends_deleteProp l k : appends P Q (deleteProp l k).
Proof. apply appends_update. Qed.

Lemma appends_whenOwnDelete l k : appends P Q (whenOwnDelete l k).
Proof.
  apply appends_bind; [apply appends_hasOwn|].
  intros [|]; [apply appends_deleteProp|apply appends_ret].
Qed.

Lemma appends_res_status v : appends P Q (res_status v).
Proof. apply appends_silent; [reflexivity|discriminate]. Qed.

End appends_heap.

Lemma appends_callHasOwnProperty P l k :
  appends P thrown (callHasOwnProperty l k).
Proof.
  apply appends_bind; [apply appends_deref|].
  intros o. destruct (hasOwnProperty o "hasOwnProperty");
    [now apply appends_throw|apply appends_ret].
Qed.

(** ** What the handlers add to the trace *)

Lemma appends_if {A} (P : event -> Prop) (Q : exn -> Prop) (b : bool)
    (m1 m2 : M A) :
  appends P Q m1 -> appends P Q m2 -> appends P Q (if b then m1 else m2).
Proof. now destruct b. Qed.

Lemma thrown_bufferToBase64 v e : bufferToBase64 v = Throw e -> thrown e.
Proof. destruct v; cbn; try discriminate; now intros [= <-]. Qed.

Lemma thrown_convertObj doc e : fst (convertObj doc) = Throw e -> thrown e.
Proof.
  unfold convertObj.
  destruct (doc !! "_ts"); [|now intros [= <-]].
  destruct (doc !! "_etag") as [etag|]; [|now intros [= <-]].
  destruct (bufferToBase64 etag) eqn:E; cbn [fst]; try discriminate.
  intros [= <-]. eapply thrown_bufferToBase64, E.
Qed.

Lemma appends_headerProp P req k : appends P thrown (headerProp req k).
Proof.
  unfold headerProp. destruct (header req).
  - apply appends_ret.
  - now apply appends_throw.
Qed.

Lemma appends_respondError (P : event -> Prop) Q s message :
  (forall b, P (Sent (VNum s) b)) -> appends P Q (respondError s message).
Proof.
  intros HP w. split; [|discriminate].
  eexists [_]%list. split; [reflexivity|]. constructor; [apply HP|constructor].
Qed.

(** [respondItem] sends the status it was given, or nothing. *)
Lemma appends_respondItem (P : event -> Prop) s l :
  (forall b, P (Sent (VNum s) b)) -> appends P thrown (respondItem s l).
Proof.
  intros HP w.
  assert (Hsilent : forall (c : completion unit) w',
             trace w' = trace w -> (forall e, c = Throw e -> thrown e) ->
             respondItem s l w = (c, w') ->
             (exists evs, trace (snd (respondItem s l w)) = (trace w ++ evs)%list
                          /\ Forall P evs)
             /\ (forall e, fst (respondItem s l w) = Throw e -> thrown e)).
  { intros c w' Htr Hc ->. cbn [fst snd]. split; [|exact Hc].
    exists []%list. rewrite app_nil_r. auto. }
  destruct (heap w !! l) as [doc|] eqn:Hl.
  - pose proof (thrown_convertObj doc) as Hthrown.
    destruct (convertObj doc) as [[[]|e|] item] eqn:Econv; cbn [fst] in Hthrown.
    + rewrite (respondItem_run _ _ _ _ _ Hl Econv). cbn [fst snd].
      split; [|discriminate].
      eexists [_]%list. split; [reflexivity|].
      constructor; [apply HP|constructor].
    + apply (Hsilent (Throw e) (put l item (set_status (VNum s) w)));
        [reflexivity|now intros e' [= <-]; apply Hthrown|].
      unfold respondItem, res_status. erewrite bind_run by reflexivity.
      eapply bind_throw. rewrite (convertItem_run _ _ doc) by exact Hl.
      now rewrite Econv.
    + apply (Hsilent Unmodelled (put l item (set_status (VNum s) w)));
        [reflexivity|discriminate|].
      unfold respondItem, res_status. erewrite bind_run by reflexivity.
      eapply bind_unmodelled. rewrite (convertItem_run _ _ doc) by exact Hl.
      now rewrite Econv.
  - apply (Hsilent Unmodelled (set_status (VNum s) w));
      [reflexivity|discriminate|].
    unfold respondItem, res_status. erewrite bind_run by reflexivity.
    eapply bind_unmodelled. unfold convertItem, hasOwn.
    rewrite !bind_assoc_run. apply bind_unmodelled.
    unfold deref. cbn [heap set_status]. now rewrite Hl.
Qed.

(** An error that was thrown reaches no response: translating it fails. *)
Lemma appends_onError (P : event -> Prop) e :
  thrown e -> appends P (fun _ => True) (onError e).
Proof.
  intros He w. split; [|trivial].
  exists []%list. rewrite app_nil_r. split; [|constructor].
  destruct e; try contradiction; reflexivity.
Qed.

Lemma appends_replaceDocument (P : event -> Prop) docLink item :
  (forall d, P (ReplaceDocument docLink d)) ->
  appends P (fun _ => True) (replaceDocument docLink item).
Proof.
  intros HP. unfold replaceDocument.
  apply appends_bind; [apply appends_deref|]. intros o.
  apply appends_bind; [now apply appends_emit|]. intros _.
  apply appends_silent; [|trivial]. intros w.
  destruct docLink; try reflexivity.
  destruct (lookupBy "_self" (VStr s) (collection w)); reflexivity.
Qed.

Lemma appends_convertItem (P : event -> Prop) l :
  appends P thrown (convertItem l).
Proof.
  intros w. destruct (heap w !! l) as [doc|] eqn:Hl.
  - rewrite (convertItem_run _ _ _ Hl). cbn [fst snd]. split.
    + exists []%list. rewrite app_nil_r. split; [reflexivity|constructor].
    + pose proof (thrown_convertObj doc) as Hthrown.
      destruct (fst (convertObj doc)); try discriminate.
      intros e' [= <-]. now apply Hthrown.
  - assert (Hc : convertItem l w = (Unmodelled, w)).
    { unfold convertItem, hasOwn. rewrite !bind_assoc_run.
      apply bind_unmodelled. unfold deref. now rewrite Hl. }
    rewrite Hc. split; [exists []%list; now rewrite app_nil_r|discriminate].
Qed.

(** The operations that add nothing to the trace, whatever [P]. *)
Create HintDb appends.

#[local] Hint Resolve appends_ret appends_unmodelled
  appends_getProp appends_hasOwn appends_callHasOwnProperty
  appends_setProp appends_deleteProp
  appends_whenOwnDelete appends_res_status appends_headerProp
  appends_convertItem appends_deref appends_alloc : appends.

(** The detached chain that ends [replaceItem] and [deleteItem]. *)
Lemma appends_replace_chain (P : event -> Prop) Q docLink item :
  (forall d, P (ReplaceDocument docLink d)) ->
  (forall b, P (Sent (VNum 200) b)) ->
  (forall e, P (UnhandledRejection e)) ->
  appends P Q
    (detached
       (updatedDocument <- replaceDocument docLink item ;;
        respondItem 200 updatedDocument)).
Proof.
  intros HR HS HU.
  apply (appends_detached P (fun _ => True)); [|exact HU].
  apply appends_bind; [now apply appends_replaceDocument|].
  intros l. eapply appends_weaken; [now apply appends_respondItem|trivial].
Qed.

(** ** The update and delete paths *)

Lemma detached_catch_bind_run {A} (m : M A) (k : A -> M unit) h w a w' :
  m w = (Normal a, w') ->
  detached (catch (bind m k) h) w = detached (catch (k a) h) w'.
Proof. intros H. unfold detached, catch. now rewrite (bind_run _ _ _ _ _ H). Qed.

Lemma detached_bind_run {A} (m : M A) (k : A -> M unit) w a w' :
  m w = (Normal a, w') -> detached (bind m k) w = detached (k a) w'.
Proof. intros H. unfold detached, catch. now rewrite (bind_run _ _ _ _ _ H). Qed.

Lemma trace_after_fetch (m : M unit) (P : event -> Prop) Q id l doc w :
  appends P Q m ->
  exists evs,
    trace (snd (m (put l doc (log (FetchDocument id) w))))
    = (trace w ++ FetchDocument id :: evs)%list
    /\ Forall P evs.
Proof.
  intros Hm. destruct (Hm (put l doc (log (FetchDocument id) w)))
    as [(evs & Htr & Hevs) _].
  exists evs. split; [|exact Hevs].
  rewrite Htr. cbn [trace put set_heap log]. now rewrite <- app_assoc.
Qed.

Ltac not404 := intros; let b := fresh in intros b; discriminate.

Ltac appends_step :=
  first
    [ solve [auto 1 with appends nocore]
    | apply appends_lift, thrown_bufferToBase64
    | apply appends_respondError; not404
    | apply appends_respondItem; not404
    | apply appends_replace_chain; not404
    | apply appends_if
    | apply appends_bind; [|intro] ].

(** Once a document is fetched, the update path sends no 404. *)
Lemma replaceItem_found_not404 req id l :
  appends not404 (fun _ => True)
    (detached
       (catch
          (let document := l in
           let item := reqBody req in
           etag <- getProp document "_etag" ;;
           version <- lift (bufferToBase64 etag) ;;
           itemId <- getProp item "id" ;;
           if negb (strict_equal itemId id)
           then respondError 400 "Id does not match"
           else
             failed <-
               (if hasOwnProperty (headers req) "if-match" then
                  ifMatch <- headerProp req "if-match" ;;
                  ret (negb (strict_equal ifMatch version))
                else ret false) ;;
             if failed : bool then respondItem 412 document
             else
               hasVersion <- callHasOwnProperty item "version" ;;
               stale <-
                 (if hasVersion : bool then
                    itemVersion <- getProp item "version" ;;
                    ret (negb (strict_equal itemVersion version))
                  else ret false) ;;
               if stale : bool then respondItem 409 document
               else
                 deleteProp item "updatedAt" ;;;
                 deleteProp item "version" ;;;
                 docLink <- getProp document "_self" ;;
                 detached
                   (updatedDocument <- replaceDocument docLink item ;;
                    respondItem 200 updatedDocument))
          onError)).
Proof.
  apply (appends_detached not404 (fun _ => True)); [|not404].
  apply (appends_catch not404 thrown); [|intros; now apply appends_onError].
  cbv zeta.
  repeat appends_step.
Qed.

(** Once a document is fetched, the delete path sends no 404 either. *)
Lemma deleteItem_found_not404 l :
  appends not404 (fun _ => True)
    (detached
       (catch
          (let document := l in
           item <- convertItem document ;;
           deleteProp item "updatedAt" ;;;
           deleteProp item "version" ;;;
           setProp item "deleted" (VBool true) ;;;
           docLink <- getProp document "_self" ;;
           detached
             (updatedDocument <- replaceDocument docLink item ;;
              respondItem 200 updatedDocument))
          onError)).
Proof.
  apply (appends_detached not404 (fun _ => True)); [|not404].
  apply (appends_catch not404 thrown); [|intros; now apply appends_onError].
  cbv zeta. repeat appends_step.
Qed.

Lemma replaceItem_absent req id w :
  lookupBy "id" id (collection w) = None ->
  replaceItem req id w
  = (Normal tt,
     log notFound (set_status (VNum 404) (log (FetchDocument id) w))).
Proof.
  intros H. unfold replaceItem.
  rewrite (detached_catch_bind_run _ _ _ _ _ _ (fetchDocument_absent _ _ H)).
  reflexivity.
Qed.

Lemma deleteItem_absent req id w :
  lookupBy "id" id (collection w) = None ->
  deleteItem req id w
  = (Normal tt,
     log notFound (set_status (VNum 404) (log (FetchDocument id) w))).
Proof.
  intros H. unfold deleteItem.
  rewrite (detached_catch_bind_run _ _ _ _ _ _ (fetchDocument_absent _ _ H)).
  reflexivity.
Qed.

(** C4 fails on the code. On the update path and on the delete path
    alike, a document that is absent yields 404 and nothing else, so no
    replace is issued; but a document that is fetched, whatever its
    [deleted] flag, is never answered with 404 on either path:
    [replaceItem] does not make the test of the flag that [getOneItem]
    makes. *)
Theorem only_absent_is_not_found (w : world) (req : request) (id : value)
    (fetched : option obj) :
  lookupBy "id" id (collection w) = fetched ->
  match fetched with
  | None =>
      trace (snd (replaceItem req id w))
      = (trace w ++ [FetchDocument id; notFound])%list
      /\ trace (snd (deleteItem req id w))
         = (trace w ++ [FetchDocument id; notFound])%list
  | Some doc =>
      exists evs evs',
        trace (snd (replaceItem req id w))
        = (trace w ++ FetchDocument id :: evs)%list
        /\ Forall not404 evs
        /\ trace (snd (deleteItem req id w))
           = (trace w ++ FetchDocument id :: evs')%list
        /\ Forall not404 evs'
  end.
Proof.
  intros H. destruct fetched as [doc|].
  - destruct (trace_after_fetch _ _ _ id (fresh (dom (heap w))) doc w
                (replaceItem_found_not404 req id (fresh (dom (heap w)))))
      as (evs & Htr & Hevs).
    destruct (trace_after_fetch _ _ _ id (fresh (dom (heap w))) doc w
                (deleteItem_found_not404 (fresh (dom (heap w)))))
      as (evs' & Htr' & Hevs').
    exists evs, evs'. unfold replaceItem, deleteItem.
    rewrite !(detached_catch_bind_run _ _ _ _ _ _ (fetchDocument_found _ _ _ H)).
    repeat split; assumption.
  - rewrite (replaceItem_absent _ _ _ H), (deleteItem_absent _ _ _ H).
    cbn [snd trace log set_status]. rewrite <- !app_assoc. split; reflexivity.
Qed.

Lemma only_absent_is_not_found_witness :
  exists evs evs',
    trace (snd (replaceItem (requestOn "PUT") (VStr "1")
                  (arrival edit [removed])))
    = (FetchDocument (VStr "1") :: evs)%list
    /\ Forall not404 evs
    /\ trace (snd (deleteItem (requestOn "DELETE") (VStr "1")
                     (arrival edit [removed])))
       = (FetchDocument (VStr "1") :: evs')%list
    /\ Forall not404 evs'.
Proof.
  destruct (only_absent_is_not_found (arrival edit [removed])
              (requestOn "PUT") (VStr "1") (Some removed) eq_refl)
    as (evs & evs' & H1 & H2 & _).
  destruct (only_absent_is_not_found (arrival edit [removed])
              (requestOn "DELETE") (VStr "1") (Some removed) eq_refl)
    as (evs0 & evs0' & _ & _ & H3 & H4).
  exists evs, evs0'. repeat split; assumption.
Defined.

(** On the update path: a PUT on a document whose [deleted] flag is set
    issues the replace and is answered 200. *)
Lemma replaceItem_of_removed_document :
  lookupBy "id" (VStr "1") [removed] = Some removed
  /\ removed !! "deleted" = Some (VBool true)
  /\ exists item b,
       trace (snd (replaceItem (requestOn "PUT") (VStr "1")
                     (arrival edit [removed])))
       = [FetchDocument (VStr "1");
          ReplaceDocument (VStr "dbs/AzureMobile/colls/todoitem/docs/0") item;
          Sent (VNum 200) b]%list.
Proof.
  split; [reflexivity|]. split; [reflexivity|].
  do 2 eexists. vm_compute. reflexivity.
Qed.

(** ** The concurrency checks of [replaceItem] *)

Lemma detached_catch_normal (m : M unit) h w w' :
  m w = (Normal tt, w') -> detached (catch m h) w = (Normal tt, w').
Proof. intros H. apply detached_normal, (catch_normal _ _ _ _ _ H). Qed.

Lemma detached_catch_throw (m : M unit) h w e w' :
  m w = (Throw e, w') -> detached (catch m h) w = detached (h e) w'.
Proof. intros H. unfold detached, catch. now rewrite H. Qed.

Lemma detached_catch_congr (m m' : M unit) h w w' :
  m w = m' w' -> detached (catch m h) w = detached (catch m' h) w'.
Proof. intros H. unfold detached, catch. now rewrite H. Qed.

Lemma detached_catch_detached (m : M unit) h w :
  detached (catch (detached m) h) w = detached m w.
Proof.
  unfold detached, catch. destruct (m w) as [[[]|e|] w']; reflexivity.
Qed.

(** The replace call is made with the link and the object as it is at
    the call, whatever the store then answers. *)
Lemma replace_chain_trace docLink item o w :
  heap w !! item = Some o ->
  exists rest,
    trace (snd (detached
                  (updatedDocument <- replaceDocument docLink item ;;
                   respondItem 200 updatedDocument) w))
    = (trace w ++ ReplaceDocument docLink o :: rest)%list.
Proof.
  intros Ho.
  assert (Hcall : exists c w1,
             replaceDocument docLink item w = (c, w1)
             /\ trace w1 = (trace w ++ [ReplaceDocument docLink o])%list).
  { unfold replaceDocument.
    rewrite (bind_run _ _ _ _ _ (deref_run _ _ _ Ho)).
    erewrite bind_run by reflexivity.
    destruct docLink; try (do 2 eexists; split; reflexivity).
    cbn [collection log].
    destruct (lookupBy "_self" (VStr s) (collection w));
      do 2 eexists; split; reflexivity. }
  destruct Hcall as (c & w1 & Hcall & Htr).
  unfold detached, catch, bind. rewrite Hcall.
  destruct c as [l'|e|].
  - destruct (appends_respondItem (fun _ => True) 200 l' (fun _ => I) w1)
      as [(evs & Hevs & _) _].
    destruct (respondItem 200 l' w1) as [[[]|e|] w2]; cbn [snd] in Hevs;
      [exists evs|exists (evs ++ [UnhandledRejection e])%list|exists evs];
      unfold emit; cbn [snd trace log];
      rewrite Hevs, Htr, <- ?app_assoc; reflexivity.
  - exists [UnhandledRejection e]%list. unfold emit. cbn [snd trace log].
    rewrite Htr, <- app_assoc. reflexivity.
  - exists []%list. cbn [snd]. exact Htr.
Qed.

Section replace.
Variables (w : world) (req : request) (id : value).
Variables (doc body : obj) (etag : string).
Hypothesis Hdoc : lookupBy "id" id (collection w) = Some doc.
Hypothesis Hetag : doc !! "_etag" = Some (VStr etag).
Hypothesis Hbody : heap w !! reqBody req = Some body.

Let l : loc := fresh (dom (heap w)).
Let fetched : world := put l doc (log (FetchDocument id) w).

Local Lemma fetched_doc : heap fetched !! l = Some doc.
Proof using Type. apply heap_put. Qed.

Local Lemma fetched_body : heap fetched !! reqBody req = Some body.
Proof using Hbody.
  unfold fetched. rewrite heap_put_ne by exact (fresh_heap _ _ _ Hbody).
  exact Hbody.
Qed.

Local Ltac enter :=
  unfold replaceItem;
  rewrite (detached_catch_bind_run _ _ _ _ _ _
             (fetchDocument_found _ _ _ Hdoc));
  fold l fetched; pose proof fetched_doc; pose proof fetched_body.

Local Ltac version :=
  exec; rewrite (get_Some _ _ _ Hetag); cbn [bufferToBase64]; exec.

(** The body names another item: 400, whatever the versions. *)
Lemma replaceItem_id_mismatch :
  get body "id" <> id ->
  replaceItem req id w
  = (Normal tt,
     log (Sent (VNum 400) (Json {[ "error" := VStr "Id does not match" ]}))
       (set_status (VNum 400) fetched)).
Proof using Hdoc Hetag Hbody.
  intros Hid. enter. apply detached_catch_normal. version.
  unfold strict_equal. rewrite bool_decide_eq_false_2 by exact Hid.
  reflexivity.
Qed.

Hypothesis Hid : get body "id" = id.

Local Ltac same_id :=
  version; unfold strict_equal at 1;
  rewrite (bool_decide_eq_true_2 _ Hid); cbn [negb].

(** An [if-match] header, where [req.header] is a function: it has no
    property of that name, and the check fails whatever the header. *)
Lemma replaceItem_if_match f item :
  hasOwnProperty (headers req) "if-match" = true ->
  header req = Some f ->
  f !! "if-match" = None ->
  convertObj doc = (Normal tt, item) ->
  replaceItem req id w
  = (Normal tt,
     log (Sent (VNum 412) (Json item))
       (put l item (set_status (VNum 412) fetched))).
Proof using Hdoc Hetag Hbody Hid.
  intros Hhas Hf Hprop Hconv. enter. apply detached_catch_normal. same_id.
  rewrite Hhas. unfold headerProp. rewrite Hf. exec.
  rewrite (get_None _ _ Hprop).
  unfold strict_equal. rewrite bool_decide_eq_false_2 by discriminate.
  cbn [negb]. apply (respondItem_run _ _ doc); [apply fetched_doc|exact Hconv].
Qed.

(** An [if-match] header, where [req.header] is not defined: reading
    the property fails, and the failure reaches no response. *)
Lemma replaceItem_if_match_undefined :
  hasOwnProperty (headers req) "if-match" = true ->
  header req = None ->
  replaceItem req id w
  = (Normal tt,
     log (UnhandledRejection
            (SyntaxError "Unexpected token u in JSON at position 0"))
       (set_status VUndefined fetched)).
Proof using Hdoc Hetag Hbody Hid.
  intros Hhas Hf. enter.
  etransitivity.
  { apply (detached_catch_throw _ _ _
             (TypeError "Cannot read property 'if-match' of undefined")
             fetched).
    same_id. rewrite Hhas. unfold headerProp. rewrite Hf. exec.
    reflexivity. }
  reflexivity.
Qed.

Hypothesis Hnone : headers req !! "if-match" = None.

Local Ltac no_header :=
  same_id; rewrite (hasOwnProperty_None _ _ Hnone); exec.

(** A body that has a property named [hasOwnProperty]: the call of
    line 391 fails whatever the versions, the failure reaches no
    response, and nothing is asked of the store. *)
Lemma replaceItem_hidden_method v :
  body !! "hasOwnProperty" = Some v ->
  replaceItem req id w
  = (Normal tt,
     log (UnhandledRejection
            (SyntaxError "Unexpected token u in JSON at position 0"))
       (set_status VUndefined fetched)).
Proof using Hdoc Hetag Hbody Hid Hnone.
  intros Hown. enter.
  etransitivity.
  { apply (detached_catch_throw _ _ _
             (TypeError "item.hasOwnProperty is not a function") fetched).
    no_header.
    erewrite bind_throw
      by (eapply callHasOwnProperty_hidden; eassumption).
    reflexivity. }
  reflexivity.
Qed.

Hypothesis Hplain : body !! "hasOwnProperty" = None.

(** A body version that is not the current one: 409 and the current
    item, and nothing is asked of the store. *)
Lemma replaceItem_stale v item :
  body !! "version" = Some v ->
  v <> VStr (encodeVersion etag) ->
  convertObj doc = (Normal tt, item) ->
  replaceItem req id w
  = (Normal tt,
     log (Sent (VNum 409) (Json item))
       (put l item (set_status (VNum 409) fetched))).
Proof using Hdoc Hetag Hbody Hid Hnone Hplain.
  intros Hv Hne Hconv. enter. apply detached_catch_normal. no_header.
  rewrite (hasOwnProperty_Some _ _ _ Hv). exec.
  rewrite (get_Some _ _ _ Hv).
  unfold strict_equal. rewrite bool_decide_eq_false_2 by exact Hne.
  cbn [negb]. apply (respondItem_run _ _ doc); [apply fetched_doc|exact Hconv].
Qed.

(** No body version, or the current one: the replace is issued, with
    the link of the fetched document and the body less [updatedAt] and
    [version]. *)
Lemma replaceItem_proceeds :
  body !! "version" = None
  \/ body !! "version" = Some (VStr (encodeVersion etag)) ->
  exists rest,
    trace (snd (replaceItem req id w))
    = (trace w ++ FetchDocument id
         :: ReplaceDocument (get doc "_self")
              (delete "version" (delete "updatedAt" body))
         :: rest)%list.
Proof using Hdoc Hetag Hbody Hid Hnone Hplain.
  intros Hv. enter.
  set (item := delete "version" (delete "updatedAt" body)).
  assert (Hlb : reqBody req <> l)
    by (apply not_eq_sym, (fresh_heap _ _ _ Hbody)).
  erewrite (detached_catch_congr _
              (detached
                 (updatedDocument <-
                    replaceDocument (get doc "_self") (reqBody req) ;;
                  respondItem 200 updatedDocument))
              _ _ (put (reqBody req) item fetched)).
  - rewrite detached_catch_detached.
    destruct (replace_chain_trace (get doc "_self") (reqBody req) item
                (put (reqBody req) item fetched) (heap_put _ _ _))
      as (rest & Hrest).
    exists rest. rewrite Hrest. unfold fetched.
    cbn [trace put set_heap log]. now rewrite <- app_assoc.
  - no_header.
    assert (Hgo : forall k : bool -> M unit,
               bind (if hasOwnProperty body "version"
                     then itemVersion <- getProp (reqBody req) "version" ;;
                          ret (negb (strict_equal itemVersion
                                       (VStr (encodeVersion etag))))
                     else ret false) k fetched
               = k false fetched).
    { intros k. destruct Hv as [Hv|Hv].
      - rewrite (hasOwnProperty_None _ _ Hv). reflexivity.
      - rewrite (hasOwnProperty_Some _ _ _ Hv). exec.
        rewrite (get_Some _ _ _ Hv). unfold strict_equal.
        rewrite bool_decide_eq_true_2 by reflexivity. reflexivity. }
    rewrite Hgo. exec.
    erewrite bind_run
      by (eapply getProp_run; rewrite heap_put_ne by exact Hlb;
          apply fetched_doc).
    reflexivity.
Qed.
End replace.

Lemma trace_fetched (e : event) l doc id w :
  trace (log e (put l doc (log (FetchDocument id) w)))
  = (trace w ++ [FetchDocument id; e])%list.
Proof. cbn [trace log put set_heap]. now rewrite <- app_assoc. Qed.

(** C2, as amended. A request that reaches the version check (a
    document that has [_ts] and a string for [_etag] is fetched, and the
    body names the item of the path), that has no [if-match] header and
    whose body has no property named [hasOwnProperty]: a body version
    that differs from the version derived from the fetched document
    yields 409 with the current item, and no replace is issued; a body
    without version is unconditional, and the replace is issued, with
    the link of the fetched document and the body less [updatedAt]. *)
Theorem replaceItem_body_version (w : world) (req : request) (id : value)
    (doc body : obj) (ts : value) (etag : string) :
  lookupBy "id" id (collection w) = Some doc ->
  doc !! "_ts" = Some ts ->
  doc !! "_etag" = Some (VStr etag) ->
  heap w !! reqBody req = Some body ->
  get body "id" = id ->
  headers req !! "if-match" = None ->
  body !! "hasOwnProperty" = None ->
  (forall v,
      body !! "version" = Some v -> v <> VStr (encodeVersion etag) ->
      trace (snd (replaceItem req id w))
      = (trace w ++ [FetchDocument id;
                     Sent (VNum 409) (Json (snd (convertObj doc)))])%list)
  /\ (body !! "version" = None ->
      exists rest,
        trace (snd (replaceItem req id w))
        = (trace w ++ FetchDocument id
             :: ReplaceDocument (get doc "_self") (delete "updatedAt" body)
             :: rest)%list).
Proof.
  intros Hdoc Hts Hetag Hbody Hid Hnone Hplain. split.
  - intros v Hv Hne.
    rewrite (replaceItem_stale w req id doc body etag Hdoc Hetag Hbody Hid
               Hnone Hplain v _ Hv Hne (convertObj_store _ _ _ Hts Hetag)).
    rewrite (convertObj_store _ _ _ Hts Hetag). cbn [snd].
    apply trace_fetched.
  - intros Hv.
    destruct (replaceItem_proceeds w req id doc body etag Hdoc Hetag Hbody
                Hid Hnone Hplain (or_introl Hv)) as (rest & Hrest).
    exists rest. rewrite Hrest.
    rewrite (delete_id (delete "updatedAt" body) "version")
      by (rewrite lookup_delete_ne by discriminate; exact Hv).
    reflexivity.
Qed.

Lemma replaceItem_body_version_witness :
  trace (snd (replaceItem (requestOn "PUT") (VStr "1")
                (arrival outdated [stored])))
  = [FetchDocument (VStr "1");
     Sent (VNum 409) (Json (snd (convertObj stored)))]%list
  /\ exists rest,
       trace (snd (replaceItem (requestOn "PUT") (VStr "1")
                     (arrival edit [stored])))
       = (FetchDocument (VStr "1")
            :: ReplaceDocument (VStr "dbs/AzureMobile/colls/todoitem/docs/0")
                 (delete "updatedAt" edit)
            :: rest)%list.
Proof.
  split.
  - apply (proj1 (replaceItem_body_version (arrival outdated [stored])
                    (requestOn "PUT") (VStr "1") stored outdated
                    (VNum 1500000000) "abc" eq_refl eq_refl eq_refl eq_refl
                    eq_refl eq_refl eq_refl) (VStr "c3RhbGU="));
      [reflexivity|discriminate].
  - apply (proj2 (replaceItem_body_version (arrival edit [stored])
                    (requestOn "PUT") (VStr "1") stored edit
                    (VNum 1500000000) "abc" eq_refl eq_refl eq_refl eq_refl
                    eq_refl eq_refl eq_refl)).
    reflexivity.
Defined.

(** The claim C2 fails where the header decides: a request whose
    [if-match] header and whose body both carry an older version is
    answered 412, on the header, and not 409. *)
Lemma replaceItem_header_first :
  headers preconditioned !! "if-match" = Some (VStr "c3RhbGU=")
  /\ outdated !! "version" = Some (VStr "c3RhbGU=")
  /\ VStr "c3RhbGU=" <> VStr (encodeVersion "abc")
  /\ trace (snd (replaceItem preconditioned (VStr "1")
                   (arrival outdated [stored])))
     = [FetchDocument (VStr "1");
        Sent (VNum 412) (Json (snd (convertObj stored)))]%list.
Proof.
  split; [reflexivity|]. split; [reflexivity|]. split; [discriminate|].
  vm_compute. reflexivity.
Qed.

(** A body that has a property named [hasOwnProperty] stops the handler
    at the version check: the replacement by [shadowing], which carries
    no version, asks nothing of the store and is answered by nothing. *)
Example replaceItem_shadowing :
  trace (snd (replaceItem (requestOn "PUT") (VStr "1")
                (arrival shadowing [stored])))
  = silence (VStr "1").
Proof. vm_compute. reflexivity. Qed.

(** C3 fails on the code. An [if-match] header is compared through
    [req.header], which is not the header table. Where [req.header] is a
    function, it has no property of that name, the comparison fails
    whatever the header holds, and the request is answered 412 with the
    current item even when the header is the current version; where
    [req.header] is not defined, reading it throws and nothing is
    answered. In no case is the replace issued. *)
Theorem if_match_always_fails (w : world) (req : request) (id : value)
    (doc body : obj) (ts ifMatch : value) (etag : string) :
  lookupBy "id" id (collection w) = Some doc ->
  doc !! "_ts" = Some ts ->
  doc !! "_etag" = Some (VStr etag) ->
  heap w !! reqBody req = Some body ->
  get body "id" = id ->
  headers req !! "if-match" = Some ifMatch ->
  (forall f, header req = Some f -> f !! "if-match" = None) ->
  trace (snd (replaceItem req id w))
  = (trace w ++
     [FetchDocument id;
      match header req with
      | Some _ => Sent (VNum 412) (Json (snd (convertObj doc)))
      | None =>
          UnhandledRejection
            (SyntaxError "Unexpected token u in JSON at position 0")
      end])%list.
Proof.
  intros Hdoc Hts Hetag Hbody Hid Hh Hprop.
  destruct (header req) as [f|] eqn:Hf.
  - rewrite (replaceItem_if_match w req id doc body etag Hdoc Hetag Hbody Hid
               f _ (hasOwnProperty_Some _ _ _ Hh) Hf (Hprop f eq_refl)
               (convertObj_store _ _ _ Hts Hetag)).
    rewrite (convertObj_store _ _ _ Hts Hetag). cbn [snd].
    apply trace_fetched.
  - rewrite (replaceItem_if_match_undefined w req id doc body etag Hdoc Hetag
               Hbody Hid (hasOwnProperty_Some _ _ _ Hh) Hf).
    cbn [snd trace log put set_heap set_status].
    now rewrite <- app_assoc.
Qed.

Lemma if_match_always_fails_witness :
  headers conditional !! "if-match" = Some (VStr (encodeVersion "abc"))
  /\ trace (snd (replaceItem conditional (VStr "1") (arrival edit [stored])))
     = [FetchDocument (VStr "1");
        Sent (VNum 412) (Json (snd (convertObj stored)))]%list.
Proof.
  split; [reflexivity|].
  apply (if_match_always_fails (arrival edit [stored]) conditional (VStr "1")
           stored edit (VNum 1500000000) (VStr "YWJj") "abc");
    try reflexivity.
  intros f Hf. injection Hf as <-. reflexivity.
Defined.

(** C9 fails on the code. [convertItem] leaves [createdAt] as it is,
    and [insertItem] sets it itself, whatever the client sent; but
    [replaceItem] takes from the body [updatedAt] and [version] only: for
    every replace that passes the checks, what is handed to the store's
    replace call is the request body less these two, so that its
    [createdAt] is the one of the body, or none, whatever the stored
    one. *)
Theorem replace_hands_body_createdAt (w : world) (req : request) (id : value)
    (doc body : obj) (etag : string) :
  lookupBy "id" id (collection w) = Some doc ->
  doc !! "_etag" = Some (VStr etag) ->
  heap w !! reqBody req = Some body ->
  get body "id" = id ->
  headers req !! "if-match" = None ->
  body !! "hasOwnProperty" = None ->
  body !! "version" = None
  \/ body !! "version" = Some (VStr (encodeVersion etag)) ->
  snd (convertObj doc) !! "createdAt" = doc !! "createdAt"
  /\ exists rest,
       trace (snd (replaceItem req id w))
       = (trace w ++ FetchDocument id
            :: ReplaceDocument (get doc "_self")
                 (delete "version" (delete "updatedAt" body))
            :: rest)%list
       /\ delete "version" (delete "updatedAt" body) !! "createdAt"
          = body !! "createdAt".
Proof.
  intros Hdoc Hetag Hbody Hid Hnone Hplain Hv. split.
  - apply convertObj_frame. unfold metadata.
    rewrite !not_elem_of_cons. repeat split; try discriminate.
    apply not_elem_of_nil.
  - destruct (replaceItem_proceeds w req id doc body etag Hdoc Hetag Hbody
                Hid Hnone Hplain Hv) as (rest & Hrest).
    exists rest. split; [exact Hrest|].
    now rewrite !lookup_delete_ne by discriminate.
Qed.

Lemma replace_hands_body_createdAt_witness :
  stored !! "createdAt" = Some (VStr "2017-02-03T10:20:30.456Z")
  /\ exists rest,
       trace (snd (replaceItem (requestOn "PUT") (VStr "1")
                     (arrival backdated [stored])))
       = (FetchDocument (VStr "1")
            :: ReplaceDocument (VStr "dbs/AzureMobile/colls/todoitem/docs/0")
                 (delete "version" (delete "updatedAt" backdated))
            :: rest)%list
       /\ delete "version" (delete "updatedAt" backdated) !! "createdAt"
          = Some (VStr "1999-01-01T00:00:00.000Z").
Proof.
  split; [reflexivity|].
  apply (replace_hands_body_createdAt (arrival backdated [stored])
           (requestOn "PUT") (VStr "1") stored backdated "abc");
    first [reflexivity | left; reflexivity].
Defined.

(** ** Reading one item and deleting it *)

Lemma getOneItem_found req id w doc item :
  lookupBy "id" id (collection w) = Some doc ->
  get doc "deleted" <> VBool true ->
  convertObj doc = (Normal tt, item) ->
  trace (snd (getOneItem req id w))
  = (trace w ++ [FetchDocument id; Sent (VNum 200) (Json item)])%list.
Proof.
  intros Hdoc Hdel Hconv. unfold getOneItem.
  rewrite (detached_catch_bind_run _ _ _ _ _ _ (fetchDocument_found _ _ _ Hdoc)).
  erewrite detached_catch_normal; cycle 1.
  { exec. unfold strict_equal. rewrite bool_decide_eq_false_2 by exact Hdel.
    apply (respondItem_run _ _ doc); [apply heap_put|exact Hconv]. }
  cbn [snd trace log put set_heap set_status]. now rewrite <- app_assoc.
Qed.

(** A fetched document whose [deleted] flag is set is answered 404. *)
Lemma getOneItem_deleted req id w doc :
  lookupBy "id" id (collection w) = Some doc ->
  doc !! "deleted" = Some (VBool true) ->
  trace (snd (getOneItem req id w))
  = (trace w ++ [FetchDocument id; notFound])%list.
Proof.
  intros Hdoc Hdel. unfold getOneItem.
  rewrite (detached_catch_bind_run _ _ _ _ _ _ (fetchDocument_found _ _ _ Hdoc)).
  erewrite detached_catch_normal; cycle 1.
  { exec. rewrite (get_Some _ _ _ Hdel). unfold strict_equal.
    rewrite bool_decide_eq_true_2 by reflexivity. reflexivity. }
  cbn [snd trace log put set_heap set_status]. now rewrite <- app_assoc.
Qed.

(** C5 fails on the code. The replace call of [deleteItem] carries no
    link, so the collection is what it was: the stored document is not
    marked, the DELETE is answered by nothing, and a GET of the same item
    is still answered 200. *)
Theorem deleteItem_replaces_nothing (w : world) (req : request) (id : value)
    (doc : obj) (ts : value) (etag : string) :
  lookupBy "id" id (collection w) = Some doc ->
  doc !! "_ts" = Some ts ->
  doc !! "_etag" = Some (VStr etag) ->
  get doc "deleted" <> VBool true ->
  let w' := snd (deleteItem req id w) in
  collection w' = collection w
  /\ (forall s b, Sent s b ∉ drop (length (trace w)) (trace w'))
  /\ trace (snd (getOneItem req id w'))
     = (trace w' ++ [FetchDocument id;
                     Sent (VNum 200) (Json (snd (convertObj doc)))])%list.
Proof.
  intros Hdoc Hts Hetag Hdel w'. subst w'.
  rewrite (deleteItem_run req _ _ _ _ _ Hdoc Hts Hetag). cbn [snd].
  split; [reflexivity|]. split.
  - intros s b. cbn [trace log put set_heap].
    rewrite <- !app_assoc, drop_app_length. cbn [app].
    rewrite !elem_of_cons, elem_of_nil.
    intros [H|[H|[H|[]]]]; discriminate H.
  - apply (getOneItem_found _ _ _ doc); [exact Hdoc|exact Hdel|].
    rewrite (convertObj_store _ _ _ Hts Hetag). reflexivity.
Qed.

Lemma deleteItem_replaces_nothing_witness :
  let w' := snd (deleteItem (requestOn "DELETE") (VStr "1")
                   (arrival ∅ [stored])) in
  collection w' = [stored]
  /\ (forall s b, Sent s b ∉ trace w')
  /\ trace (snd (getOneItem (requestOn "DELETE") (VStr "1") w'))
     = (trace w' ++ [FetchDocument (VStr "1");
                     Sent (VNum 200) (Json (snd (convertObj stored)))])%list.
Proof.
  apply (deleteItem_replaces_nothing (arrival ∅ [stored])
           (requestOn "DELETE") (VStr "1") stored (VNum 1500000000) "abc");
    first [reflexivity | discriminate].
Defined.

(** ** Inserting an item *)

Lemma appends_onError_any e :
  appends (fun _ => True) (fun _ => True) (onError e).
Proof.
  intros w. split; [|trivial].
  destruct e;
    first [ exists []%list; rewrite app_nil_r; split; [reflexivity|constructor]
          | eexists [_]%list; split; [reflexivity|repeat constructor] ].
Qed.

(** The create call is made with the object as it is at the call,
    whatever the store then answers. *)
Lemma create_chain_trace item o w :
  heap w !! item = Some o ->
  exists rest,
    trace (snd (detached
                  (catch
                     (document <- createDocument item ;;
                      respondItem 201 document)
                     onError) w))
    = (trace w ++ CreateDocument o :: rest)%list.
Proof.
  intros Ho.
  assert (Hcall : exists c w1,
             createDocument item w = (c, w1)
             /\ trace w1 = (trace w ++ [CreateDocument o])%list).
  { unfold createDocument.
    rewrite (bind_run _ _ _ _ _ (deref_run _ _ _ Ho)).
    erewrite bind_run by reflexivity.
    cbn [collection log writes].
    destruct (o !! "id") as [[| | | |s|]|];
      try (do 2 eexists; split; reflexivity).
    destruct (lookupBy "id" (VStr s) (collection w));
      do 2 eexists; split; reflexivity. }
  destruct Hcall as (c & w1 & Hcall & Htr).
  assert (Hrest : appends (fun _ => True) (fun _ => True)
                    (detached
                       (catch
                          (document <- lift c ;; respondItem 201 document)
                          onError))).
  { apply (appends_detached _ (fun _ => True)); [|trivial].
    apply (appends_catch _ (fun _ => True));
      [|intros; apply appends_onError_any].
    apply appends_bind; [now apply appends_lift|].
    intros l'. eapply appends_weaken;
      [apply appends_respondItem; trivial|trivial]. }
  destruct (Hrest w1) as [(evs & Hevs & _) _].
  exists evs.
  rewrite (detached_catch_congr _
             (document <- lift c ;; respondItem 201 document) _ _ w1).
  - rewrite Hevs, Htr, <- app_assoc. reflexivity.
  - unfold bind at 1. rewrite Hcall. rewrite lift_run.
    now destruct c.
Qed.

(** The document [insertItem] hands to the store. *)
Lemma insertItem_creates req w body :
  heap w !! reqBody req = Some body ->
  let now :=
    match Moment.toISOString (clock w) with
    | Some s => VStr s
    | None => VOther
    end in
  let dated :=
    delete "version" (delete "updatedAt" (<["createdAt" := now]> body)) in
  exists rest,
    trace (snd (insertItem req w))
    = (trace w ++ CreateDocument
                    (if hasOwnProperty body "deleted" then dated
                     else <["deleted" := VBool false]> dated) :: rest)%list.
Proof.
  intros Hbody now dated. unfold insertItem.
  erewrite bind_run by reflexivity. fold now. exec. fold dated.
  assert (Hhas : hasOwnProperty dated "deleted" = hasOwnProperty body "deleted").
  { unfold hasOwnProperty, dated.
    now rewrite !lookup_delete_ne, lookup_insert_ne by discriminate. }
  rewrite Hhas. destruct (hasOwnProperty body "deleted"); exec.
  - destruct (create_chain_trace (reqBody req) dated (put (reqBody req) dated w)
                (heap_put _ _ _)) as (rest & Hrest).
    exists rest. exact Hrest.
  - destruct (create_chain_trace (reqBody req) (<["deleted" := VBool false]> dated)
                (put (reqBody req) (<["deleted" := VBool false]> dated) w)
                (heap_put _ _ _)) as (rest & Hrest).
    exists rest. exact Hrest.
Qed.



(** A body without [deleted] is stored with [deleted] false. *)
Lemma insertItem_defaults_deleted (w : world) (req : request) (body : obj) :
  heap w !! reqBody req = Some body ->
  body !! "deleted" = None ->
  exists item rest,
    trace (snd (insertItem req w))
    = (trace w ++ CreateDocument item :: rest)%list
    /\ item !! "deleted" = Some (VBool false).
Proof.
  intros Hbody Hflag.
  destruct (insertItem_creates req w body Hbody) as (rest & Hrest).
  rewrite (hasOwnProperty_None _ _ Hflag) in Hrest.
  eexists _, rest. split; [exact Hrest|apply lookup_insert_eq].
Qed.

(** ** The filter rewriting script *)

Lemma count_app c a b : count c (a ++ b) = (count c a + count c b)%nat.
Proof.
  induction a as [|x a IH]; [reflexivity|].
  rewrite append_cons. cbn [count]. rewrite IH. lia.
Qed.

Lemma count_le_length c s : (count c s <= String.length s)%nat.
Proof.
  induction s as [|x s IH]; cbn [count String.length]; [lia|].
  destruct (Ascii.eqb x c); lia.
Qed.

Lemma strip_prefix_spec p s r : strip_prefix p s = Some r -> s = p ++ r.
Proof.
  revert s. induction p as [|c p IH]; intros s H; cbn [strip_prefix] in H.
  - now injection H as ->.
  - destruct s as [|x s]; [discriminate|].
    destruct (Ascii.eqb_spec x c) as [->|]; [|discriminate].
    rewrite append_cons. f_equal. now apply IH.
Qed.

Lemma strip_prefix_app p r : strip_prefix p (p ++ r) = Some r.
Proof.
  induction p as [|c p IH]; [reflexivity|].
  rewrite append_cons. cbn [strip_prefix]. now rewrite Ascii.eqb_refl.
Qed.

Lemma span_spec p s a b :
  span p s = (a, b) ->
  s = a ++ b /\ forall x, p x = false -> count x a = 0%nat.
Proof.
  revert a b. induction s as [|c s IH]; intros a b H; cbn [span] in H.
  - injection H as <- <-. split; reflexivity.
  - destruct (p c) eqn:Hc.
    + destruct (span p s) as [a' b'] eqn:E. injection H as <- <-.
      destruct (IH a' b' eq_refl) as [-> Hcount].
      split; [reflexivity|]. intros x Hx. cbn [count].
      rewrite (Hcount x Hx).
      destruct (Ascii.eqb_spec c x) as [->|]; [congruence|reflexivity].
    + injection H as <- <-. split; reflexivity.
Qed.

(** A match at the front of [s] is the text of a clause, and its
    operator holds no capital. *)
Lemma match_here_spec s op lit :
  match_here s = Some (op, lit) ->
  (exists rest, s = matched_text op lit ++ rest)
  /\ count "A" op = 0%nat.
Proof.
  unfold match_here. intros H.
  destruct (strip_prefix "updatedAt " s) as [s1|] eqn:E1;
    cbn [mbind option_bind] in H; [|discriminate].
  destruct (span is_lower s1) as [op' s2] eqn:E2.
  destruct (String.eqb op' ""); [discriminate|].
  destruct (strip_prefix " '" s2) as [s3|] eqn:E3;
    cbn [mbind option_bind] in H; [|discriminate].
  destruct (span not_quote s3) as [lit' s4] eqn:E4.
  destruct (String.eqb lit' ""); [discriminate|].
  destruct (strip_prefix "'" s4) as [s5|] eqn:E5;
    cbn [mbind option_bind] in H; [|discriminate].
  injection H as <- <-.
  apply strip_prefix_spec in E1, E3, E5.
  apply span_spec in E2 as [E2 Hop]. apply span_spec in E4 as [E4 _].
  split; [|now apply Hop].
  exists s5. subst s s1 s2 s3 s4. unfold matched_text.
  now rewrite !append_assoc.
Qed.

Lemma exec_spec s whole op lit :
  exec s = Some (whole, op, lit) ->
  whole = matched_text op lit
  /\ count "A" op = 0%nat
  /\ exists pre post, s = pre ++ whole ++ post.
Proof.
  induction s as [|c s IH]; intros H.
  - cbn [exec] in H. destruct (match_here "") as [[op' lit']|] eqn:E;
      [|discriminate].
    injection H as <- <- <-.
    destruct (match_here_spec _ _ _ E) as [[rest Hrest] Hop].
    split; [reflexivity|]. split; [exact Hop|]. now exists "", rest.
  - cbn [exec] in H.
    destruct (match_here (String c s)) as [[op' lit']|] eqn:E.
    + injection H as <- <- <-.
      destruct (match_here_spec _ _ _ E) as [[rest Hrest] Hop].
      split; [reflexivity|]. split; [exact Hop|]. now exists "", rest.
    + destruct (IH H) as (Hw & Hop & pre & post & ->).
      split; [exact Hw|]. split; [exact Hop|].
      now exists (String c pre), post.
Qed.

Lemma replace_unfold pat new s :
  replace pat new s =
  match strip_prefix pat s with
  | Some rest => new ++ rest
  | None =>
      match s with
      | String c r => String c (replace pat new r)
      | EmptyString => EmptyString
      end
  end.
Proof. destruct s; reflexivity. Qed.

(** [replace] substitutes an occurrence of the pattern. *)
Lemma replace_spec pat new pre post :
  exists pre' post',
    pre ++ pat ++ post = pre' ++ pat ++ post'
    /\ replace pat new (pre ++ pat ++ post) = pre' ++ new ++ post'.
Proof.
  induction pre as [|c pre IH].
  - exists "", post. rewrite replace_unfold, !append_nil_l.
    now rewrite strip_prefix_app.
  - rewrite replace_unfold.
    destruct (strip_prefix pat (String c pre ++ pat ++ post)) as [rest|] eqn:E.
    + exists "", rest. rewrite !append_nil_l.
      split; [now apply strip_prefix_spec|reflexivity].
    + destruct IH as (pre' & post' & Heq & Hrep).
      exists (String c pre'), post'. rewrite !append_cons.
      split; [now f_equal|]. now rewrite Hrep.
Qed.

Lemma count_uint d : count "A" (NilEmpty.string_of_uint d) = 0%nat.
Proof. induction d; cbn [NilEmpty.string_of_uint count]; auto. Qed.

Lemma count_number z : count "A" (number_to_string z) = 0%nat.
Proof.
  unfold number_to_string, NilZero.string_of_int, NilZero.string_of_uint.
  destruct (Z.to_int z) as [d|d]; destruct d;
    try reflexivity; try apply count_uint;
    cbn [count]; apply count_uint.
Qed.

Lemma count_newString utcOffset op lit :
  count "A" op = 0%nat -> count "A" (newString utcOffset op lit) = 0%nat.
Proof.
  intros Hop. unfold newString, newDate. rewrite !count_app, Hop.
  destruct (encodeTimestamp utcOffset lit); [rewrite count_number|];
    reflexivity.
Qed.

Lemma count_matched op lit : (1 <= count "A" (matched_text op lit))%nat.
Proof.
  unfold matched_text. rewrite count_app.
  change (count "A" "updatedAt ") with 1%nat. lia.
Qed.

(** A turn of the loop removes a capital [A]. *)
Lemma count_turn utcOffset s whole op lit :
  exec s = Some (whole, op, lit) ->
  (count "A" (replace whole (newString utcOffset op lit) s)
   < count "A" s)%nat.
Proof.
  intros H. destruct (exec_spec _ _ _ _ H) as (-> & Hop & pre & post & ->).
  destruct (replace_spec (matched_text op lit) (newString utcOffset op lit)
              pre post) as (pre' & post' & Heq & ->).
  rewrite Heq, !count_app, (count_newString _ _ _ Hop).
  pose proof (count_matched op lit). lia.
Qed.

(** The loop ends within its fuel, and what it returns has no clause on
    [updatedAt] left. *)
Lemma rewriteLoop_total utcOffset fuel s :
  (count "A" s <= fuel)%nat ->
  exists r, rewriteLoop fuel utcOffset s = Some r /\ exec r = None.
Proof.
  revert s. induction fuel as [|k IH]; intros s Hfuel.
  - cbn [rewriteLoop]. destruct (exec s) as [[[whole op] lit]|] eqn:E.
    + pose proof (count_turn utcOffset _ _ _ _ E). lia.
    + now exists s.
  - cbn [rewriteLoop]. destruct (exec s) as [[[whole op] lit]|] eqn:E.
    + apply IH. pose proof (count_turn utcOffset _ _ _ _ E). lia.
    + now exists s.
Qed.

Lemma rewriteFilter_total utcOffset filter :
  exists r, rewriteFilter utcOffset filter = Some r /\ exec r = None.
Proof. apply rewriteLoop_total, count_le_length. Qed.

(** ** The filter made of clauses *)

Lemma get_count x s n : count x s = 0%nat -> String.get n s <> Some x.
Proof.
  revert n. induction s as [|c s IH]; intros n H; [now destruct n|].
  cbn [count] in H. destruct (Ascii.eqb_spec c x) as [->|Hne]; [lia|].
  destruct n as [|n]; cbn [String.get]; [congruence|].
  apply IH. lia.
Qed.

(** A plain text, once it has begun, cannot be the beginning of
    [updatedAt]: the capital would fall on it or on ["updated"]. *)
Lemma no_clause_inside p t :
  p <> "" -> plain p ->
  strip_prefix "updatedAt " (p ++ "updatedAt " ++ t) = None.
Proof.
  intros Hp Hplain.
  destruct (strip_prefix "updatedAt " (p ++ "updatedAt " ++ t))
    as [r|] eqn:E; [exfalso|reflexivity].
  apply strip_prefix_spec in E.
  assert (Hr : String.get 7 ("updatedAt " ++ r) = Some "A"%char)
    by (rewrite <- append_correct1 by (cbn; lia); reflexivity).
  rewrite <- E in Hr.
  destruct (Nat.lt_ge_cases 7 (String.length p)) as [Hlt|Hge].
  - rewrite <- append_correct1 in Hr by exact Hlt.
    now apply (get_count _ _ _ Hplain) in Hr.
  - assert (Hlen : (1 <= String.length p)%nat)
      by (destruct p; [contradiction|cbn; lia]).
    replace 7%nat with ((7 - String.length p) + String.length p)%nat in Hr
      by lia.
    rewrite <- append_correct2 in Hr.
    rewrite <- append_correct1 in Hr by (cbn; lia).
    assert (Hk : (7 - String.length p < 7)%nat) by lia.
    revert Hr Hk. generalize (7 - String.length p)%nat as k.
    intros k Hr Hk.
    do 7 (destruct k as [|k]; [discriminate Hr|]). lia.
Qed.

Lemma strip_prefix_app_none a b s :
  strip_prefix a s = None -> strip_prefix (a ++ b) s = None.
Proof.
  revert s. induction a as [|c a IH]; intros s H; [discriminate|].
  rewrite append_cons. cbn [strip_prefix] in *.
  destruct s as [|x s]; [reflexivity|].
  destruct (Ascii.eqb x c); [now apply IH|reflexivity].
Qed.

Lemma plain_app a b : plain (a ++ b) <-> plain a /\ plain b.
Proof. unfold plain. rewrite count_app. lia. Qed.

Lemma plain_cons c s : plain (String c s) -> plain s.
Proof. unfold plain. cbn [count]. lia. Qed.

Lemma all_count p s x : all p s = true -> p x = false -> count x s = 0%nat.
Proof.
  intros Hall Hx. induction s as [|c s IH]; [reflexivity|].
  cbn [all count] in *. apply andb_true_iff in Hall as [Hc Hs].
  rewrite (IH Hs).
  destruct (Ascii.eqb_spec c x) as [->|]; [congruence|reflexivity].
Qed.

(** The longest run of a text whose characters all satisfy [p], before a
    character that does not, is that text. *)
Lemma span_all p a c b :
  all p a = true -> p c = false ->
  span p (a ++ String c b) = (a, String c b).
Proof.
  intros Hall Hc. induction a as [|x a IH].
  - rewrite append_nil_l. cbn [span]. now rewrite Hc.
  - cbn [all] in Hall. apply andb_true_iff in Hall as [Hx Ha].
    rewrite append_cons. cbn [span]. now rewrite Hx, (IH Ha).
Qed.

Lemma eqb_empty s : s <> "" -> String.eqb s "" = false.
Proof. destruct s; [contradiction|reflexivity]. Qed.

Lemma match_here_clause op lit rest :
  op <> "" -> all is_lower op = true ->
  lit <> "" -> all not_quote lit = true ->
  match_here (matched_text op lit ++ rest) = Some (op, lit).
Proof.
  intros Hop Hlower Hlit Hquote. unfold match_here, matched_text.
  rewrite !append_assoc, strip_prefix_app. cbn [mbind option_bind].
  rewrite !append_cons, !append_nil_l.
  rewrite (span_all _ _ " "%char _ Hlower eq_refl), (eqb_empty _ Hop).
  cbn [strip_prefix Ascii.eqb Bool.eqb mbind option_bind].
  rewrite (span_all _ _ "'"%char _ Hquote eq_refl), (eqb_empty _ Hlit).
  reflexivity.
Qed.

Lemma match_here_inside p op lit rest :
  p <> "" -> plain p ->
  match_here (p ++ matched_text op lit ++ rest) = None.
Proof.
  intros Hp Hplain. unfold match_here, matched_text.
  rewrite !append_assoc, (no_clause_inside _ _ Hp Hplain). reflexivity.
Qed.

(** In front of a well-formed clause that comes after a plain text,
    [exec] finds that clause, and [replace] replaces it. *)
Lemma exec_clause pre op lit rest :
  plain pre ->
  op <> "" -> all is_lower op = true ->
  lit <> "" -> all not_quote lit = true ->
  exec (pre ++ matched_text op lit ++ rest)
  = Some (matched_text op lit, op, lit).
Proof.
  intros Hplain Hop Hlower Hlit Hquote. induction pre as [|c pre IH].
  - rewrite append_nil_l.
    pose proof (match_here_clause op lit rest Hop Hlower Hlit Hquote) as H.
    destruct (matched_text op lit ++ rest); cbn [exec]; now rewrite H.
  - pose proof (match_here_inside (String c pre) op lit rest
                  ltac:(discriminate) Hplain) as H.
    rewrite append_cons in *. cbn [exec]. rewrite H.
    apply IH, (plain_cons _ _ Hplain).
Qed.

Lemma replace_clause pre op lit new rest :
  plain pre ->
  replace (matched_text op lit) new (pre ++ matched_text op lit ++ rest)
  = pre ++ new ++ rest.
Proof.
  intros Hplain. induction pre as [|c pre IH].
  - rewrite !append_nil_l, replace_unfold. now rewrite strip_prefix_app.
  - rewrite replace_unfold.
    assert (H : strip_prefix (matched_text op lit)
                  (String c pre ++ matched_text op lit ++ rest) = None).
    { unfold matched_text at 1. apply strip_prefix_app_none.
      unfold matched_text. rewrite !append_assoc.
      now apply no_clause_inside. }
    rewrite H, !append_cons. f_equal. apply IH, (plain_cons _ _ Hplain).
Qed.

Lemma exec_plain s : plain s -> exec s = None.
Proof.
  intros Hplain. destruct (exec s) as [[[whole op] lit]|] eqn:E;
    [|reflexivity].
  destruct (exec_spec _ _ _ _ E) as (-> & _ & pre & post & ->).
  unfold plain in Hplain. rewrite !count_app in Hplain.
  pose proof (count_matched op lit). lia.
Qed.

Lemma plain_newString utcOffset op lit :
  all is_lower op = true -> plain (newString utcOffset op lit).
Proof.
  intros Hlower.
  apply count_newString, (all_count _ _ "A"%char Hlower eq_refl).
Qed.

Lemma rewriteLoop_clauses utcOffset clauses last :
  Forall clauseOk clauses -> plain last ->
  forall fuel pre,
    plain pre -> (length clauses <= fuel)%nat ->
    rewriteLoop fuel utcOffset (pre ++ filterOf clauses last)
    = Some (pre ++ rewrittenOf utcOffset clauses last).
Proof.
  intros Hok Hlast. induction Hok as [|[[before op] lit] r Hc Hr IH];
    intros fuel pre Hpre Hfuel.
  - cbn [filterOf rewrittenOf].
    assert (H : exec (pre ++ last) = None)
      by (apply exec_plain, plain_app; auto).
    destruct fuel; cbn [rewriteLoop]; now rewrite H.
  - destruct Hc as (Hbefore & Hop & Hlower & Hlit & Hquote).
    destruct fuel as [|fuel]; [cbn in Hfuel; lia|].
    cbn [filterOf rewrittenOf rewriteLoop].
    assert (Hpb : plain (pre ++ before)) by (apply plain_app; auto).
    rewrite <- (append_assoc pre before).
    rewrite (exec_clause _ _ _ _ Hpb Hop Hlower Hlit Hquote).
    rewrite (replace_clause _ _ _ _ _ Hpb).
    rewrite <- (append_assoc _ (newString utcOffset op lit)).
    rewrite IH.
    + now rewrite !append_assoc.
    + apply plain_app. split; [exact Hpb|now apply plain_newString].
    + cbn [length] in Hfuel. lia.
Qed.

Lemma length_append a b :
  String.length (a ++ b) = (String.length a + String.length b)%nat.
Proof.
  induction a as [|c a IH]; [reflexivity|].
  rewrite append_cons. cbn [String.length]. now rewrite IH.
Qed.

Lemma length_filterOf clauses last :
  Forall clauseOk clauses ->
  (length clauses <= String.length (filterOf clauses last))%nat.
Proof.
  induction 1 as [|[[before op] lit] r Hc Hr IH]; [cbn; lia|].
  cbn [filterOf length]. unfold matched_text.
  rewrite !length_append. cbn [String.length]. lia.
Qed.

(** The script rewrites every clause of a filter made of well-formed
    clauses: each becomes [_ts], its operator and the epoch seconds of its
    literal, and the text between the clauses is kept. *)
Theorem rewriteFilter_clauses utcOffset clauses last :
  Forall clauseOk clauses -> plain last ->
  rewriteFilter utcOffset (filterOf clauses last)
  = Some (rewrittenOf utcOffset clauses last).
Proof.
  intros Hok Hlast. unfold rewriteFilter.
  pose proof (rewriteLoop_clauses utcOffset clauses last Hok Hlast
                (String.length (filterOf clauses last)) ""
                eq_refl (length_filterOf _ _ Hok)) as H.
  now rewrite !append_nil_l in H.
Qed.

(** C6 fails on the code. The rewriting of [updatedAt] clauses exists in
    the script only: [getAllItems] hands the filter of the request to the
    query compiler as it came, and a filter with such a clause is not
    what the rewriting returns for it. *)
Theorem getAllItems_hands_filter_unrewritten (w : world) (req : request)
    (utcOffset : Z) (filter : string) :
  get (query req) "$filter" = VStr filter ->
  exec filter <> None ->
  (exists select b,
      trace (snd (getAllItems req w))
      = (trace w ++ [FromOData "todoitem" (VStr filter) select;
                     Sent (VNum 200) b])%list)
  /\ exists r,
       rewriteFilter utcOffset filter = Some r
       /\ exec r = None /\ r <> filter.
Proof.
  intros Hfilter Hclause. split.
  - unfold getAllItems. rewrite Hfilter. do 2 eexists.
    unfold bind, res_status, res_json, emit.
    cbn [snd trace log set_status status]. rewrite <- app_assoc. reflexivity.
  - destruct (rewriteFilter_total utcOffset filter) as (r & Hr & Hnone).
    exists r. split; [exact Hr|]. split; [exact Hnone|].
    intros ->. contradiction.
Qed.

Lemma getAllItems_hands_filter_unrewritten_witness :
  (exists select b,
      trace (snd (getAllItems listing (arrival ∅ [stored])))
      = [FromOData "todoitem" (VStr since) select; Sent (VNum 200) b]%list)
  /\ exists r,
       rewriteFilter 0 since = Some r /\ exec r = None /\ r <> since.
Proof.
  apply (getAllItems_hands_filter_unrewritten (arrival ∅ [stored]) listing
           0 since);
    [reflexivity|discriminate].
Defined.

(** What the script makes of the filter of the specification, and of a
    filter of two clauses. *)
Example rewriteFilter_since :
  rewriteFilter 0 since = Some "_ts ge 1486080000".
Proof. vm_compute. reflexivity. Qed.

Example rewriteFilter_between :
  rewriteFilter 0
    "updatedAt ge '2017-02-03T00:00:00.000' and updatedAt lt '2017-02-04T00:00:00.000Z' and title eq 'x'"
  = Some "_ts ge 1486080000 and _ts lt 1486166400 and title eq 'x'".
Proof. vm_compute. reflexivity. Qed.

(** ** Routing *)

(** The router hands a PUT to [replaceItem], a DELETE to [deleteItem], a
    POST to [insertItem] and a GET to [getOneItem] or to [getAllItems],
    with the item of the path. *)
Lemma tableRouter_routes (req : request) :
  (method req = "PUT" -> tableRouter req = replaceItem req (params_id req))
  /\ (method req = "DELETE" ->
      tableRouter req = deleteItem req (params_id req))
  /\ (method req = "POST" -> tableRouter req = insertItem req)
  /\ (method req = "GET" ->
      tableRouter req
      = if truthy (params_id req) then getOneItem req (params_id req)
        else getAllItems req).
Proof.
  unfold tableRouter. repeat split; intros ->; reflexivity.
Qed.

(** A request that no handler serves is answered 405. *)
Example tableRouter_patch :
  trace (snd (tableRouter (requestOn "PATCH") (arrival edit [stored])))
  = [Sent (VNum 405)
       (Json (<["message" := VStr "Method PATCH not supported"]>
                {[ "error" := VStr "Operation not supported" ]}))]%list.
Proof. vm_compute. reflexivity. Qed.

(** ** One response at most *)

Lemma responses_app (a b : list event) :
  responses (a ++ b) = (responses a + responses b)%nat.
Proof. induction a as [|e a IH]; [reflexivity|]. cbn. rewrite IH. lia. Qed.

Lemma responses_quiet (evs : list event) :
  Forall quiet evs -> responses evs = 0%nat.
Proof.
  induction 1 as [|e r He _ IH]; [reflexivity|].
  cbn. unfold quiet in He. now rewrite He, IH.
Qed.

Lemma quiet_unhandled e : quiet (UnhandledRejection e).
Proof. reflexivity. Qed.

Lemma answers_silent {A} (Q : exn -> Prop) (m : M A) :
  appends quiet Q m -> answers m.
Proof.
  intros Hm w. destruct (Hm w) as [(evs & Htr & Hevs) _].
  exists evs. split; [exact Htr|]. left. now apply responses_quiet.
Qed.

Lemma answers_bind {A B} (Q : exn -> Prop) (m : M A) (k : A -> M B) :
  appends quiet Q m -> (forall a, answers (k a)) -> answers (bind m k).
Proof.
  intros Hm Hk w. unfold bind.
  destruct (Hm w) as [(evs & Htr & Hevs) _].
  apply responses_quiet in Hevs.
  destruct (m w) as [[a|e|] w1] eqn:Em; cbn [fst snd] in *.
  - destruct (Hk a w1) as (evs' & Htr' & Hn).
    exists (evs ++ evs')%list. rewrite Htr', Htr, app_assoc.
    split; [reflexivity|]. rewrite responses_app, Hevs. exact Hn.
  - exists evs. auto.
  - exists evs. auto.
Qed.

Lemma answers_catch {A} (m : M A) (h : exn -> M A) :
  answers m -> (forall e, answers (h e)) -> answers (catch m h).
Proof.
  intros Hm Hh w. unfold catch.
  destruct (Hm w) as (evs & Htr & Hn).
  destruct (m w) as [[a|e|] w1] eqn:Em; cbn [fst snd] in *.
  - exists evs. split; [exact Htr|].
    destruct Hn as [Hn|[Hn _]]; [now left|right]. split; [exact Hn|discriminate].
  - destruct Hn as [Hn|[_ Hn]]; [|now destruct (Hn e)].
    destruct (Hh e w1) as (evs' & Htr' & Hn').
    exists (evs ++ evs')%list. rewrite Htr', Htr, app_assoc.
    split; [reflexivity|]. rewrite responses_app, Hn. exact Hn'.
  - exists evs. split; [exact Htr|].
    destruct Hn as [Hn|[Hn _]]; [now left|right]. split; [exact Hn|discriminate].
Qed.

Lemma answers_detached (m : M unit) : answers m -> answers (detached m).
Proof.
  intros Hm. apply answers_catch; [exact Hm|].
  intros e. apply (answers_silent (fun _ => True)).
  apply appends_emit, quiet_unhandled.
Qed.

Lemma answers_if {A} (b : bool) (m1 m2 : M A) :
  answers m1 -> answers m2 -> answers (if b then m1 else m2).
Proof. now destruct b. Qed.

(** A status and a body: one response. *)
Lemma answers_send v b : answers (res_status v ;;; res_json b).
Proof.
  intros w. eexists [_]%list. split; [reflexivity|].
  right. split; [reflexivity|discriminate].
Qed.

Lemma answers_respondError s message : answers (respondError s message).
Proof. apply answers_send. Qed.

Lemma answers_res_json b : answers (res_json b).
Proof.
  intros w. eexists [_]%list. split; [reflexivity|].
  right. split; [reflexivity|discriminate].
Qed.

Lemma answers_respondItem s l : answers (respondItem s l).
Proof.
  unfold respondItem.
  apply (answers_bind thrown); [apply appends_res_status|]. intros _.
  apply (answers_bind thrown); [apply appends_convertItem|]. intros item.
  apply (answers_bind thrown); [apply appends_deref|]. intros o.
  apply answers_res_json.
Qed.

Lemma answers_onError e : answers (onError e).
Proof.
  unfold onError.
  apply (answers_bind (fun _ => True)); [apply appends_res_status|]. intros _.
  apply (answers_bind (fun _ => True)); [|intros; apply answers_res_json].
  destruct e; first [apply appends_ret | now apply appends_throw].
Qed.

Lemma appends_fetchDocument (P : event -> Prop) Q id :
  P (FetchDocument id) -> appends P Q (fetchDocument id).
Proof.
  intros HP. unfold fetchDocument.
  apply appends_bind; [now apply appends_emit|]. intros _ w.
  destruct (lookupBy "id" id (collection w)) as [d|].
  - apply appends_bind; [apply appends_alloc|intros; apply appends_ret].
  - split; [|discriminate]. exists []%list. now rewrite app_nil_r.
Qed.

Lemma appends_createDocument (P : event -> Prop) item :
  (forall d, P (CreateDocument d)) ->
  appends P (fun _ => True) (createDocument item).
Proof.
  intros HP. unfold createDocument.
  apply appends_bind; [apply appends_deref|]. intros o.
  apply appends_bind; [now apply appends_emit|]. intros _.
  apply appends_silent; [|trivial]. intros w.
  destruct (o !! "id") as [[| | | |s|]|]; try reflexivity.
  destruct (lookupBy "id" (VStr s) (collection w)); reflexivity.
Qed.

(** The chain that ends [replaceItem] and [deleteItem]. *)
Lemma answers_replace_chain docLink item :
  answers
    (detached
       (updatedDocument <- replaceDocument docLink item ;;
        respondItem 200 updatedDocument)).
Proof.
  apply answers_detached.
  apply (answers_bind (fun _ => True));
    [now apply appends_replaceDocument|intros; apply answers_respondItem].
Qed.

Ltac quiet_step :=
  first
    [ solve [auto 1 with appends nocore]
    | apply appends_lift, thrown_bufferToBase64
    | apply appends_if
    | apply appends_bind; [|intro] ].

Ltac answers_step :=
  first
    [ apply answers_respondError
    | apply answers_respondItem
    | apply answers_replace_chain
    | apply answers_if
    | apply (answers_bind thrown); [solve [repeat quiet_step]|intro] ].

Lemma answers_getOneItem req id : answers (getOneItem req id).
Proof.
  unfold getOneItem. apply answers_detached.
  apply answers_catch; [|apply answers_onError].
  apply (answers_bind thrown); [now apply appends_fetchDocument|].
  intros [l|]; repeat answers_step.
Qed.

Lemma answers_getAllItems req : answers (getAllItems req).
Proof.
  unfold getAllItems.
  apply (answers_bind thrown); [now apply appends_emit|]. intros _.
  apply answers_send.
Qed.

Lemma answers_insertItem req : answers (insertItem req).
Proof.
  unfold insertItem.
  apply (answers_bind thrown).
  { apply appends_silent; [reflexivity|discriminate]. }
  intros now. repeat answers_step.
  apply answers_detached.
  apply answers_catch; [|apply answers_onError].
  apply (answers_bind (fun _ => True));
    [now apply appends_createDocument|intros; apply answers_respondItem].
Qed.

Lemma answers_replaceItem req id : answers (replaceItem req id).
Proof.
  unfold replaceItem. apply answers_detached.
  apply answers_catch; [|apply answers_onError].
  apply (answers_bind thrown); [now apply appends_fetchDocument|].
  intros [l|]; repeat answers_step.
Qed.

Lemma answers_deleteItem req id : answers (deleteItem req id).
Proof.
  unfold deleteItem. apply answers_detached.
  apply answers_catch; [|apply answers_onError].
  apply (answers_bind thrown); [now apply appends_fetchDocument|].
  intros [l|]; repeat answers_step.
Qed.

(** X1. Whatever the request and the state of the store, the router, once
    the driver is initialized, sends at most one response: what a request
    adds to the trace holds no two [Sent] events. *)
Theorem tableRouter_answers_once (req : request) (w : world) :
  exists evs,
    trace (snd (tableRouter req w)) = (trace w ++ evs)%list
    /\ (responses evs <= 1)%nat.
Proof.
  assert (H : answers (tableRouter req)).
  { unfold tableRouter.
    repeat apply answers_if;
      first [ apply answers_getOneItem | apply answers_getAllItems
            | apply answers_insertItem | apply answers_replaceItem
            | apply answers_deleteItem | apply answers_send ]. }
  destruct (H w) as (evs & Htr & Hn). exists evs. split; [exact Htr|].
  destruct Hn as [->|[-> _]]; lia.
Qed.

(** ** What a GET leaves alone *)

Lemma reading_ret {A} (a : A) : reading (ret a).
Proof. now intros w. Qed.

Lemma reading_same {A} (m : M A) :
  (forall w, collection (snd (m w)) = collection w) ->
  (forall w, writes (snd (m w)) = writes w) ->
  reading m.
Proof. intros Hc Hw w. auto. Qed.

Lemma reading_bind {A B} (m : M A) (k : A -> M B) :
  reading m -> (forall a, reading (k a)) -> reading (bind m k).
Proof.
  intros Hm Hk w. unfold bind. destruct (Hm w) as [Hc Hw].
  destruct (m w) as [[a|e|] w1]; cbn [snd] in *; auto.
  destruct (Hk a w1) as [Hc' Hw']. split; congruence.
Qed.

Lemma reading_catch {A} (m : M A) (h : exn -> M A) :
  reading m -> (forall e, reading (h e)) -> reading (catch m h).
Proof.
  intros Hm Hh w. unfold catch. destruct (Hm w) as [Hc Hw].
  destruct (m w) as [[a|e|] w1]; cbn [snd] in *; auto.
  destruct (Hh e w1) as [Hc' Hw']. split; congruence.
Qed.

Lemma reading_emit e : reading (emit e).
Proof. now intros w. Qed.

Lemma reading_deref l : reading (deref l).
Proof. intros w. unfold deref. now destruct (heap w !! l). Qed.

Lemma reading_update l f : reading (update l f).
Proof. intros w. unfold update. now destruct (heap w !! l). Qed.

Lemma reading_getProp l k : reading (getProp l k).
Proof. apply reading_bind; [apply reading_deref|intros; apply reading_ret]. Qed.

Lemma reading_convertItem l : reading (convertItem l).
Proof.
  intros w. destruct (heap w !! l) as [doc|] eqn:Hl.
  - rewrite (convertItem_run _ _ _ Hl). now destruct (fst (convertObj doc)).
  - assert (Hc : convertItem l w = (Unmodelled, w)).
    { unfold convertItem, hasOwn. rewrite !bind_assoc_run.
      apply bind_unmodelled. unfold deref. now rewrite Hl. }
    now rewrite Hc.
Qed.

Lemma reading_send v b : reading (res_status v ;;; res_json b).
Proof. now intros w. Qed.

Lemma reading_respondItem s l : reading (respondItem s l).
Proof.
  unfold respondItem.
  apply reading_bind; [now intros w|]. intros _.
  apply reading_bind; [apply reading_convertItem|]. intros item.
  apply reading_bind; [apply reading_deref|]. now intros o w.
Qed.

Lemma reading_onError e : reading (onError e).
Proof.
  unfold onError. apply reading_bind; [now intros w|]. intros _.
  apply reading_bind; [now destruct e|]. now intros b w.
Qed.

Lemma reading_fetchDocument id : reading (fetchDocument id).
Proof.
  unfold fetchDocument. apply reading_bind; [apply reading_emit|].
  intros _ w. cbn. now destruct (lookupBy "id" id (collection w)).
Qed.

Lemma reading_getOneItem req id : reading (getOneItem req id).
Proof.
  unfold getOneItem, detached.
  apply reading_catch; [|intros; apply reading_emit].
  apply reading_catch; [|apply reading_onError].
  apply reading_bind; [apply reading_fetchDocument|].
  intros [l|]; [|apply reading_send].
  apply reading_bind; [apply reading_getProp|]. intros deleted.
  destruct (strict_equal deleted (VBool true));
    [apply reading_send|apply reading_respondItem].
Qed.

Lemma appends_getOneItem (P : event -> Prop) req id :
  P (FetchDocument id) -> (forall s b, P (Sent s b)) ->
  (forall e, P (UnhandledRejection e)) ->
  appends P (fun _ => True) (getOneItem req id).
Proof.
  intros HF HS HU. unfold getOneItem.
  apply (appends_detached P (fun _ => True)); [|exact HU].
  apply (appends_catch P (fun _ => True)).
  - apply appends_bind; [now apply appends_fetchDocument|].
    intros [l|]; [|now apply appends_respondError].
    apply appends_bind; [apply appends_getProp|]. intros deleted.
    apply appends_if; [now apply appends_respondError|].
    eapply appends_weaken; [now apply appends_respondItem|trivial].
  - intros e _ w. split; [|trivial].
    destruct e;
      first [ exists []%list; rewrite app_nil_r; split; [reflexivity|constructor]
            | eexists [_]%list; split; [reflexivity|repeat constructor; apply HS] ].
Qed.

(** X2. A GET writes no document: whether it names an item or asks for
    the list, and whatever the store holds, the collection is afterwards
    what it was, and no creation and no replacement of a document was
    asked of the store. *)
Theorem tableRouter_get_is_safe (req : request) (w : world) :
  method req = "GET" ->
  let w' := snd (tableRouter req w) in
  collection w' = collection w
  /\ exists evs,
       trace w' = (trace w ++ evs)%list
       /\ Forall (fun e => isWrite e = false) evs.
Proof.
  intros Hget w'. subst w'. unfold tableRouter. rewrite Hget.
  cbn [String.eqb Ascii.eqb Bool.eqb].
  destruct (truthy (params_id req)).
  - split; [apply (reading_getOneItem req (params_id req) w)|].
    apply (appends_getOneItem (fun e => isWrite e = false) req
             (params_id req)); reflexivity.
  - split; [reflexivity|].
    exists [FromOData "todoitem" (get (query req) "$filter")
              (get (query req) "$select");
            Sent (VNum 200)
              (QueryJson (get (query req) "$filter")
                 (get (query req) "$select"))]%list.
    split; [|repeat constructor].
    unfold getAllItems, bind, res_status, res_json, emit.
    cbn [snd trace log set_status status]. now rewrite <- app_assoc.
Qed.

Lemma tableRouter_get_is_safe_witness :
  collection (snd (tableRouter (requestOn "GET") (arrival ∅ [stored])))
  = [stored]
  /\ exists evs,
       trace (snd (tableRouter (requestOn "GET") (arrival ∅ [stored]))) = evs
       /\ Forall (fun e => isWrite e = false) evs.
Proof.
  apply (tableRouter_get_is_safe (requestOn "GET") (arrival ∅ [stored])).
  reflexivity.
Defined.

(** ** Errors of the handlers' own *)

(** A handler that throws an error of its own answers nothing. *)
Lemma crash_run (m : M unit) (e : exn) w w' :
  thrown e ->
  m w = (Throw e, w') ->
  detached (catch m onError) w
  = (Normal tt,
     log (UnhandledRejection
            (SyntaxError "Unexpected token u in JSON at position 0"))
       (set_status (errorCode e) w')).
Proof.
  intros He Hm. rewrite (detached_catch_throw _ _ _ _ _ Hm).
  destruct e; try contradiction; reflexivity.
Qed.

Lemma convertObj_no_etag (doc : obj) :
  doc !! "_etag" = None ->
  exists e item, convertObj doc = (Throw e, item) /\ thrown e.
Proof.
  intros Hetag. unfold convertObj. rewrite Hetag.
  destruct (doc !! "_ts"); do 2 eexists; split; reflexivity || exact I.
Qed.

Lemma trace_silence id e s w w' :
  trace w' = (trace w ++ [FetchDocument id])%list ->
  trace (log e (set_status s w')) = (trace w ++ [FetchDocument id; e])%list.
Proof.
  intros H. cbn [trace log set_status]. now rewrite H, <- app_assoc.
Qed.

(** X3. A stored document that has lost its [_etag] cannot be read,
    replaced or deleted, and the client is told nothing: the GET (of a
    document that is not marked deleted), the PUT and the DELETE each
    fetch the document, fail, and send no response. *)
Theorem no_etag_no_response (w : world) (req : request) (id : value)
    (doc : obj) :
  lookupBy "id" id (collection w) = Some doc ->
  doc !! "_etag" = None ->
  (get doc "deleted" <> VBool true ->
   trace (snd (getOneItem req id w)) = (trace w ++ silence id)%list)
  /\ trace (snd (replaceItem req id w)) = (trace w ++ silence id)%list
  /\ trace (snd (deleteItem req id w)) = (trace w ++ silence id)%list.
Proof.
  intros Hdoc Hetag.
  destruct (convertObj_no_etag doc Hetag) as (e & item & Hconv & He).
  set (l := fresh (dom (heap w))).
  set (fetched := put l doc (log (FetchDocument id) w)).
  assert (Hl : heap fetched !! l = Some doc) by apply heap_put.
  split; [|split].
  - intros Hdel. unfold getOneItem.
    rewrite (detached_catch_bind_run _ _ _ _ _ _
               (fetchDocument_found _ _ _ Hdoc)).
    fold l fetched.
    erewrite (crash_run _ e fetched
                (put l item (set_status (VNum 200) fetched)) He).
    + now apply trace_silence.
    + exec. unfold strict_equal.
      rewrite bool_decide_eq_false_2 by exact Hdel.
      unfold respondItem, res_status. erewrite bind_run by reflexivity.
      eapply bind_throw. rewrite (convertItem_run _ _ doc) by exact Hl.
      now rewrite Hconv.
  - unfold replaceItem.
    rewrite (detached_catch_bind_run _ _ _ _ _ _
               (fetchDocument_found _ _ _ Hdoc)).
    fold l fetched.
    erewrite (crash_run _ (TypeError _) fetched fetched I).
    + now apply trace_silence.
    + exec. rewrite (get_None _ _ Hetag). reflexivity.
  - unfold deleteItem.
    rewrite (detached_catch_bind_run _ _ _ _ _ _
               (fetchDocument_found _ _ _ Hdoc)).
    fold l fetched.
    erewrite (crash_run _ e fetched (put l item fetched) He).
    + now apply trace_silence.
    + eapply bind_throw. rewrite (convertItem_run _ _ doc) by exact Hl.
      now rewrite Hconv.
Qed.

Lemma no_etag_no_response_witness :
  let doc := delete "_etag" stored in
  let w := arrival edit [doc] in
  trace (snd (getOneItem (requestOn "GET") (VStr "1") w))
  = silence (VStr "1")
  /\ trace (snd (replaceItem (requestOn "PUT") (VStr "1") w))
     = silence (VStr "1")
  /\ trace (snd (deleteItem (requestOn "DELETE") (VStr "1") w))
     = silence (VStr "1").
Proof.
  intros doc w.
  pose proof (no_etag_no_response w (requestOn "GET") (VStr "1") doc
                eq_refl eq_refl) as (Hget & _ & _).
  pose proof (no_etag_no_response w (requestOn "PUT") (VStr "1") doc
                eq_refl eq_refl) as (_ & Hput & _).
  pose proof (no_etag_no_response w (requestOn "DELETE") (VStr "1") doc
                eq_refl eq_refl) as (_ & _ & Hdel).
  split; [apply Hget; discriminate|]. split; [exact Hput|exact Hdel].
Defined.

(** X4. The version check of a PUT is exact. When the body carries the
    version of an etag, the replace is issued if that etag is the one of
    the stored document, and otherwise the request is answered 409 with
    the current item and nothing is asked of the store: two different
    etags never have the same version. That is for a body that has no
    property named [hasOwnProperty]; one that has is answered by nothing,
    whatever its version, and nothing is asked of the store. *)
Theorem replaceItem_version_is_exact (w : world) (req : request) (id : value)
    (doc body : obj) (ts : value) (etag presented : string) :
  lookupBy "id" id (collection w) = Some doc ->
  doc !! "_ts" = Some ts ->
  doc !! "_etag" = Some (VStr etag) ->
  heap w !! reqBody req = Some body ->
  get body "id" = id ->
  headers req !! "if-match" = None ->
  body !! "version" = Some (VStr (encodeVersion presented)) ->
  match body !! "hasOwnProperty" with
  | Some _ =>
      trace (snd (replaceItem req id w)) = (trace w ++ silence id)%list
  | None =>
      if bool_decide (presented = etag)
      then exists rest,
             trace (snd (replaceItem req id w))
             = (trace w ++ FetchDocument id
                  :: ReplaceDocument (get doc "_self")
                       (delete "version" (delete "updatedAt" body))
                  :: rest)%list
      else trace (snd (replaceItem req id w))
           = (trace w ++ [FetchDocument id;
                          Sent (VNum 409) (Json (snd (convertObj doc)))])%list
  end.
Proof.
  intros Hdoc Hts Hetag Hbody Hid Hnone Hv.
  destruct (body !! "hasOwnProperty") as [own|] eqn:Hplain.
  { rewrite (replaceItem_hidden_method w req id doc body etag Hdoc Hetag
               Hbody Hid Hnone own Hplain).
    cbn [snd trace log put set_heap set_status]. unfold silence.
    now rewrite <- app_assoc. }
  destruct (bool_decide_reflect (presented = etag)) as [->|Hne].
  - apply (replaceItem_proceeds w req id doc body etag Hdoc Hetag Hbody Hid
             Hnone Hplain). now right.
  - assert (Hstale : VStr (encodeVersion presented)
                     <> VStr (encodeVersion etag)).
    { intros [= Heq]. apply Hne.
      pose proof (Base64Facts.decode_encode presented) as H1.
      pose proof (Base64Facts.decode_encode etag) as H2.
      unfold encodeVersion in Heq. rewrite Heq in H1. congruence. }
    rewrite (replaceItem_stale w req id doc body etag Hdoc Hetag Hbody Hid
               Hnone Hplain _ _ Hv Hstale (convertObj_store _ _ _ Hts Hetag)).
    rewrite (convertObj_store _ _ _ Hts Hetag). cbn [snd].
    apply trace_fetched.
Qed.

Lemma replaceItem_version_is_exact_witness :
  trace (snd (replaceItem (requestOn "PUT") (VStr "1")
                (arrival (<["version" := VStr "YWJk"]> edit) [stored])))
  = [FetchDocument (VStr "1");
     Sent (VNum 409) (Json (snd (convertObj stored)))]%list.
Proof.
  exact (replaceItem_version_is_exact
           (arrival (<["version" := VStr "YWJk"]> edit) [stored])
           (requestOn "PUT") (VStr "1") stored
           (<["version" := VStr "YWJk"]> edit) (VNum 1500000000)
           "abc" "abd" eq_refl eq_refl eq_refl eq_refl eq_refl eq_refl
           eq_refl).
Defined.

(** X5. A conversion that fails is not undone. On a document that has
    [_ts] and no [_etag], [convertItem] throws after it has replaced
    [_ts] by [updatedAt] in the caller's object; a second conversion of
    the same object then fails on [_ts]. *)
Theorem convertItem_fails_halfway (w : world) (l : loc) (doc : obj)
    (ts : value) :
  heap w !! l = Some doc ->
  doc !! "_ts" = Some ts ->
  doc !! "_etag" = None ->
  exists w' item,
    convertItem l w = (Throw (Error "Invalid item - no _etag field"), w')
    /\ heap w' !! l = Some item
    /\ item !! "_ts" = None
    /\ item !! "updatedAt" = Some (momentUnixToISOString ts)
    /\ fst (convertItem l w') = Throw (Error "Invalid item - no _ts field").
Proof.
  intros Hl Hts Hetag.
  set (item := delete "_ts" (<["updatedAt" := momentUnixToISOString ts]> doc)).
  assert (Hconv : convertObj doc
                  = (Throw (Error "Invalid item - no _etag field"), item)).
  { unfold convertObj. now rewrite Hts, Hetag. }
  assert (Hgone : item !! "_ts" = None) by apply lookup_delete_eq.
  exists (put l item w), item.
  rewrite (convertItem_run _ _ _ Hl), Hconv. cbn [fst snd].
  split; [reflexivity|]. split; [apply heap_put|]. split; [exact Hgone|].
  split.
  - unfold item. rewrite lookup_delete_ne by discriminate.
    apply lookup_insert_eq.
  - rewrite (convertItem_run _ _ item) by apply heap_put.
    unfold convertObj. now rewrite Hgone.
Qed.

Lemma convertItem_fails_halfway_witness :
  exists w' item,
    convertItem 1%positive (arrival (delete "_etag" stored) [])
    = (Throw (Error "Invalid item - no _etag field"), w')
    /\ heap w' !! 1%positive = Some item
    /\ item !! "_ts" = None
    /\ item !! "updatedAt" = Some (VStr "2017-07-14T02:40:00.000Z")
    /\ fst (convertItem 1%positive w')
       = Throw (Error "Invalid item - no _ts field").
Proof.
  apply (convertItem_fails_halfway (arrival (delete "_etag" stored) [])
           1%positive (delete "_etag" stored) (VNum 1500000000));
    reflexivity.
Defined.

(** X6. A PUT whose body names another item, or none, is refused
    before any version is compared: the document is fetched, the request
    is answered 400, and neither the collection nor the body is touched
    (the body keeps even its [updatedAt] and [version]). *)
Theorem replaceItem_refuses_other_id (w : world) (req : request)
    (id : value) (doc body : obj) (etag : string) :
  lookupBy "id" id (collection w) = Some doc ->
  doc !! "_etag" = Some (VStr etag) ->
  heap w !! reqBody req = Some body ->
  get body "id" <> id ->
  let w' := snd (replaceItem req id w) in
  trace w'
  = (trace w ++
     [FetchDocument id;
      Sent (VNum 400) (Json {[ "error" := VStr "Id does not match" ]})])%list
  /\ collection w' = collection w
  /\ heap w' !! reqBody req = Some body.
Proof.
  intros Hdoc Hetag Hbody Hid w'. subst w'.
  rewrite (replaceItem_id_mismatch w req id doc body etag Hdoc Hetag Hbody
             Hid).
  cbn [snd]. split; [apply trace_fetched|]. split; [reflexivity|].
  cbn [heap log set_status put set_heap].
  rewrite lookup_insert_ne by exact (fresh_heap _ _ _ Hbody). exact Hbody.
Qed.

Lemma replaceItem_refuses_other_id_witness :
  let w' := snd (replaceItem (requestOn "PUT") (VStr "1")
                   (arrival misdirected [stored])) in
  trace w'
  = [FetchDocument (VStr "1");
     Sent (VNum 400) (Json {[ "error" := VStr "Id does not match" ]})]%list
  /\ collection w' = [stored]
  /\ heap w' !! 1%positive = Some misdirected.
Proof.
  apply (replaceItem_refuses_other_id (arrival misdirected [stored])
           (requestOn "PUT") (VStr "1") stored misdirected "abc");
    first [reflexivity | discriminate].
Defined.

(** ** Inserting, then reading *)

Lemma find_app_none {A} (f : A -> bool) (c r : list A) :
  find f c = None -> find f (c ++ r)%list = find f r.
Proof.
  induction c as [|d c IH]; [reflexivity|].
  cbn [find app]. destruct (f d); [discriminate|exact IH].
Qed.

Lemma lookupBy_app_none k v (c r : list obj) :
  lookupBy k v c = None -> lookupBy k v (c ++ r)%list = lookupBy k v r.
Proof.
  unfold lookupBy. destruct v; try reflexivity. apply find_app_none.
Qed.

Lemma lookupBy_here k s (d : obj) (r : list obj) :
  d !! k = Some (VStr s) -> lookupBy k (VStr s) (d :: r) = Some d.
Proof.
  intros H. unfold lookupBy. cbn [find].
  now rewrite bool_decide_eq_true_2 by exact H.
Qed.

(** The document that the store makes of the object it is given to
    create, in the world [w]. *)
Lemma createDocument_run item o s w :
  heap w !! item = Some o ->
  o !! "id" = Some (VStr s) ->
  lookupBy "id" (VStr s) (collection w) = None ->
  let n := number_to_string (writes w) in
  let new :=
    stamp w (<["_rid" := VStr ("rid-" ++ n)]>
               (<["_self" := VStr ("dbs/AzureMobile/colls/todoitem/docs/" ++ n)]>
                  (<["_attachments" := VStr "attachments/"]> o))) in
  let w1 := set_collection (collection w ++ [new])%list
              (log (CreateDocument o) w) in
  createDocument item w
  = (Normal (fresh (dom (heap w))), put (fresh (dom (heap w))) new w1).
Proof.
  intros Ho Hid Hfree n new w1. unfold createDocument.
  rewrite (bind_run _ _ _ _ _ (deref_run _ _ _ Ho)).
  erewrite bind_run by reflexivity.
  cbn [collection log writes]. rewrite Hid, Hfree. reflexivity.
Qed.

(** The request body, once [insertItem] has prepared it. *)
Lemma insertItem_prepares req w body :
  heap w !! reqBody req = Some body ->
  insertItem req w
  = detached
      (catch
         (document <- createDocument (reqBody req) ;;
          respondItem 201 document)
         onError)
      (put (reqBody req) (inserted (clock w) body) w).
Proof.
  intros Hbody. unfold insertItem, inserted.
  erewrite bind_run by reflexivity. exec.
  set (dated := delete "version" (delete "updatedAt" _)).
  assert (Hhas : hasOwnProperty dated "deleted" = hasOwnProperty body "deleted").
  { unfold hasOwnProperty, dated.
    now rewrite !lookup_delete_ne, lookup_insert_ne by discriminate. }
  rewrite Hhas. destruct (hasOwnProperty body "deleted"); exec; reflexivity.
Qed.

Lemma inserted_frame clock body k :
  k ∉ ["createdAt"; "updatedAt"; "version"; "deleted"]%list ->
  inserted clock body !! k = body !! k.
Proof.
  rewrite !not_elem_of_cons. intros (? & ? & ? & ? & _).
  unfold inserted. destruct (hasOwnProperty body "deleted");
    now rewrite ?lookup_insert_ne, !lookup_delete_ne, lookup_insert_ne
      by congruence.
Qed.

Lemma inserted_deleted clock body :
  inserted clock body !! "deleted"
  = Some (default (VBool false) (body !! "deleted")).
Proof.
  unfold inserted, hasOwnProperty.
  destruct (body !! "deleted") as [v|] eqn:E.
  - rewrite bool_decide_eq_true_2 by eauto.
    now rewrite !lookup_delete_ne, lookup_insert_ne by discriminate.
  - rewrite bool_decide_eq_false_2 by (intros [? ?]; discriminate).
    apply lookup_insert_eq.
Qed.

Lemma stamp_frame w (o : obj) k :
  k <> "_ts" -> k <> "_etag" -> stamp w o !! k = o !! k.
Proof. intros. unfold stamp. now rewrite !lookup_insert_ne by congruence. Qed.

Lemma convertObj_stamp w (o : obj) :
  fst (convertObj (stamp w o)) = Normal tt.
Proof.
  erewrite (convertObj_store (stamp w o)); [reflexivity| |];
    unfold stamp.
  - apply lookup_insert_eq.
  - rewrite lookup_insert_ne by discriminate. apply lookup_insert_eq.
Qed.

(** X7. An item that was inserted can be read. When the body, which has
    no property named [hasOwnProperty], names an item that the
    collection does not hold, the POST is answered 201 with
    the item the store made of it, the collection holds one document
    more, and a GET of that item is answered 200 with the same item,
    unless the body had marked it deleted. Of the body, the item keeps
    every property that is not the server's; [createdAt] is the time of
    the request. *)
Theorem insertItem_then_getOneItem (w : world) (req req' : request)
    (body : obj) (s : string) :
  heap w !! reqBody req = Some body ->
  body !! "hasOwnProperty" = None ->
  body !! "id" = Some (VStr s) ->
  lookupBy "id" (VStr s) (collection w) = None ->
  get body "deleted" <> VBool true ->
  let w' := snd (insertItem req w) in
  exists doc item,
    trace w'
    = (trace w ++ [CreateDocument (inserted (clock w) body);
                   Sent (VNum 201) (Json item)])%list
    /\ collection w' = (collection w ++ [doc])%list
    /\ trace (snd (getOneItem req' (VStr s) w'))
       = (trace w' ++ [FetchDocument (VStr s);
                       Sent (VNum 200) (Json item)])%list
    /\ (forall k, k ∉ serverOwned -> item !! k = body !! k)
    /\ item !! "createdAt" = inserted (clock w) body !! "createdAt".
Proof.
  intros Hbody _ Hid Hfree Hdel w'. subst w'.
  rewrite (insertItem_prepares _ _ _ Hbody).
  set (o := inserted (clock w) body).
  set (w0 := put (reqBody req) o w).
  assert (Ho : heap w0 !! reqBody req = Some o) by apply heap_put.
  assert (Hoid : o !! "id" = Some (VStr s)).
  { unfold o. rewrite inserted_frame; [exact Hid|].
    rewrite !not_elem_of_cons. repeat split; try discriminate.
    apply not_elem_of_nil. }
  pose proof (createDocument_run _ _ _ _ Ho Hoid Hfree) as Hcreate.
  cbv zeta in Hcreate.
  set (new := stamp w0 _) in Hcreate.
  set (l := fresh (dom (heap w0))) in Hcreate.
  assert (Hc : fst (convertObj new) = Normal tt) by apply convertObj_stamp.
  destruct (convertObj new) as [c item] eqn:Hconv.
  cbn [fst] in Hc. subst c.
  erewrite detached_catch_normal; cycle 1.
  { rewrite (bind_run _ _ _ _ _ Hcreate).
    apply (respondItem_run _ _ new); [apply heap_put|exact Hconv]. }
  cbn [snd]. exists new, item.
  assert (Hitem : forall k, k ∉ ("updatedAt" :: "version" :: metadata) ->
                            item !! k = o !! k).
  { intros k Hk. pose proof (convertObj_frame new k Hk) as H.
    rewrite Hconv in H. cbn [snd] in H. rewrite H.
    unfold metadata in Hk. rewrite !not_elem_of_cons in Hk.
    destruct Hk as (_ & _ & ? & ? & ? & ? & ? & _).
    unfold new. rewrite stamp_frame by assumption.
    now rewrite !lookup_insert_ne by congruence. }
  assert (Hnew : forall k, k ∉ metadata -> new !! k = o !! k).
  { intros k Hk. unfold metadata in Hk. rewrite !not_elem_of_cons in Hk.
    destruct Hk as (? & ? & ? & ? & ? & _).
    unfold new. rewrite stamp_frame by assumption.
    now rewrite !lookup_insert_ne by congruence. }
  split; [|split; [|split; [|split]]].
  - cbn [trace log put set_heap set_status set_collection].
    now rewrite <- app_assoc.
  - reflexivity.
  - erewrite (getOneItem_found req' (VStr s) _ new item).
    + reflexivity.
    + cbn [collection log put set_heap set_status set_collection].
      rewrite lookupBy_app_none by exact Hfree.
      apply lookupBy_here. rewrite Hnew; [exact Hoid|].
      unfold metadata. rewrite !not_elem_of_cons.
      repeat split; try discriminate. apply not_elem_of_nil.
    + unfold get. rewrite Hnew.
      * unfold o. rewrite inserted_deleted. cbn [default].
        unfold get in Hdel. destruct (body !! "deleted"); cbn [default] in *;
          [exact Hdel|discriminate].
      * unfold metadata. rewrite !not_elem_of_cons.
        repeat split; try discriminate. apply not_elem_of_nil.
    + exact Hconv.
  - intros k Hk. unfold serverOwned, metadata in Hk.
    rewrite !not_elem_of_cons in Hk.
    destruct Hk as (? & ? & ? & ? & ? & ? & ? & ? & ? & _).
    rewrite Hitem.
    + unfold o. apply inserted_frame.
      rewrite !not_elem_of_cons. repeat split; try assumption.
      apply not_elem_of_nil.
    + unfold metadata. rewrite !not_elem_of_cons.
      repeat split; try assumption. apply not_elem_of_nil.
  - apply Hitem. unfold metadata. rewrite !not_elem_of_cons.
    repeat split; try discriminate. apply not_elem_of_nil.
Qed.

Lemma insertItem_then_getOneItem_witness :
  let w' := snd (insertItem (requestOn "POST") (arrival edit [])) in
  exists doc item,
    trace w'
    = [CreateDocument (inserted 1600000000123 edit);
       Sent (VNum 201) (Json item)]%list
    /\ collection w' = [doc]%list
    /\ trace (snd (getOneItem (requestOn "GET") (VStr "1") w'))
       = (trace w' ++ [FetchDocument (VStr "1");
                       Sent (VNum 200) (Json item)])%list
    /\ (forall k, k ∉ serverOwned -> item !! k = edit !! k)
    /\ item !! "createdAt" = inserted 1600000000123 edit !! "createdAt".
Proof.
  apply (insertItem_then_getOneItem (arrival edit []) (requestOn "POST")
           (requestOn "GET") edit "1");
    first [reflexivity | discriminate].
Defined.

(** X8. An item whose [id] is taken is not inserted: when the body has
    no property named [hasOwnProperty], the store is asked and refuses
    the creation, the POST is answered with the status of the refusal,
    409, and the translation of its body (which is kept symbolic, and
    taken to succeed), and the collection is what it was. *)
Theorem insertItem_conflict (w : world) (req : request) (body held : obj)
    (s : string) :
  heap w !! reqBody req = Some body ->
  body !! "hasOwnProperty" = None ->
  body !! "id" = Some (VStr s) ->
  lookupBy "id" (VStr s) (collection w) = Some held ->
  let w' := snd (insertItem req w) in
  collection w' = collection w
  /\ trace w'
     = (trace w ++ [CreateDocument (inserted (clock w) body);
                    Sent (VNum 409) (ErrorJson "Conflict")])%list.
Proof.
  intros Hbody _ Hid Hheld w'. subst w'.
  rewrite (insertItem_prepares _ _ _ Hbody).
  set (o := inserted (clock w) body).
  set (w0 := put (reqBody req) o w).
  assert (Hoid : o !! "id" = Some (VStr s)).
  { unfold o. rewrite inserted_frame; [exact Hid|].
    rewrite !not_elem_of_cons. repeat split; try discriminate.
    apply not_elem_of_nil. }
  assert (Hcreate : createDocument (reqBody req) w0
                    = (Throw (StoreError 409 "Conflict"),
                       log (CreateDocument o) w0)).
  { assert (Ho : heap w0 !! reqBody req = Some o) by apply heap_put.
    unfold createDocument.
    rewrite (bind_run _ _ _ _ _ (deref_run _ _ _ Ho)).
    erewrite bind_run by reflexivity.
    unfold w0. cbn [collection log put set_heap]. now rewrite Hoid, Hheld. }
  rewrite (detached_catch_throw _ _ _ _ _
             (bind_throw _ _ _ _ _ Hcreate)).
  split; [reflexivity|].
  cbn [snd trace onError detached catch bind res_status res_json emit log
         set_status status errorCode convertError ret put set_heap].
  now rewrite <- app_assoc.
Qed.

Lemma insertItem_conflict_witness :
  let w' := snd (insertItem (requestOn "POST") (arrival edit [stored])) in
  collection w' = [stored]
  /\ trace w'
     = [CreateDocument (inserted 1600000000123 edit);
        Sent (VNum 409) (ErrorJson "Conflict")]%list.
Proof.
  apply (insertItem_conflict (arrival edit [stored]) (requestOn "POST")
           edit stored "1");
    reflexivity.
Defined.

(** ** Replacing, then reading *)

Lemma lookupBy_middle k s (pre post : list obj) (doc : obj) :
  Forall (fun d : obj => d !! k <> Some (VStr s)) pre ->
  doc !! k = Some (VStr s) ->
  lookupBy k (VStr s) (pre ++ doc :: post) = Some doc.
Proof.
  intros Hpre Hdoc. rewrite lookupBy_app_none; [now apply lookupBy_here|].
  unfold lookupBy. induction Hpre as [|d pre Hd _ IH]; [reflexivity|].
  cbn [find]. now rewrite bool_decide_eq_false_2 by exact Hd.
Qed.

Lemma replaceBy_middle k s (new : obj) (pre post : list obj) (doc : obj) :
  Forall (fun d : obj => d !! k <> Some (VStr s)) pre ->
  doc !! k = Some (VStr s) ->
  replaceBy k (VStr s) new (pre ++ doc :: post) = (pre ++ new :: post)%list.
Proof.
  intros Hpre Hdoc. induction Hpre as [|d pre Hd _ IH]; cbn [replaceBy app].
  - now rewrite bool_decide_eq_true_2 by exact Hdoc.
  - rewrite bool_decide_eq_false_2 by exact Hd. now rewrite IH.
Qed.

Lemma replaceDocument_run link item o old w :
  heap w !! item = Some o ->
  lookupBy "_self" (VStr link) (collection w) = Some old ->
  let new :=
    stamp w (copyProp "_rid" old
               (copyProp "_self" old (copyProp "_attachments" old o))) in
  replaceDocument (VStr link) item w
  = (Normal (fresh (dom (heap w))),
     put (fresh (dom (heap w))) new
       (set_collection (replaceBy "_self" (VStr link) new (collection w))
          (log (ReplaceDocument (VStr link) o) w))).
Proof.
  intros Ho Hold new. unfold replaceDocument.
  rewrite (bind_run _ _ _ _ _ (deref_run _ _ _ Ho)).
  erewrite bind_run by reflexivity.
  cbn [collection log]. rewrite Hold. reflexivity.
Qed.

Lemma copyProp_frame k k' (from to : obj) :
  k' <> k -> copyProp k from to !! k' = to !! k'.
Proof.
  intros H. unfold copyProp. destruct (from !! k).
  - now rewrite lookup_insert_ne by congruence.
  - now rewrite lookup_delete_ne by congruence.
Qed.

(** X9. What a PUT stores is the body, and a GET reads it back. When the
    checks pass (the body names the item, has no property named
    [hasOwnProperty] and carries no version or the current one, and the
    request has no [if-match] header), the stored document is replaced,
    at its place in the collection, by the request body less [updatedAt]
    and [version] (the store adds its own properties); the PUT is
    answered 200 with the new item, which has the properties of the body
    and no other. A GET of the item is then answered 200 with that same
    item, or 404 when the body marked it deleted. *)
Theorem replaceItem_then_getOneItem (w : world) (req req' : request)
    (pre post : list obj) (doc body : obj) (s link etag : string) :
  collection w = (pre ++ doc :: post)%list ->
  Forall (fun d : obj => d !! "id" <> Some (VStr s)) pre ->
  Forall (fun d : obj => d !! "_self" <> Some (VStr link)) pre ->
  doc !! "id" = Some (VStr s) ->
  doc !! "_self" = Some (VStr link) ->
  doc !! "_etag" = Some (VStr etag) ->
  heap w !! reqBody req = Some body ->
  body !! "id" = Some (VStr s) ->
  body !! "hasOwnProperty" = None ->
  headers req !! "if-match" = None ->
  body !! "version" = None
  \/ body !! "version" = Some (VStr (encodeVersion etag)) ->
  let w' := snd (replaceItem req (VStr s) w) in
  exists new item,
    collection w' = (pre ++ new :: post)%list
    /\ trace w'
       = (trace w ++
          [FetchDocument (VStr s);
           ReplaceDocument (VStr link)
             (delete "version" (delete "updatedAt" body));
           Sent (VNum 200) (Json item)])%list
    /\ (forall k, k ∉ ("updatedAt" :: "version" :: metadata) ->
                  item !! k = body !! k)
    /\ trace (snd (getOneItem req' (VStr s) w'))
       = (trace w' ++
          [FetchDocument (VStr s);
           if bool_decide (get body "deleted" = VBool true) then notFound
           else Sent (VNum 200) (Json item)])%list.
Proof.
  intros Hcoll Hids Hlinks Hid Hself Hetag Hbody Hbid Hplain Hnone Hv w'.
  subst w'.
  assert (Hdoc : lookupBy "id" (VStr s) (collection w) = Some doc)
    by (rewrite Hcoll; now apply lookupBy_middle).
  set (o := delete "version" (delete "updatedAt" body)).
  unfold replaceItem.
  rewrite (detached_catch_bind_run _ _ _ _ _ _
             (fetchDocument_found _ _ _ Hdoc)).
  set (l := fresh (dom (heap w))).
  set (fetched := put l doc (log (FetchDocument (VStr s)) w)).
  assert (Hl : heap fetched !! l = Some doc) by apply heap_put.
  assert (Hlb : reqBody req <> l)
    by (apply not_eq_sym, (fresh_heap _ _ _ Hbody)).
  assert (Hb : heap fetched !! reqBody req = Some body).
  { unfold fetched. rewrite heap_put_ne by congruence. exact Hbody. }
  set (w2 := put (reqBody req) o fetched).
  assert (Ho : heap w2 !! reqBody req = Some o) by apply heap_put.
  assert (Hold : lookupBy "_self" (VStr link) (collection w2) = Some doc).
  { unfold w2, fetched. cbn [collection put set_heap log].
    rewrite Hcoll. now apply lookupBy_middle. }
  pose proof (replaceDocument_run _ _ _ _ _ Ho Hold) as Hreplace.
  cbv zeta in Hreplace.
  set (new := stamp w2 _) in Hreplace.
  set (l2 := fresh (dom (heap w2))) in Hreplace.
  assert (Hc : fst (convertObj new) = Normal tt) by apply convertObj_stamp.
  destruct (convertObj new) as [c item] eqn:Hconv.
  cbn [fst] in Hc. subst c.
  erewrite (detached_catch_congr _
              (detached
                 (updatedDocument <-
                    replaceDocument (VStr link) (reqBody req) ;;
                  respondItem 200 updatedDocument))
              _ _ w2); cycle 1.
  { exec. rewrite (get_Some _ _ _ Hetag). cbn [bufferToBase64]. exec.
    rewrite (get_Some _ _ _ Hbid). unfold strict_equal at 1.
    rewrite bool_decide_eq_true_2 by reflexivity. cbn [negb].
    rewrite (hasOwnProperty_None _ _ Hnone). exec.
    assert (Hgo : forall k : bool -> M unit,
               bind (if hasOwnProperty body "version"
                     then itemVersion <- getProp (reqBody req) "version" ;;
                          ret (negb (strict_equal itemVersion
                                       (VStr (encodeVersion etag))))
                     else ret false) k fetched
               = k false fetched).
    { intros k. destruct Hv as [Hv|Hv].
      - rewrite (hasOwnProperty_None _ _ Hv). reflexivity.
      - rewrite (hasOwnProperty_Some _ _ _ Hv). exec.
        rewrite (get_Some _ _ _ Hv). unfold strict_equal.
        rewrite bool_decide_eq_true_2 by reflexivity. reflexivity. }
    rewrite Hgo. exec. fold o w2.
    erewrite bind_run
      by (eapply getProp_run; unfold w2; rewrite heap_put_ne by exact Hlb;
          exact Hl).
    rewrite (get_Some _ _ _ Hself). reflexivity. }
  rewrite detached_catch_detached.
  erewrite detached_normal; cycle 1.
  { rewrite (bind_run _ _ _ _ _ Hreplace).
    apply (respondItem_run _ _ new); [apply heap_put|exact Hconv]. }
  cbn [snd]. exists new, item.
  assert (Hnew : forall k, k ∉ metadata -> new !! k = o !! k).
  { intros k Hk. unfold metadata in Hk. rewrite !not_elem_of_cons in Hk.
    destruct Hk as (? & ? & ? & ? & ? & _).
    unfold new. rewrite stamp_frame by assumption.
    now rewrite !copyProp_frame by congruence. }
  assert (Hitem : forall k, k ∉ ("updatedAt" :: "version" :: metadata) ->
                            item !! k = body !! k).
  { intros k Hk. pose proof (convertObj_frame new k Hk) as H.
    rewrite Hconv in H. cbn [snd] in H. rewrite H.
    rewrite !not_elem_of_cons in Hk. destruct Hk as (? & ? & Hk).
    rewrite Hnew by exact Hk.
    unfold o. now rewrite !lookup_delete_ne by congruence. }
  assert (Hrest : forall k, k ∈ ["id"; "deleted"]%list -> new !! k = body !! k).
  { intros k Hk. rewrite Hnew.
    - unfold o. rewrite !lookup_delete_ne; [reflexivity| |];
        rewrite !elem_of_cons, elem_of_nil in Hk;
        destruct Hk as [->|[->|[]]]; discriminate.
    - unfold metadata. rewrite !elem_of_cons, elem_of_nil in Hk.
      rewrite !not_elem_of_cons.
      destruct Hk as [->|[->|[]]]; repeat split; try discriminate;
        apply not_elem_of_nil. }
  assert (Hstored : collection
                      (log (Sent (VNum 200) (Json item))
                         (put l2 item
                            (set_status (VNum 200)
                               (put l2 new
                                  (set_collection
                                     (replaceBy "_self" (VStr link) new
                                        (collection w2))
                                     (log (ReplaceDocument (VStr link) o)
                                        w2))))))
                    = (pre ++ new :: post)%list).
  { cbn [collection log put set_heap set_status set_collection].
    unfold w2, fetched. cbn [collection log put set_heap].
    rewrite Hcoll. now apply replaceBy_middle. }
  split; [exact Hstored|]. split; [|split; [exact Hitem|]].
  - unfold w2, fetched.
    cbn [trace log put set_heap set_status set_collection].
    now rewrite <- !app_assoc.
  - assert (Hfound : lookupBy "id" (VStr s) (pre ++ new :: post) = Some new).
    { apply lookupBy_middle; [exact Hids|].
      rewrite Hrest; [exact Hbid|]. rewrite !elem_of_cons. now left. }
    assert (Hflag : get new "deleted" = get body "deleted").
    { unfold get. rewrite Hrest; [reflexivity|].
      rewrite !elem_of_cons. right. now left. }
    destruct (bool_decide_reflect (get body "deleted" = VBool true))
      as [Hdel|Hdel].
    + apply (getOneItem_deleted _ _ _ new);
        [rewrite Hstored; exact Hfound|].
      rewrite <- Hflag in Hdel. unfold get in Hdel.
      destruct (new !! "deleted"); cbn in Hdel; congruence.
    + apply (getOneItem_found _ _ _ new item);
        [rewrite Hstored; exact Hfound|now rewrite Hflag|exact Hconv].
Qed.

Lemma replaceItem_then_getOneItem_witness :
  let body := <["deleted" := VBool true]> edit in
  let w' := snd (replaceItem (requestOn "PUT") (VStr "1")
                   (arrival body [stored])) in
  exists new item,
    collection w' = [new]%list
    /\ trace w'
       = [FetchDocument (VStr "1");
          ReplaceDocument (VStr "dbs/AzureMobile/colls/todoitem/docs/0")
            (delete "version" (delete "updatedAt" body));
          Sent (VNum 200) (Json item)]%list
    /\ (forall k, k ∉ ("updatedAt" :: "version" :: metadata) ->
                  item !! k = body !! k)
    /\ trace (snd (getOneItem (requestOn "GET") (VStr "1") w'))
       = (trace w' ++ [FetchDocument (VStr "1"); notFound])%list.
Proof.
  intros body.
  apply (replaceItem_then_getOneItem (arrival body [stored])
           (requestOn "PUT") (requestOn "GET") [] [] stored body "1"
           "dbs/AzureMobile/colls/todoitem/docs/0" "abc");
    first [reflexivity | left; reflexivity | apply Forall_nil_2].
Defined.

(** ** More on the rewriting script *)

Lemma rewriteLoop_more utcOffset fuel s r :
  rewriteLoop fuel utcOffset s = Some r ->
  forall fuel', (fuel <= fuel')%nat -> rewriteLoop fuel' utcOffset s = Some r.
Proof.
  revert s. induction fuel as [|k IH]; intros s H fuel' Hle.
  - cbn [rewriteLoop] in H.
    destruct (exec s) as [[[whole op] lit]|] eqn:E; [discriminate|].
    destruct fuel'; cbn [rewriteLoop]; now rewrite E.
  - cbn [rewriteLoop] in H.
    destruct (exec s) as [[[whole op] lit]|] eqn:E.
    + destruct fuel' as [|k']; [lia|]. cbn [rewriteLoop]. rewrite E.
      apply (IH _ H). lia.
    + destruct fuel'; cbn [rewriteLoop]; now rewrite E.
Qed.

(** X10. The loop of the script ends on every filter, within as many turns
    as the filter has characters (more fuel changes nothing). What it
    returns holds no clause on [updatedAt] any more, so that rewriting it
    again returns it unchanged; and a filter without such a clause is
    returned as it is. *)
Theorem rewriteFilter_settles (utcOffset : Z) (filter : string) :
  exists r,
    (forall fuel, (String.length filter <= fuel)%nat ->
                  rewriteLoop fuel utcOffset filter = Some r)
    /\ exec r = None
    /\ rewriteFilter utcOffset r = Some r
    /\ (exec filter = None -> r = filter).
Proof.
  destruct (rewriteLoop_total utcOffset (String.length filter) filter
              (count_le_length _ _)) as (r & Hr & Hnone).
  exists r. split; [|split; [exact Hnone|split]].
  - intros fuel Hfuel. exact (rewriteLoop_more _ _ _ _ Hr _ Hfuel).
  - unfold rewriteFilter. destruct (String.length r); cbn [rewriteLoop];
      now rewrite Hnone.
  - intros H. destruct (String.length filter); cbn [rewriteLoop] in Hr;
      rewrite H in Hr; congruence.
Qed.




(** ** The select list *)

Lemma replaceAll_skip pat new s r :
  replaceAll pat new (String.length s) (s ++ r) = replaceAll pat new 0 r.
Proof.
  induction s as [|c s IH]; [now destruct r|].
  rewrite append_cons. cbn [String.length replaceAll]. exact IH.
Qed.

(** The two equations of a replacement of every occurrence: an
    occurrence at the front is replaced, and the search goes on after
    it; a character that begins no occurrence is kept. *)
Lemma replaceAll_here c pat new r :
  replaceAll (String c pat) new 0 (String c pat ++ r)
  = new ++ replaceAll (String c pat) new 0 r.
Proof.
  rewrite append_cons. cbn [replaceAll String.length].
  pose proof (strip_prefix_app (String c pat) r) as H.
  rewrite append_cons in H. rewrite H.
  replace (S (String.length pat) - 1)%nat with (String.length pat) by lia.
  now rewrite replaceAll_skip.
Qed.

Lemma replaceAll_next pat new c s :
  strip_prefix pat (String c s) = None ->
  replaceAll pat new 0 (String c s) = String c (replaceAll pat new 0 s).
Proof. intros H. cbn [replaceAll]. now rewrite H. Qed.

Lemma strip_prefix_comma pat f rest :
  count "," pat = 0%nat ->
  strip_prefix pat f = None ->
  strip_prefix pat (f ++ String "," rest) = None.
Proof.
  revert f. induction pat as [|c pat IH]; intros f Hpat H; [discriminate|].
  cbn [count] in Hpat.
  destruct (Ascii.eqb_spec c ",") as [->|Hc]; [lia|].
  destruct f as [|x f].
  - rewrite append_nil_l. cbn [strip_prefix].
    destruct (Ascii.eqb_spec "," c) as [<-|]; [contradiction|reflexivity].
  - rewrite append_cons. cbn [strip_prefix] in *.
    destruct (Ascii.eqb x c); [|reflexivity]. now apply IH.
Qed.

Lemma occurs_cons pat c s :
  occurs pat (String c s) = false ->
  strip_prefix pat (String c s) = None /\ occurs pat s = false.
Proof.
  cbn [occurs]. destruct (strip_prefix pat (String c s)); [discriminate|].
  auto.
Qed.

(** A field that holds no occurrence is kept, and the search goes on
    after the comma that ends it. *)
Lemma replaceAll_field pat new f rest :
  count "," pat = 0%nat -> pat <> "" ->
  occurs pat f = false ->
  replaceAll pat new 0 (f ++ String "," rest)
  = f ++ String "," (replaceAll pat new 0 rest).
Proof.
  intros Hpat Hne. induction f as [|c f IH]; intros Hf.
  - rewrite !append_nil_l. apply replaceAll_next.
    destruct pat as [|x pat]; [contradiction|]. cbn [strip_prefix count] in *.
    destruct (Ascii.eqb_spec x ",") as [->|Hx]; [lia|].
    destruct (Ascii.eqb_spec "," x) as [<-|]; [contradiction|reflexivity].
  - apply occurs_cons in Hf as [Hhere Hf].
    rewrite !append_cons, replaceAll_next.
    + now rewrite IH.
    + pose proof (strip_prefix_comma _ _ rest Hpat Hhere) as H.
      now rewrite append_cons in H.
Qed.

Lemma replaceAll_last pat new f :
  occurs pat f = false -> replaceAll pat new 0 f = f.
Proof.
  induction f as [|c f IH]; intros Hf; [reflexivity|].
  apply occurs_cons in Hf as [Hhere Hf].
  rewrite replaceAll_next by exact Hhere. now rewrite IH.
Qed.

Lemma concat_cons sep f g r :
  String.concat sep (f :: g :: r) = f ++ sep ++ String.concat sep (g :: r).
Proof. reflexivity. Qed.

(** X12. The script turns the field [updatedAt] of a select list into
    [_ts], wherever it stands and as often as it stands there, and keeps
    the other fields, as long as none of them holds the text [updatedAt]
    itself. *)
Theorem rewriteSelect_fields (fields : list string) :
  Forall (fun f => f = "updatedAt" \/ occurs "updatedAt" f = false) fields ->
  rewriteSelect (String.concat "," fields)
  = String.concat "," (map selected fields).
Proof.
  unfold rewriteSelect.
  induction 1 as [|f r Hf Hr IH]; [reflexivity|].
  assert (Hsel : occurs "updatedAt" f = false -> selected f = f).
  { intros Hno. unfold selected.
    destruct (String.eqb_spec f "updatedAt") as [->|]; [discriminate|].
    reflexivity. }
  destruct r as [|g r].
  - cbn [String.concat map]. destruct Hf as [->|Hno]; [reflexivity|].
    rewrite Hsel by exact Hno. now apply replaceAll_last.
  - cbn [map]. rewrite !concat_cons.
    change (map selected (g :: r)) with (selected g :: map selected r) in IH.
    set (rest := String.concat "," (g :: r)) in *.
    set (done := String.concat "," (selected g :: map selected r)) in *.
    change ("," ++ rest) with (String "," rest).
    change ("," ++ done) with (String "," done).
    destruct Hf as [->|Hno].
    + rewrite replaceAll_here. change (selected "updatedAt") with "_ts".
      rewrite (replaceAll_next "updatedAt" "_ts" "," rest eq_refl).
      now rewrite IH.
    + rewrite Hsel by exact Hno.
      rewrite replaceAll_field; [|reflexivity|discriminate|exact Hno].
      now rewrite IH.
Qed.

Lemma rewriteSelect_fields_witness :
  rewriteSelect "updatedAt,version,id,title,complete"
  = "_ts,version,id,title,complete".
Proof.
  apply (rewriteSelect_fields
           ["updatedAt"; "version"; "id"; "title"; "complete"]).
  repeat constructor; first [now left | now right].
Defined.

(** ** The connection string *)

Lemma splitOn_cons sep s : exists h t, splitOn sep s = (h :: t)%list.
Proof.
  induction s as [|c s (h & t & IH)]; cbn [splitOn]; [eauto|].
  destruct (Ascii.eqb c sep); [eauto|]. rewrite IH. eauto.
Qed.

(** The first part is the text before the first separator. *)
Lemma splitOn_head sep s :
  elementAt (splitOn sep s) 0
  = VStr (fst (span (fun c => negb (Ascii.eqb c sep)) s)).
Proof.
  induction s as [|c s IH]; [reflexivity|]. cbn [splitOn span].
  destruct (Ascii.eqb c sep); cbn [negb]; [reflexivity|].
  destruct (splitOn_cons sep s) as (h & t & E). rewrite E in *.
  unfold elementAt in *. cbn [nth_error] in *. injection IH as ->.
  now destruct (span _ s).
Qed.

Lemma splitOn_app sep a b :
  all (fun c => negb (Ascii.eqb c sep)) a = true ->
  splitOn sep (a ++ String sep b) = (a :: splitOn sep b)%list.
Proof.
  induction a as [|c a IH]; intros Ha.
  - rewrite append_nil_l. cbn [splitOn]. now rewrite Ascii.eqb_refl.
  - cbn [all] in Ha. apply andb_true_iff in Ha as [Hc Ha].
    rewrite append_cons. cbn [splitOn].
    apply negb_true_iff in Hc. now rewrite Hc, IH.
Qed.

Lemma all_app p a b : all p (a ++ b) = all p a && all p b.
Proof.
  induction a as [|c a IH]; [reflexivity|].
  rewrite append_cons. cbn [all]. now rewrite IH, andb_assoc.
Qed.

(** X13. The connection string, in the form the portal gives it:
    [AccountEndpoint=e;AccountKey=k;]. With no variable to override them,
    the host is the endpoint and the account key is the key, each of them
    cut at its first [=]: a key that ends in the padding of base64 loses
    it. *)
Theorem settings_of_connection_string (file : option obj)
    (env : gmap string string) (e k : string) :
  env !! "DocumentDb"
  = Some ("AccountEndpoint=" ++ e ++ ";AccountKey=" ++ k ++ ";") ->
  env !! "DocumentDbHost" = None ->
  env !! "DocumentDbAccountKey" = None ->
  all not_semicolon e = true ->
  all not_semicolon k = true ->
  Settings.host (settings file env) = VStr (fst (span not_equals e))
  /\ Settings.accountKey (settings file env)
     = VStr (fst (span not_equals k)).
Proof.
  intros Hconn Hhost Hkey He Hk.
  set (defaults := match file with
                   | Some o => o
                   | None => <["accountKey" := VNull]> {[ "host" := VNull ]}
                   end).
  assert (Hparts :
            splitOn ";" ("AccountEndpoint=" ++ e ++ ";AccountKey=" ++ k ++ ";")
            = [("AccountEndpoint=" ++ e)%string; ("AccountKey=" ++ k)%string;
               ""]%list).
  { rewrite <- (append_assoc "AccountEndpoint=" e).
    change (";AccountKey=" ++ k ++ ";")
      with (String ";" ("AccountKey=" ++ k ++ ";")).
    rewrite splitOn_app by (rewrite all_app; apply andb_true_iff; split; [reflexivity|exact He]).
    rewrite <- (append_assoc "AccountKey=" k).
    change (";" : string) with (String ";" "").
    rewrite splitOn_app by (rewrite all_app; apply andb_true_iff; split; [reflexivity|exact Hk]).
    reflexivity. }
  assert (Hpart : forall name v,
             all not_equals name = true ->
             splitOn "=" (name ++ String "=" v)
             = (name :: splitOn "=" v)%list)
    by (intros; now apply splitOn_app).
  assert (Hdefaults :
            defaultSettings file env
            = <["accountKey" := VStr (fst (span not_equals k))]>
                (<["host" := VStr (fst (span not_equals e))]> defaults)).
  { unfold defaultSettings. rewrite Hconn, Hparts. fold defaults.
    cbn [fold_left]. unfold connectionPart.
    change ("AccountEndpoint=" ++ e) with ("AccountEndpoint" ++ String "=" e).
    change ("AccountKey=" ++ k) with ("AccountKey" ++ String "=" k).
    rewrite !Hpart by reflexivity.
    pose proof (splitOn_head "=" e) as Hse.
    pose proof (splitOn_head "=" k) as Hsk.
    unfold elementAt in *. cbn [nth_error] in *.
    destruct (splitOn_cons "=" e) as (he & te & Ee).
    destruct (splitOn_cons "=" k) as (hk & tk & Ek).
    rewrite Ee, Ek in *. cbn [nth_error] in *.
    injection Hse as ->. injection Hsk as ->. reflexivity. }
  unfold settings. rewrite Hdefaults. unfold envOr. rewrite Hhost, Hkey.
  cbn [Settings.host Settings.accountKey]. split.
  - apply get_Some.
    rewrite lookup_insert_ne by discriminate. apply lookup_insert_eq.
  - apply get_Some, lookup_insert_eq.
Qed.

Lemma settings_of_connection_string_witness :
  let env : gmap string string :=
    {[ "DocumentDb" :=
         "AccountEndpoint=https://todo.documents.azure.com:443/;AccountKey=c2VjcmV0a2V5MQ==;" ]} in
  Settings.host (settings None env)
  = VStr "https://todo.documents.azure.com:443/"
  /\ Settings.accountKey (settings None env) = VStr "c2VjcmV0a2V5MQ".
Proof.
  intros env.
  apply (settings_of_connection_string None env
           "https://todo.documents.azure.com:443/" "c2VjcmV0a2V5MQ==");
    reflexivity.
Defined.

(** ** The cache of databases *)

(** X14. A database that was resolved once is resolved for good. After a
    call of [ensureDatabaseExists] has resolved, every later call for the
    same name resolves to the same value and leaves the server alone,
    whatever the client it is made with, whatever has become of the
    database on the server, and whatever the operations of the driver
    would answer: the cache is keyed by the name alone and is never
    invalidated. *)
Theorem ensureDatabaseExists_resolves_for_good
    {Client Database Server : Type}
    (findDatabaseById findDatabaseById' :
       Client -> string -> Server -> completion (option Database) * Server)
    (createDatabase createDatabase' :
       Client -> string -> Server -> completion Database * Server)
    (client client' : Client) (database : string)
    (dbCache dbCache' : gmap string Database) (server server' later : Server)
    (r : resolved Database) :
  ensureDatabaseExists findDatabaseById createDatabase client database
    (dbCache, server)
  = (Normal r, (dbCache', server')) ->
  ensureDatabaseExists findDatabaseById' createDatabase' client' database
    (dbCache', later)
  = (Normal r, (dbCache', later)).
Proof.
  unfold ensureDatabaseExists.
  destruct (dbCache !! database) as [d|] eqn:Hd.
  - intros [= <- <- <-]. now rewrite Hd.
  - destruct (bool_decide_reflect (database ∈ objectPrototype)) as [Hin|Hin].
    + intros [= <- <- <-]. now rewrite Hd.
    + destruct (findDatabaseById client database server)
        as [[[dbRef|]|e|] server1]; try discriminate.
      * intros [= <- <- <-]. now rewrite lookup_insert_eq.
      * destruct (createDatabase client database server1)
          as [[result|e|] server2]; try discriminate.
        intros [= <- <- <-]. now rewrite lookup_insert_eq.
Qed.

Lemma ensureDatabaseExists_resolves_for_good_witness :
  ensureDatabaseExists serverFind serverCreate tt "AzureMobile"
    ({[ "AzureMobile" := "AzureMobile" ]}, [])
  = (Normal (Own "AzureMobile"), ({[ "AzureMobile" := "AzureMobile" ]}, [])).
Proof.
  apply (ensureDatabaseExists_resolves_for_good serverFind serverFind
           serverCreate serverCreate tt tt "AzureMobile" ∅
           {[ "AzureMobile" := "AzureMobile" ]} [] ["AzureMobile"] []
           (Own "AzureMobile")).
  reflexivity.
Defined.

(** X15. The cache only grows, and a call that fails caches nothing.
    Whatever a call of [ensureDatabaseExists] returns, the cache holds
    afterwards what it held for every other name, and what it held for
    this name if it held something; when the call rejects, the cache is
    what it was. *)
Theorem ensureDatabaseExists_keeps_cache {Client Database Server : Type}
    (findDatabaseById :
       Client -> string -> Server -> completion (option Database) * Server)
    (createDatabase :
       Client -> string -> Server -> completion Database * Server)
    (client : Client) (database : string)
    (dbCache : gmap string Database) (server : Server) :
  let '(c, (dbCache', _)) :=
    ensureDatabaseExists findDatabaseById createDatabase client database
      (dbCache, server) in
  dbCache ⊆ dbCache'
  /\ (forall k, k <> database -> dbCache' !! k = dbCache !! k)
  /\ (forall e, c = Throw e -> dbCache' = dbCache).
Proof.
  unfold ensureDatabaseExists.
  destruct (dbCache !! database) as [d|] eqn:Hd; [auto|].
  destruct (bool_decide (database ∈ objectPrototype)); [auto|].
  assert (Hgrow : forall d, dbCache ⊆ <[database := d]> dbCache
                            /\ (forall k, k <> database ->
                                          <[database := d]> dbCache !! k
                                          = dbCache !! k))
    by (intros d; split;
        [now apply insert_subseteq
        |intros; now rewrite lookup_insert_ne by congruence]).
  destruct (findDatabaseById client database server)
    as [[[dbRef|]|e|] server1]; auto.
  - destruct (Hgrow dbRef). repeat split; auto. discriminate.
  - destruct (createDatabase client database server1)
      as [[result|e|] server2]; auto.
    destruct (Hgrow result). repeat split; auto. discriminate.
Qed.

(** X16. A database is created only when the search for it found none.
    When the search finds the database, or rejects, what
    [ensureDatabaseExists] returns and the state it leaves owe nothing to
    [createDatabase]: they are the same whatever that operation would
    do. *)
Theorem ensureDatabaseExists_creates_when_absent
    {Client Database Server : Type}
    (findDatabaseById :
       Client -> string -> Server -> completion (option Database) * Server)
    (createDatabase createDatabase' :
       Client -> string -> Server -> completion Database * Server)
    (client : Client) (database : string)
    (dbCache : gmap string Database) (server : Server) :
  fst (findDatabaseById client database server) <> Normal None ->
  ensureDatabaseExists findDatabaseById createDatabase client database
    (dbCache, server)
  = ensureDatabaseExists findDatabaseById createDatabase' client database
      (dbCache, server).
Proof.
  intros Hfound. unfold ensureDatabaseExists.
  destruct (dbCache !! database); [reflexivity|].
  destruct (bool_decide (database ∈ objectPrototype)); [reflexivity|].
  destruct (findDatabaseById client database server)
    as [[[dbRef|]|e|] server1]; try reflexivity.
  now destruct Hfound.
Qed.

Lemma ensureDatabaseExists_creates_when_absent_witness :
  ensureDatabaseExists serverFind serverCreate tt "AzureMobile"
    (∅, ["AzureMobile"])
  = ensureDatabaseExists serverFind
      (fun _ _ server => (Throw (StoreError 403 "Forbidden"), server))
      tt "AzureMobile" (∅, ["AzureMobile"]).
Proof.
  apply (ensureDatabaseExists_creates_when_absent serverFind serverCreate
           (fun _ _ server => (Throw (StoreError 403 "Forbidden"), server))
           tt "AzureMobile" ∅ ["AzureMobile"]).
  discriminate.
Defined.

(** ** Initialization *)

Lemma find_first {A} (f : A -> bool) (l : list A) (x : A) :
  find f l = Some x ->
  exists pre post,
    l = (pre ++ x :: post)%list
    /\ Forall (fun y => f y = false) pre /\ f x = true.
Proof.
  induction l as [|y l IH]; cbn; [discriminate|].
  destruct (f y) eqn:Hy.
  - intros [= ->]. exists []%list, l. repeat split; [constructor|exact Hy].
  - intros H. destruct (IH H) as (pre & post & -> & Hpre & Hx).
    exists (y :: pre)%list, post. repeat split; [now constructor|exact Hx].
Qed.

Lemma find_none_all {A} (f : A -> bool) (l : list A) :
  find f l = None -> Forall (fun y => f y = false) l.
Proof.
  induction l as [|y l IH]; cbn; [constructor|].
  destruct (f y) eqn:Hy; [discriminate|]. intros H. constructor; auto.
Qed.

Section initialize_facts.
Context {Client Database Collection Server : Type}.
Variable DocumentClient : value -> value -> value -> string -> Client.
Variable findDatabaseById :
  Client -> string -> Server -> completion (option Database) * Server.
Variable createDatabase :
  Client -> string -> Server -> completion Database * Server.
Variable listCollections :
  Client -> resolved Database -> Server
  -> completion (list Collection) * Server.
Variable createCollection :
  Client -> string -> resolved Database -> string -> Server
  -> completion Collection * Server.
Variable id : Collection -> value.

Local Ltac outcome :=
  repeat match goal with
         | |- context [match ?x with _ => _ end] =>
             match type of x with
             | prod _ _ => destruct x as [? ?] eqn:?
             | completion _ => destruct x as [?|?|] eqn:?
             | option _ => destruct x as [?|] eqn:?
             | bool => destruct x eqn:?
             end
         end.

(** X17. Every run of [initialize] writes the account key to the log:
    the line that holds the host and the key is the first it logs (the
    second when the flag [refs.initialized] is up), whatever the server
    answers afterwards. No run sets [refs.initialized], so that no run
    that starts with the flag down logs that the driver is already
    initialized; and the line that reports the end of the initialization
    is never logged. *)
Theorem initialize_logs_the_account_key (settings : Settings.t)
    (st : controller Client Database Collection Server) :
  let st' :=
    snd (initialize DocumentClient findDatabaseById createDatabase
           listCollections createCollection id settings st) in
  exists rest,
    logged st'
    = (logged st
       ++ (if Refs.initialized (refs st) then [AlreadyInitialized] else [])
       ++ CreatingClient (Settings.host settings)
            (Settings.accountKey settings)
       :: EnsuringDatabase (Settings.database settings) :: rest)%list
    /\ (AlreadyInitialized ∉ rest) /\ (FinishedInitializing ∉ rest)
    /\ Refs.initialized (refs st') = Refs.initialized (refs st).
Proof using Type.
  unfold initialize. cbv zeta.
  set (start := if Refs.initialized (refs st) then say AlreadyInitialized st
                else st).
  assert (Hstart : logged start
                   = (logged st
                      ++ (if Refs.initialized (refs st)
                          then [AlreadyInitialized] else []))%list
                   /\ Refs.initialized (refs start)
                      = Refs.initialized (refs st)).
  { unfold start. destruct (Refs.initialized (refs st)) eqn:E;
      cbn [logged say refs]; rewrite ?app_nil_r; auto. }
  destruct Hstart as [Hlog Hflag].
  outcome; cbn [snd logged say set_refs set_server refs Refs.initialized];
    rewrite ?Hlog, ?Hflag, <- ?app_assoc; cbn [app];
    (eexists; split; [reflexivity|]);
    rewrite ?not_elem_of_cons;
    repeat split; try discriminate; try apply not_elem_of_nil.
Qed.

(** X18. When [initialize] resolves, the database was resolved, its
    collections were listed, and [refs.table] is the first of the listed
    collections that has the name of the table, in which case nothing is
    created and the server is as the listing left it, or, when none of
    the listed collections has that name, the collection that
    [createCollection] made with the pricing tier and that name. The log
    tells the two cases apart. Provided the collections the driver
    creates have the name they were asked with, [refs.table] has the
    name of the table in both. *)
Theorem initialize_finds_the_table (settings : Settings.t)
    (st st' : controller Client Database Collection Server) :
  (forall client tier db name s c s',
      createCollection client tier db name s = (Normal c, s') ->
      id c = VStr name) ->
  initialize DocumentClient findDatabaseById createDatabase listCollections
    createCollection id settings st
  = (Normal tt, st') ->
  let client :=
    DocumentClient (Settings.host settings) (Settings.accountKey settings)
      (Settings.connectionPolicy settings)
      (Settings.consistencyLevel settings) in
  let other (c : Collection) := id c <> VStr (Settings.table settings) in
  let lines (l : list (line Collection)) :=
    (logged st
     ++ (if Refs.initialized (refs st) then [AlreadyInitialized] else [])
     ++ CreatingClient (Settings.host settings) (Settings.accountKey settings)
     :: EnsuringDatabase (Settings.database settings)
     :: InitializedDatabase (Settings.database settings) :: l)%list in
  exists c db cache s1 collections s2,
    ensureDatabaseExists findDatabaseById createDatabase client
      (Settings.database settings) (dbCache st, server st)
    = (Normal db, (cache, s1))
    /\ listCollections client db s1 = (Normal collections, s2)
    /\ Refs.client (refs st') = Some client
    /\ Refs.database (refs st') = Some db
    /\ Refs.table (refs st') = Some c
    /\ id c = VStr (Settings.table settings)
    /\ last (logged st') = Some FoundCollection
    /\ ((exists pre post,
            collections = (pre ++ c :: post)%list
            /\ Forall other pre
            /\ server st' = s2
            /\ logged st'
               = lines [FoundCollections (length collections);
                        CollectionIs (Some c); FoundCollection])
        \/ (Forall other collections
            /\ createCollection client (Settings.pricingTier settings) db
                 (Settings.table settings) s2
               = (Normal c, server st')
            /\ logged st'
               = lines [FoundCollections (length collections);
                        CollectionIs None;
                        CreatingCollection (Settings.table settings);
                        FoundCollection])).
Proof using Type.
  intros Hcreate. unfold initialize. cbv zeta.
  set (start := if Refs.initialized (refs st) then say AlreadyInitialized st
                else st).
  assert (Hstart : logged start
                   = (logged st
                      ++ (if Refs.initialized (refs st)
                          then [AlreadyInitialized] else []))%list
                   /\ dbCache start = dbCache st
                   /\ server start = server st).
  { unfold start. destruct (Refs.initialized (refs st));
      cbn [logged say dbCache server]; rewrite ?app_nil_r; auto. }
  destruct Hstart as (Hlog & Hcache & Hserver).
  cbn [dbCache server say set_refs]. rewrite Hcache, Hserver.
  destruct (ensureDatabaseExists _ _ _ _ _) as [[db|e|] [cache s1]] eqn:Hdb;
    [|discriminate..].
  cbn [server set_server say set_refs].
  destruct (listCollections _ db s1) as [[collections|e|] s2] eqn:Hlist;
    [|discriminate..].
  cbn [server dbCache set_server say set_refs].
  destruct (find _ collections) as [c|] eqn:Hfind.
  - intros [= <-].
    destruct (find_first _ _ _ Hfind) as (pre & post & Hsplit & Hpre & Hc).
    exists c, db, cache, s1, collections, s2.
    cbn [refs set_refs say set_server Refs.client Refs.table Refs.database
           logged server].
    unfold strict_equal in Hc. apply bool_decide_eq_true in Hc.
    rewrite Hlog, <- !app_assoc. cbn [app].
    repeat split; try reflexivity; try assumption.
    + rewrite !last_app. reflexivity.
    + left. exists pre, post. repeat split; try assumption.
      eapply Forall_impl; [exact Hpre|]. cbn. intros x Hx.
      unfold strict_equal in Hx. now apply bool_decide_eq_false in Hx.
  - cbn [server dbCache set_server say set_refs].
    destruct (createCollection _ _ db _ s2) as [[c|e|] s3] eqn:Hmade;
      [|discriminate..].
    intros [= <-].
    exists c, db, cache, s1, collections, s2.
    cbn [refs set_refs say set_server Refs.client Refs.table Refs.database
           logged server].
    rewrite Hlog, <- !app_assoc. cbn [app].
    repeat split; try reflexivity; try assumption.
    + exact (Hcreate _ _ _ _ _ _ _ Hmade).
    + rewrite !last_app. reflexivity.
    + right. repeat split; try assumption.
      eapply Forall_impl; [exact (find_none_all _ _ Hfind)|]. cbn.
      intros x Hx. unfold strict_equal in Hx.
      now apply bool_decide_eq_false in Hx.
Qed.

End initialize_facts.

Lemma initialize_finds_the_table_witness :
  let st' :=
    snd (initialize serverClient serverFind serverCreate serverList
           serverCreateCollection VStr (settings None ∅) cold) in
  Refs.table (refs st') = Some "todoitem"
  /\ server st' = ["AzureMobile"]%list
  /\ logged st'
     = [CreatingClient VNull VNull;
        EnsuringDatabase "AzureMobile"; InitializedDatabase "AzureMobile";
        FoundCollections 1; CollectionIs None;
        CreatingCollection "todoitem"; FoundCollection]%list.
Proof.
  intros st'.
  destruct (initialize_finds_the_table serverClient serverFind serverCreate
              serverList serverCreateCollection VStr (settings None ∅) cold
              st')
    as (c & db & cache & s1 & collections & s2 & _ & _ & _ & _ & Ht & Hid
        & _).
  - intros client tier db name s c s' [= <- _]. reflexivity.
  - reflexivity.
  - cbn in Hid. injection Hid as ->. split; [exact Ht|].
    split; reflexivity.
Defined.

(** When the table is listed twice, [refs.table] is the first of the two,
    and nothing is created. *)
Example initialize_takes_the_first :
  let st' :=
    snd (initialize serverClient serverFind serverCreate serverListTwice
           (fun _ _ _ table s => (Normal (table, 0), s)) (fun c => VStr (fst c))
           (settings None ∅)
           (Controller (Refs.Make false None None None) [] ∅ [])) in
  Refs.table (refs st') = Some ("todoitem", 1)
  /\ logged st'
     = [CreatingClient VNull VNull;
        EnsuringDatabase "AzureMobile"; InitializedDatabase "AzureMobile";
        FoundCollections 3; CollectionIs (Some ("todoitem", 1));
        FoundCollection]%list.
Proof. intros st'. split; reflexivity. Qed.

(** ** The translation of store errors *)

Lemma onFirst_cons c h t : onFirst c (h :: t) = (String c h :: t)%list.
Proof. reflexivity. Qed.

Lemma splitLines_whole s : occurs CRLF s = false -> splitLines s = [s].
Proof.
  induction s as [|c s IH]; intros H; [reflexivity|].
  apply occurs_cons in H as [Hhere H]. specialize (IH H).
  cbn [splitLines]. rewrite IH, onFirst_cons.
  destruct (Ascii.eqb_spec c "013") as [->|]; [|reflexivity].
  destruct s as [|c' s]; [reflexivity|].
  destruct (Ascii.eqb_spec c' "010") as [->|]; [discriminate Hhere|].
  reflexivity.
Qed.

Lemma splitLines_first a b :
  occurs CRLF a = false ->
  splitLines (a ++ CRLF ++ b) = (a :: splitLines b)%list.
Proof.
  induction a as [|c a IH]; intros H.
  - rewrite append_nil_l. reflexivity.
  - apply occurs_cons in H as [Hhere H]. specialize (IH H).
    rewrite append_cons. cbn [splitLines]. rewrite IH, onFirst_cons.
    destruct (Ascii.eqb_spec c "013") as [->|]; [|reflexivity].
    destruct a as [|c' a].
    + rewrite append_nil_l. reflexivity.
    + rewrite append_cons.
      destruct (Ascii.eqb_spec c' "010") as [->|]; [discriminate Hhere|].
      reflexivity.
Qed.

Lemma occurs_CRLF s : count "013" s = 0%nat -> occurs CRLF s = false.
Proof.
  induction s as [|c s IH]; intros H; [reflexivity|].
  cbn [count] in H. destruct (Ascii.eqb_spec c "013") as [->|Hc]; [lia|].
  cbn [occurs CRLF strip_prefix].
  destruct (Ascii.eqb_spec c "013"); [contradiction|]. now apply IH.
Qed.

Lemma splitSpaced_whole sep f :
  count sep f = 0%nat -> splitSpaced sep false f = [f].
Proof.
  induction f as [|c f IH]; intros H; [reflexivity|].
  cbn [count] in H. destruct (Ascii.eqb_spec c sep) as [->|Hc]; [lia|].
  cbn [splitSpaced andb].
  destruct (Ascii.eqb_spec c sep); [contradiction|]. now rewrite IH.
Qed.

Lemma splitSpaced_field sep f rest :
  count sep f = 0%nat ->
  splitSpaced sep false (f ++ String sep rest)
  = (f :: splitSpaced sep true rest)%list.
Proof.
  induction f as [|c f IH]; intros H.
  - rewrite append_nil_l. cbn [splitSpaced andb]. now rewrite Ascii.eqb_refl.
  - cbn [count] in H. destruct (Ascii.eqb_spec c sep) as [->|Hc]; [lia|].
    rewrite append_cons. cbn [splitSpaced andb].
    destruct (Ascii.eqb_spec c sep); [contradiction|]. now rewrite IH.
Qed.

Lemma splitSpaced_skipped sep rest :
  spaced rest = false ->
  splitSpaced sep true rest = splitSpaced sep false rest.
Proof.
  destruct rest as [|c rest]; [reflexivity|]. cbn [spaced splitSpaced].
  now intros ->.
Qed.

Lemma splitSpaced_head sep v :
  exists t,
    splitSpaced sep false v
    = (fst (span (fun c => negb (Ascii.eqb c sep)) v) :: t)%list.
Proof.
  induction v as [|c v (t & IH)]; [now exists []%list|].
  cbn [splitSpaced andb span].
  destruct (Ascii.eqb c sep); cbn [negb]; [eauto|].
  rewrite IH, onFirst_cons. destruct (span _ v). eauto.
Qed.

Lemma spaced_app a b :
  spaced a = false -> a <> "" \/ spaced b = false -> spaced (a ++ b) = false.
Proof.
  destruct a as [|c a]; intros Ha [Hne|Hb]; try contradiction;
    rewrite ?append_nil_l, ?append_cons; auto.
Qed.

Lemma additional_pair body pair :
  pairOk pair -> additional body (pairText pair) = translated body pair.
Proof.
  destruct pair as [name v].
  intros (_ & _ & Hcolon & _ & _ & _ & Hv & Hproto).
  unfold additional, translated, pairText. cbn [fst snd].
  change (": " ++ v) with (String ":" (String " " v)).
  rewrite (splitSpaced_field _ _ _ Hcolon).
  change (splitSpaced ":" true (String " " v)) with (splitSpaced ":" true v).
  rewrite (splitSpaced_skipped _ _ Hv).
  destruct (splitSpaced_head ":" v) as (t & ->).
  cbn [hd elementAt nth_error].
  destruct (String.eqb_spec (toLowerCase (removeSpace name)) "__proto__");
    [contradiction|reflexivity].
Qed.

Lemma count_pairText c pair :
  c <> ":"%char -> c <> " "%char ->
  count c (pairText pair) = (count c (fst pair) + count c (snd pair))%nat.
Proof.
  intros Hc Hs. unfold pairText. rewrite !count_app.
  cbn [count]. destruct (Ascii.eqb_spec ":" c); [congruence|].
  destruct (Ascii.eqb_spec " " c); [congruence|]. lia.
Qed.

Lemma spaced_pairText pair :
  spaced (fst pair) = false -> spaced (pairText pair) = false.
Proof.
  intros H. unfold pairText. destruct (fst pair) as [|c name]; [reflexivity|].
  rewrite append_cons. exact H.
Qed.

(** The second line, read back pair by pair. *)
Lemma splitSpaced_pairs pairs :
  Forall pairOk pairs -> pairs <> []%list ->
  splitSpaced "," false (String.concat ", " (map pairText pairs))
  = map pairText pairs
  /\ count "013" (String.concat ", " (map pairText pairs)) = 0%nat
  /\ spaced (String.concat ", " (map pairText pairs)) = false.
Proof.
  induction 1 as [|[name v] r Hp Hr IH]; [contradiction|]. intros _.
  pose proof Hp as (Hcn & Hrn & _ & Hsn & Hcv & Hrv & _ & _).
  assert (Hcomma : count "," (pairText (name, v)) = 0%nat)
    by (rewrite count_pairText by discriminate; cbn [fst snd]; lia).
  assert (Hcr : count "013" (pairText (name, v)) = 0%nat)
    by (rewrite count_pairText by discriminate; cbn [fst snd]; lia).
  assert (Hsp : spaced (pairText (name, v)) = false)
    by now apply spaced_pairText.
  destruct r as [|p r].
  - cbn [map String.concat]. split; [now apply splitSpaced_whole|]. auto.
  - destruct IH as (IH & IHcr & IHsp); [discriminate|].
    cbn [map] in *. rewrite concat_cons.
    set (rest := String.concat ", " (pairText p :: map pairText r)) in *.
    change (", " ++ rest) with (String "," (String " " rest)).
    split; [|split].
    + rewrite (splitSpaced_field _ _ _ Hcomma).
      change (splitSpaced "," true (String " " rest))
        with (splitSpaced "," true rest).
      now rewrite (splitSpaced_skipped _ _ IHsp), IH.
    + rewrite count_app, Hcr. cbn [count]. exact IHcr.
    + destruct (pairText (name, v)) as [|c t] eqn:E; [reflexivity|].
      rewrite append_cons. exact Hsp.
Qed.

Lemma fold_additional pairs body :
  Forall pairOk pairs ->
  fold_left additional (map pairText pairs) body
  = fold_left translated pairs body.
Proof.
  intros H. revert body. induction H as [|p r Hp _ IH]; intros body;
    [reflexivity|].
  cbn [map fold_left]. now rewrite (additional_pair _ _ Hp), IH.
Qed.

Lemma stripMessage_text t rest :
  t <> "" -> spaced t = false ->
  stripMessage ("Message: " ++ t ++ rest) = t ++ rest.
Proof.
  intros Hne Ht. destruct t as [|c t]; [contradiction|].
  unfold stripMessage. change ("Message: " ++ String c t ++ rest)
    with ("Message:" ++ String " " (String c t ++ rest)).
  rewrite strip_prefix_app. cbn [is_space]. rewrite append_cons.
  cbn [dropSpaces]. cbn [spaced] in Ht. now rewrite Ht.
Qed.

(** X19. A message of one line is not translated. When the body of a
    store error has a [message] that, once its heading is removed, holds
    no line break, [convertError] does not return: if the line is a JSON
    text with [Errors], it fails on the second line that is not there. *)
Theorem convertError_needs_two_lines
    (JSON_parse : string -> completion json) (code : Z) (raw : string)
    (body : obj) (message : string) :
  JSON_parse raw = Normal (JObject body) ->
  body !! "message" = Some (VStr message) ->
  occurs CRLF (stripMessage message) = false ->
  (forall r, Errors.convertError JSON_parse (StoreError code raw) <> Normal r)
  /\ (forall j errors,
        JSON_parse (stripMessage message) = Normal j ->
        errorsOf j = Normal errors ->
        Errors.convertError JSON_parse (StoreError code raw)
        = Throw (TypeError "Cannot read property 'split' of undefined")).
Proof.
  intros Hraw Hmessage Hline.
  unfold Errors.convertError. rewrite Hraw.
  rewrite (hasOwnProperty_Some _ _ _ Hmessage), (get_Some _ _ _ Hmessage).
  unfold Errors.translate. rewrite (splitLines_whole _ Hline).
  cbn [hd nth_error]. split.
  - intros r. destruct (JSON_parse (stripMessage message)) as [j|e|];
      try discriminate.
    destruct (errorsOf j); discriminate.
  - intros j errors -> ->. reflexivity.
Qed.

Lemma convertError_needs_two_lines_witness :
  Errors.convertError sampleParse (StoreError 404 "short")
  = Throw (TypeError "Cannot read property 'split' of undefined").
Proof.
  destruct (convertError_needs_two_lines sampleParse 404 "short"
              {[ "message" := VStr "Message: {}" ]}
              "Message: {}" eq_refl eq_refl eq_refl) as [_ H].
  exact (H (JObject {[ "Errors" := VOther ]}) VOther eq_refl eq_refl).
Defined.

(** X20. A message in the format of the store is translated pair by
    pair. When the [message] of the body is [Message: ] and a JSON text
    on a first line and pairs [name: value] on the second, the result is
    the body without its [message], with the [Errors] of that text as
    [errors] and, for every pair, a property: its name is the name of
    the pair in small letters less its first space, its value the value
    of the pair up to its first colon. *)
Theorem convertError_translates
    (JSON_parse : string -> completion json) (code : Z) (raw text : string)
    (body : obj) (j : json) (errors : value)
    (pairs : list (string * string)) :
  JSON_parse raw = Normal (JObject body) ->
  body !! "message"
  = Some (VStr ("Message: " ++ text ++ CRLF
                ++ String.concat ", " (map pairText pairs))) ->
  text <> "" -> spaced text = false -> occurs CRLF text = false ->
  JSON_parse text = Normal j ->
  errorsOf j = Normal errors ->
  pairs <> []%list -> Forall pairOk pairs ->
  Errors.convertError JSON_parse (StoreError code raw)
  = Normal (JObject
              (delete "message"
                 (fold_left translated pairs (<["errors" := errors]> body)))).
Proof.
  intros Hraw Hmessage Hne Hsp Hcr Htext Herrors Hpairs Hok.
  destruct (splitSpaced_pairs pairs Hok Hpairs) as (Hsplit & Hline & _).
  unfold Errors.convertError. rewrite Hraw.
  rewrite (hasOwnProperty_Some _ _ _ Hmessage), (get_Some _ _ _ Hmessage).
  unfold Errors.translate.
  rewrite (stripMessage_text _ _ Hne Hsp), (splitLines_first _ _ Hcr).
  rewrite (splitLines_whole _ (occurs_CRLF _ Hline)).
  cbn [hd nth_error]. rewrite Htext, Herrors, Hsplit.
  now rewrite (fold_additional _ _ Hok).
Qed.

Lemma convertError_translates_witness :
  exists o,
    Errors.convertError sampleParse (StoreError 409 "conflict")
    = Normal (JObject o)
    /\ o !! "message" = None
    /\ o !! "code" = Some (VStr "Conflict")
    /\ o !! "errors" = Some VOther
    /\ o !! "activityid" = Some (VStr "4c2c")
    /\ o !! "requesturi" = Some (VStr "/apps/todo/")
    /\ o !! "requeststats" = Some (VStr "")
    /\ o !! "sdk" = Some (VStr "Microsoft.Azure.Documents.Common/1.11.0.0").
Proof.
  eexists. split.
  - apply (convertError_translates sampleParse 409 "conflict" "{}"
             sampleBody (JObject {[ "Errors" := VOther ]}) VOther
             [("ActivityId", "4c2c"); ("Request URI", "/apps/todo/");
              ("RequestStats", "");
              ("SDK", "Microsoft.Azure.Documents.Common/1.11.0.0")]);
      try reflexivity; try discriminate.
    repeat constructor; discriminate.
  - repeat split; reflexivity.
Defined.
